(** * teamwater-data: the donation collectors, embedded and verified

    A shallow embedding of [collecter.py] (class [DonationMonitor], the
    continuous monitor), [github_collector.py] (class
    [GitHubDonationCollector], the single-shot collector) and
    [auto_update.py] (class [AutoGitUpdater], which runs the collector in
    a fresh clone and pushes what it changed), followed by the properties
    of the ingestion engine, the snapshotter, the ledger store, the cycle
    driver, the two programs and the update pipeline.

    Python values that travel through the code are JSON values; Python
    exceptions are results [Raise e]; the attributes of [self] and the two
    files the objects own form the record [world], threaded explicitly.
    Console output is not modelled, except that the expressions evaluated
    for it can raise; [last_check_time], which only paces a console line
    of [monitor], is left out with it.  Clocks and HTTP responses are
    inputs of the functions that read them. *)

From Stdlib Require Import ZArith List String Ascii Bool Lia.
From Stdlib Require Import Permutation Sorted.
From Stdlib Require Import SpecFloat.
Import ListNotations.

Set Warnings "-register-all".

Local Open Scope string_scope.
Local Open Scope list_scope.
Local Open Scope Z_scope.

(* ================================================================== *)
(** * Python values *)
(* ================================================================== *)

(** What [json.load] / [response.json()] return and [json.dump] accepts.
    A Python [float] is an IEEE-754 binary64 number, a [spec_float]; a
    [dict] is the list of its items in insertion order; a [str] is the
    sequence of its UTF-8 bytes (whose lexicographic order is the order of
    the code points). *)
Inductive json : Type :=
| JNull
| JBool (b : bool)
| JInt (z : Z)
| JFloat (f : spec_float)
| JStr (s : string)
| JArr (l : list json)
| JObj (kv : list (string * json)).

(** The exceptions the modelled code can meet. *)
Inductive exn : Type :=
| JSONDecodeError
| FileNotFoundError
| PermissionError
| UnicodeDecodeError
| RecursionError
| TypeError
| AttributeError
| ValueError
| OverflowError.

Inductive res (A : Type) : Type :=
| Ok (a : A)
| Raise (e : exn).
Arguments Ok {A} a.
Arguments Raise {A} e.

Definition res_bind {A B} (r : res A) (k : A -> res B) : res B :=
  match r with
  | Ok a => k a
  | Raise e => Raise e
  end.

Declare Scope res_scope.
Delimit Scope res_scope with res.
Notation "'let?' x ':=' r 'in' k" := (res_bind r (fun x => k))
  (at level 10, x pattern, r at level 100, k at level 200) : res_scope.
Local Open Scope res_scope.

Fixpoint mapM {A B} (f : A -> res B) (l : list A) : res (list B) :=
  match l with
  | [] => Ok []
  | x :: l' => let? y := f x in let? ys := mapM f l' in Ok (y :: ys)
  end.

(** ** Truth value, [bool(x)] *)

Definition truthy (j : json) : bool :=
  match j with
  | JNull => false
  | JBool b => b
  | JInt z => negb (z =? 0)
  | JFloat (S754_zero _) => false
  | JFloat _ => true
  | JStr s => negb (s =? "")%string
  | JArr l => match l with [] => false | _ => true end
  | JObj kv => match kv with [] => false | _ => true end
  end.

(** ** Numbers: [bool] is an [int]; [int] and [float] compare exactly *)

Inductive num : Type :=
| NInt (z : Z)
| NFloat (f : spec_float).

Definition as_num (j : json) : option num :=
  match j with
  | JBool b => Some (NInt (if b then 1 else 0))
  | JInt z => Some (NInt z)
  | JFloat f => Some (NFloat f)
  | _ => None
  end.

(** The float [f] against the integer [z], on their real values; [None]
    with a NaN. *)
Definition float_cmp_int (f : spec_float) (z : Z) : option comparison :=
  match f with
  | S754_nan => None
  | S754_zero _ => Some (0 ?= z)
  | S754_infinity s => Some (if s then Lt else Gt)
  | S754_finite s m e =>
      let v := if s then Z.neg m else Z.pos m in
      Some (if 0 <=? e then (v * 2 ^ e ?= z) else (v ?= z * 2 ^ (- e)))
  end.

Definition num_eqb (a b : num) : bool :=
  match a, b with
  | NInt x, NInt y => x =? y
  | NFloat f, NFloat g => SFeqb f g
  | NInt z, NFloat f | NFloat f, NInt z =>
      match float_cmp_int f z with Some Eq => true | _ => false end
  end.

Definition num_ltb (a b : num) : bool :=
  match a, b with
  | NInt x, NInt y => x <? y
  | NFloat f, NFloat g => SFltb f g
  | NFloat f, NInt z =>
      match float_cmp_int f z with Some Lt => true | _ => false end
  | NInt z, NFloat f =>
      match float_cmp_int f z with Some Gt => true | _ => false end
  end.

(** ** Dictionaries *)

Fixpoint lookup (k : string) (kv : list (string * json)) : option json :=
  match kv with
  | [] => None
  | (k', v) :: kv' => if (k' =? k)%string then Some v else lookup k kv'
  end.

(** [d.get(k, default)]: only a [dict] has the method. *)
Definition py_get (d : json) (k : string) (default : json) : res json :=
  match d with
  | JObj kv => Ok (match lookup k kv with Some v => v | None => default end)
  | _ => Raise AttributeError
  end.

(** [k in d] for a string [k]: key of a dict, substring of a str, element
    of a list; the other values are not containers. *)
Definition py_contains (k : string) (d : json) : res bool :=
  match d with
  | JObj kv => Ok (match lookup k kv with Some _ => true | None => false end)
  | JStr s => Ok (match index 0 k s with Some _ => true | None => false end)
  | JArr l =>
      Ok (existsb (fun x => match x with
                            | JStr s => (s =? k)%string
                            | _ => false
                            end) l)
  | _ => Raise TypeError
  end.

(** [for x in v]: the elements of a list, the keys of a dict, the
    characters of a str (here its bytes: what matters to the code is that
    they are strs). *)
Definition py_iter (v : json) : res (list json) :=
  match v with
  | JArr l => Ok l
  | JObj kv => Ok (map (fun p => JStr (fst p)) kv)
  | JStr s => Ok (map (fun c => JStr (String c EmptyString)) (list_ascii_of_string s))
  | _ => Raise TypeError
  end.

(** [v.append(x)]: only a [list] has the method. *)
Definition py_append (v x : json) : res json :=
  match v with
  | JArr l => Ok (JArr (l ++ [x]))
  | _ => Raise AttributeError
  end.

(** [len(v)], for the exception it can raise: the code only prints the
    length. *)
Definition py_len (v : json) : res unit :=
  match v with
  | JArr _ | JObj _ | JStr _ => Ok tt
  | _ => Raise TypeError
  end.

(** ** Equality [==] and order [<] *)

Fixpoint py_eq (a b : json) {struct a} : bool :=
  match a, b with
  | JNull, JNull => true
  | JStr s, JStr t => (s =? t)%string
  | JArr l, JArr m =>
      (fix all2 (l : list json) (m : list json) {struct l} : bool :=
         match l, m with
         | [], [] => true
         | x :: l', y :: m' => py_eq x y && all2 l' m'
         | _, _ => false
         end) l m
  | JObj kv, JObj kw =>
      (List.length kv =? List.length kw)%nat &&
      (fix sub (kv : list (string * json)) {struct kv} : bool :=
         match kv with
         | [] => true
         | (k, v) :: kv' =>
             match lookup k kw with
             | Some w => py_eq v w
             | None => false
             end && sub kv'
         end) kv
  | _, _ =>
      match as_num a, as_num b with
      | Some x, Some y => num_eqb x y
      | _, _ => false
      end
  end.

Fixpoint py_lt (a b : json) {struct a} : res bool :=
  match a, b with
  | JStr s, JStr t => Ok (String.ltb s t)
  | JArr l, JArr m =>
      (fix lex (l : list json) (m : list json) {struct l} : res bool :=
         match l, m with
         | [], [] => Ok false
         | [], _ :: _ => Ok true
         | _ :: _, [] => Ok false
         | x :: l', y :: m' => if py_eq x y then lex l' m' else py_lt x y
         end) l m
  | _, _ =>
      match as_num a, as_num b with
      | Some x, Some y => Ok (num_ltb x y)
      | _, _ => Raise TypeError
      end
  end.

(** ** Sets of hashable values *)

(** [list] and [dict] are unhashable: using one as a set element raises
    [TypeError]. *)
Definition hashable (j : json) : bool :=
  match j with
  | JArr _ | JObj _ => false
  | _ => true
  end.

(** A Python [set], as the list of the elements it holds, the most recently
    added first. *)
Definition pyset : Type := list json.

Definition is_nan (j : json) : bool :=
  match j with
  | JFloat S754_nan => true
  | _ => false
  end.

(** [e is x or e == x], the test a set makes on a stored element [e] and
    a probe [x].  The values that reach the sets come out of the JSON
    decoder, which yields one and the same object for every [NaN]: two
    NaN are the same object though not equal.  For the other hashable
    values an object equals itself, and identity adds nothing to [==]. *)
Definition py_same (e x : json) : bool :=
  (is_nan e && is_nan x) || py_eq e x.

Definition set_mem (x : json) (s : pyset) : bool :=
  existsb (fun e => py_same e x) s.

(** [x in s] *)
Definition py_in (x : json) (s : pyset) : res bool :=
  if hashable x then Ok (set_mem x s) else Raise TypeError.

(** [s.add(x)] *)
Definition py_add (x : json) (s : pyset) : res pyset :=
  if hashable x then Ok (if set_mem x s then s else x :: s)
  else Raise TypeError.

(** ** [float(x)] *)

(** Binary64. *)
Definition prec : Z := 53.
Definition emax : Z := 1024.

(** [float(z)] of an [int]: the nearest float, ties to even;
    [OverflowError] beyond the largest float. *)
Definition float_of_int (z : Z) : res spec_float :=
  match binary_normalize prec emax z 0 false with
  | S754_infinity _ => Raise OverflowError
  | f => Ok f
  end.

Section Float.

(** [float(s)] of a [str] (the parser of Python's numeric literals,
    [ValueError] on the others) is left as a parameter. *)
Variable float_of_str : string -> res spec_float.

Definition py_float (v : json) : res spec_float :=
  match v with
  | JFloat f => Ok f
  | JInt z => float_of_int z
  | JBool b => float_of_int (if b then 1 else 0)
  | JStr s => float_of_str s
  | JNull | JArr _ | JObj _ => Raise TypeError
  end.

End Float.

(** [a != b] on floats. *)
Definition float_ne (a b : spec_float) : bool := negb (SFeqb a b).

(* ================================================================== *)
(** * [list.sort(key=..., reverse=...)] *)
(* ================================================================== *)

(** The sort computes every key first, then orders the (key, item) pairs
    with [<] on the keys alone.  It is stable, also under [reverse=True]
    (the list is reversed, sorted, and reversed again).  The order below
    is the one every stable sort produces when [<] is a strict weak order
    on the keys (strings, or numbers without NaN); and as every item of a
    list of two or more is compared at least once, a key that [<] accepts
    beside no other key ([None], or a string among numbers) makes this
    sort raise [TypeError] as it makes Python's. *)
Fixpoint insert (x : json * json) (l : list (json * json))
  : res (list (json * json)) :=
  match l with
  | [] => Ok [x]
  | y :: l' =>
      let? b := py_lt (fst y) (fst x) in
      if b then (let? r := insert x l' in Ok (y :: r))
      else Ok (x :: y :: l')
  end.

Fixpoint sort_asc (l : list (json * json)) : res (list (json * json)) :=
  match l with
  | [] => Ok []
  | x :: l' => let? s := sort_asc l' in insert x s
  end.

Definition sort_items (key : json -> res json) (reverse : bool)
    (l : list json) : res (list json) :=
  let? ks := mapM key l in
  let d := combine ks l in
  let? s := sort_asc (if reverse then rev d else d) in
  Ok (map snd (if reverse then rev s else s)).

(** [v.sort(key=key, reverse=reverse)]: only a [list] has the method. *)
Definition py_sort (key : json -> res json) (reverse : bool) (v : json)
  : res json :=
  match v with
  | JArr l => let? s := sort_items key reverse l in Ok (JArr s)
  | _ => Raise AttributeError
  end.

(** [lambda x: x.get('completed_at', '')] *)
Definition completed_at_key (x : json) : res json :=
  py_get x "completed_at" (JStr "").

(* ================================================================== *)
(** * Files *)
(* ================================================================== *)

(** What a path holds, as far as [os.path.exists], [open] and [json.load]
    can tell: nothing, or a file on which
    [with open(path, 'r') as f: json.load(f)] gives [content], a value or
    an exception.  Among the exceptions:
    - [PermissionError], when opening the file for reading is refused;
    - [FileNotFoundError], when the file goes away between the test of
      [os.path.exists] and [open];
    - [UnicodeDecodeError], when the bytes are not text in the encoding
      of [open];
    - [JSONDecodeError], when the text is not a JSON document;
    - [RecursionError], when the document nests deeper than the
      interpreter recurses;
    - [ValueError], when the document holds an integer literal longer
      than the interpreter converts (4300 digits, from Python 3.11). *)
Inductive file : Type :=
| Absent
| Present (content : res json).

(** The file loads to the JSON value [j]. *)
Abbreviation Stored j := (Present (Ok j)).

(** Opening the file for reading is refused. *)
Abbreviation Unreadable := (Present (Raise PermissionError)).

(** The file holds text that is not a JSON document. *)
Abbreviation Garbled := (Present (Raise JSONDecodeError)).

Definition path_exists (f : file) : bool :=
  match f with
  | Absent => false
  | Present _ => true
  end.

(** [with open(path, 'r') as f: json.load(f)] *)
Definition read_json (f : file) : res json :=
  match f with
  | Absent => Raise FileNotFoundError
  | Present content => content
  end.

(** [except (json.JSONDecodeError, FileNotFoundError)] *)
Definition caught (e : exn) : bool :=
  match e with
  | JSONDecodeError | FileNotFoundError => true
  | _ => false
  end.

(** The loading idiom of both classes:
<<
    xs = []
    if os.path.exists(path):
        try:
            with open(path, 'r') as f:
                xs = json.load(f)
        except (json.JSONDecodeError, FileNotFoundError):
            xs = []
>> *)
Definition load_or_empty (f : file) : res json :=
  if path_exists f then
    match read_json f with
    | Ok j => Ok j
    | Raise e => if caught e then Ok (JArr []) else Raise e
    end
  else Ok (JArr []).

(* ================================================================== *)
(** * The state of a collector and its effects *)
(* ================================================================== *)

(** What the code does to the outside, in order. *)
Inductive event : Type :=
| SaveDonations (ledger : json)     (* [json.dump] into [donations_file] *)
| SaveTotals (series : json)        (* [json.dump] into [total_raised_file] *)
| Sleep (seconds : num).            (* [time.sleep] *)

(** The attributes of [self] that the code reads and writes, the content
    of the two files, and the effects so far (the latest first). *)
Record world : Type := mkWorld {
  known_donation_ids : pyset;
  last_total : option spec_float;
  donations_file : file;
  total_raised_file : file;
  trace : list event
}.

Definition set_known (k : pyset) (w : world) : world :=
  mkWorld k (last_total w) (donations_file w) (total_raised_file w) (trace w).

Definition set_last_total (t : option spec_float) (w : world) : world :=
  mkWorld (known_donation_ids w) t (donations_file w) (total_raised_file w)
    (trace w).

(** [with open(self.donations_file, 'w') as f: json.dump(v, f, indent=2)];
    writing is taken to succeed, and reading the file back gives [v]. *)
Definition dump_donations (v : json) (w : world) : world :=
  mkWorld (known_donation_ids w) (last_total w) (Stored v)
    (total_raised_file w) (SaveDonations v :: trace w).

(** [with open(self.total_raised_file, 'w') as f: json.dump(v, f, indent=2)] *)
Definition dump_totals (v : json) (w : world) : world :=
  mkWorld (known_donation_ids w) (last_total w) (donations_file w)
    (Stored v) (SaveTotals v :: trace w).

Definition sleep (seconds : num) (w : world) : world :=
  mkWorld (known_donation_ids w) (last_total w) (donations_file w)
    (total_raised_file w) (Sleep seconds :: trace w).

(** Computations that read and write the world and may raise; what was
    done before an exception stays done. *)
Definition M (A : Type) : Type := world -> res A * world.

Definition ret {A} (a : A) : M A := fun w => (Ok a, w).

Definition bind {A B} (m : M A) (k : A -> M B) : M B :=
  fun w =>
    match m w with
    | (Ok a, w') => k a w'
    | (Raise e, w') => (Raise e, w')
    end.

Definition lift {A} (r : res A) : M A := fun w => (r, w).

Definition gets {A} (f : world -> A) : M A := fun w => (Ok (f w), w).

Definition modify (f : world -> world) : M unit := fun w => (Ok tt, f w).

(** [try: m  except <the exceptions h accepts>: h e] *)
Definition try_except {A} (m : M A) (h : exn -> option (M A)) : M A :=
  fun w =>
    match m w with
    | (Ok a, w') => (Ok a, w')
    | (Raise e, w') =>
        match h e with
        | Some k => k w'
        | None => (Raise e, w')
        end
    end.

Declare Scope M_scope.
Delimit Scope M_scope with M.
Notation "x <- m ;; k" := (bind m (fun x => k))
  (at level 61, m at next level, right associativity) : M_scope.
Notation "' pat <- m ;; k" := (bind m (fun x => match x with pat => k end))
  (at level 61, pat pattern, m at next level, right associativity) : M_scope.
Local Open Scope M_scope.

(* ================================================================== *)
(** * The upstream client *)
(* ================================================================== *)

(** What [requests.get(url, timeout=...)] meets.  The first three make
    [requests.get] or [raise_for_status] raise a
    [requests.RequestException]; the last is a success response whose
    body is the JSON document [j].  (A success response whose body is not
    JSON is left out: what [response.json()] raises then depends on the
    version of [requests].) *)
Inductive response : Type :=
| ConnectionError
| Timeout
| HTTPError (status : Z)
| Body (j : json).

(** [get_total_raised] and [get_donations], the same in both classes:
<<
    try:
        response = requests.get(..., timeout=...)
        response.raise_for_status()
        return response.json()
    except requests.RequestException as e:
        print(...)
        return None
>> *)
Definition fetch (r : response) : json :=
  match r with
  | Body j => j
  | ConnectionError | Timeout | HTTPError _ => JNull
  end.

Definition get_donations (r : response) : json := fetch r.
Definition get_total_raised (r : response) : json := fetch r.

(* ================================================================== *)
(** * The ingestion loop of both classes *)
(* ================================================================== *)

(** The record built for a new donation; [stamp] holds the fields a class
    adds after [currency]. *)
Definition donation_record (donation donation_id : json)
    (stamp : list (string * json)) : res json :=
  let? amount := py_get donation "amount" JNull in
  let? completed_at := py_get donation "completed_at" JNull in
  let? donor_name := py_get donation "donor_name" JNull in
  let? donor_comment := py_get donation "donor_comment" JNull in
  let? currency := py_get donation "currency" JNull in
  Ok (JObj ([("id", donation_id);
             ("amount", amount);
             ("completed_at", completed_at);
             ("donor_name", donor_name);
             ("donor_comment", donor_comment);
             ("currency", currency)] ++ stamp)).

(** <<
    for donation in donations_data:
        donation_id = donation.get('id')
        if donation_id and donation_id not in self.known_donation_ids:
            donation_record = {...}
            new_donations.append(donation_record)
            existing_donations.append(donation_record)
            self.known_donation_ids.add(donation_id)
>>
    [stamp n] is the stamp of a record built after [n] others in this
    call. *)
Fixpoint merge_loop (stamp : nat -> list (string * json))
    (donations_data : list json) (new_donations : list json)
    (existing_donations : json) : M (list json * json) :=
  match donations_data with
  | [] => ret (new_donations, existing_donations)
  | donation :: rest =>
      donation_id <- lift (py_get donation "id" JNull) ;;
      known <- gets known_donation_ids ;;
      is_new <- (if truthy donation_id
                 then lift (let? b := py_in donation_id known in Ok (negb b))
                 else ret false) ;;
      if is_new : bool then
        donation_record <-
          lift (donation_record donation donation_id
                  (stamp (List.length new_donations))) ;;
        existing_donations' <-
          lift (py_append existing_donations donation_record) ;;
        known' <- lift (py_add donation_id known) ;;
        _ <- modify (set_known known') ;;
        merge_loop stamp rest (new_donations ++ [donation_record])
          existing_donations'
      else merge_loop stamp rest new_donations existing_donations
  end.

(** The console lines for the new donations evaluate
    [donation['donor_comment'][:100]] and [len(...)] when the comment is
    truthy: a str or a list can be sliced, the other truthy values raise
    ([TypeError]; for a dict, [KeyError] from Python 3.12 on). *)
Definition comment_excerpt (donation : json) : res unit :=
  let? c := py_get donation "donor_comment" JNull in
  if truthy c then
    match c with
    | JStr _ | JArr _ => Ok tt
    | _ => Raise TypeError
    end
  else Ok tt.

Definition report (new_donations : list json) : res unit :=
  let? _ := mapM comment_excerpt new_donations in Ok tt.

(** <<
    {donation.get('id') for donation in existing_donations if 'id' in donation}
>> *)
Fixpoint collect_ids (existing_donations : list json) (acc : pyset)
  : res pyset :=
  match existing_donations with
  | [] => Ok acc
  | donation :: rest =>
      let? has_id := py_contains "id" donation in
      if has_id : bool then
        let? i := py_get donation "id" JNull in
        let? acc' := py_add i acc in
        collect_ids rest acc'
      else collect_ids rest acc
  end.

(** [load_existing_data], the same in both classes. *)
Definition load_existing_data : M unit :=
  f <- gets donations_file ;;
  if path_exists f then
    try_except
      (existing_donations <- lift (read_json f) ;;
       entries <- lift (py_iter existing_donations) ;;
       ids <- lift (collect_ids entries []) ;;
       modify (set_known ids))
      (fun e => if caught e then Some (modify (set_known [])) else None)
  else ret tt.

(** The object just before [__init__] calls [load_existing_data], over the
    two files of the working directory. *)
Definition blank (donations total_raised : file) : world :=
  mkWorld [] None donations total_raised [].

(** [__init__] of either class. *)
Definition init (donations total_raised : file) : res unit * world :=
  load_existing_data (blank donations total_raised).

Definition nonempty {A} (l : list A) : bool :=
  match l with
  | [] => false
  | _ => true
  end.

(** The ledger order of both classes:
    [existing_donations.sort(key=lambda x: x.get('completed_at', ''), reverse=True)] *)
Definition sort_ledger (existing_donations : json) : res json :=
  py_sort completed_at_key true existing_donations.

(** ** How a program ends *)

Inductive ending : Type :=
| Completed            (* [main()] returns *)
| Exit (status : Z)    (* [exit(status)] *)
| Uncaught (e : exn).  (* an exception reaches the top: a traceback *)

(** The exit status of the process. *)
Definition exit_status (x : ending) : Z :=
  match x with
  | Completed => 0
  | Exit status => status
  | Uncaught _ => 1
  end.

(* ================================================================== *)
(** * [collecter.py]: class [DonationMonitor] *)
(* ================================================================== *)

Module DonationMonitor.

(** No field is added to a donation record. *)
Definition stamp (n : nat) : list (string * json) := [].

Definition save_new_donations (donations_data : json) : M bool :=
  if negb (truthy donations_data) then ret false
  else
    f <- gets donations_file ;;
    existing_donations <- lift (load_or_empty f) ;;
    entries <- lift (py_iter donations_data) ;;
    '(new_donations, existing_donations) <-
      merge_loop stamp entries [] existing_donations ;;
    if nonempty new_donations then
      sorted <- lift (sort_ledger existing_donations) ;;
      _ <- modify (dump_donations sorted) ;;
      _ <- lift (report new_donations) ;;
      ret true
    else ret false.

Section Snapshot.

Variable float_of_str : string -> res spec_float.

(** [time_ms] is [int(time.time() * 1000)]. *)
Definition save_total_raised_update (time_ms : Z) (total_data : json)
  : M unit :=
  total_raised <- lift (py_get total_data "total_raised" (JInt 0)) ;;
  amount <- lift (py_float float_of_str total_raised) ;;
  let update_data :=
    JObj [("amount", JFloat amount); ("timestamp", JInt time_ms)] in
  f <- gets total_raised_file ;;
  updates <- lift (load_or_empty f) ;;
  updates <- lift (py_append updates update_data) ;;
  modify (dump_totals updates).

(** What one turn of the loop of [monitor] meets. *)
Record cycle_env : Type := mkEnv {
  donations_response : response;
  total_response : response;
  time_ms : Z;              (* the clock when a sample is built *)
  elapsed : spec_float      (* [time.time() - start_time] after the check *)
}.

Definition max_consecutive_errors : Z := 5.

(** The first half of the [try] block: the donations.  It returns
    [new_donations_found]. *)
Definition check_donations (env : cycle_env) : M bool :=
  let donations_data := get_donations (donations_response env) in
  if truthy donations_data then save_new_donations donations_data
  else ret false.

(** The second half of the [try] block: the total. *)
Definition check_total (env : cycle_env) (new_donations_found : bool)
  : M unit :=
  let total_data := get_total_raised (total_response env) in
  if truthy total_data && new_donations_found then
    total_raised <- lift (py_get total_data "total_raised" (JInt 0)) ;;
    current_total <- lift (py_float float_of_str total_raised) ;;
    last <- gets last_total ;;
    if match last with
       | None => true
       | Some t => float_ne current_total t
       end
    then
      _ <- save_total_raised_update (time_ms env) total_data ;;
      modify (set_last_total (Some current_total))
    else ret tt
  else ret tt.

(** One turn of [while True] in [monitor(interval)], from the value of
    the local [consecutive_errors] and the world to their next values.
    [interval] is the interval as a float. *)
Definition monitor_cycle (interval : spec_float) (env : cycle_env)
    (consecutive_errors : Z) (w : world) : Z * world :=
  (* try: *)
  let '(outcome, consecutive_errors, w) :=
    match check_donations env w with
    | (Raise e, w) => (Raise e, consecutive_errors, w)
    | (Ok new_donations_found, w) =>
        let consecutive_errors :=
          if truthy (get_donations (donations_response env))
          then 0 else consecutive_errors in
        let '(r, w) := check_total env new_donations_found w in
        (r, consecutive_errors, w)
    end in
  (* except Exception: *)
  let '(consecutive_errors, w) :=
    match outcome with
    | Ok _ => (consecutive_errors, w)
    | Raise _ =>
        let consecutive_errors := consecutive_errors + 1 in
        if max_consecutive_errors <=? consecutive_errors
        then (0, sleep (NInt 5) w)
        else (consecutive_errors, w)
    end in
  (* sleep_time = max(0, interval - elapsed) *)
  let remaining := SFsub prec emax interval (elapsed env) in
  let sleep_time :=
    if num_ltb (NInt 0) (NFloat remaining) then NFloat remaining
    else NInt 0 in
  if num_ltb (NInt 0) sleep_time then (consecutive_errors, sleep sleep_time w)
  else (consecutive_errors, w).

(** The turns of the loop until it is interrupted, [consecutive_errors]
    starting at 0. *)
Fixpoint monitor_from (interval : spec_float) (envs : list cycle_env)
    (consecutive_errors : Z) (w : world) : Z * world :=
  match envs with
  | [] => (consecutive_errors, w)
  | env :: envs' =>
      let '(consecutive_errors, w) :=
        monitor_cycle interval env consecutive_errors w in
      monitor_from interval envs' consecutive_errors w
  end.

Definition monitor (interval : spec_float) (envs : list cycle_env)
    (w : world) : Z * world :=
  monitor_from interval envs 0 w.

(** [main()] over the two files of the working directory: the object is
    built, both endpoints are tried once, and [monitor(interval=1)] runs
    the turns [envs] until it is interrupted.  The console lines of the
    test evaluate [float(total.get('total_raised', 0))] and
    [len(donations)]. *)
Definition main (test_total test_donations : response)
    (envs : list cycle_env) (donations total_raised : file)
  : ending * world :=
  match init donations total_raised with
  | (Raise e, w) => (Uncaught e, w)
  | (Ok _, w) =>
      let total := get_total_raised test_total in
      let donations := get_donations test_donations in
      if truthy total then
        match (let? v := py_get total "total_raised" (JInt 0) in
               py_float float_of_str v) with
        | Raise e => (Uncaught e, w)
        | Ok _ =>
            if truthy donations then
              match py_len donations with
              | Raise e => (Uncaught e, w)
              | Ok _ =>
                  (Completed,
                   snd (monitor (binary_normalize prec emax 1 0 false) envs w))
              end
            else (Completed, w)
        end
      else (Completed, w)
  end.

End Snapshot.

End DonationMonitor.

(* ================================================================== *)
(** * [github_collector.py]: class [GitHubDonationCollector] *)
(* ================================================================== *)

Module GitHubDonationCollector.

(** ["recorded_at": datetime.utcnow().isoformat() + 'Z'], where
    [utcnow n] is the clock's text at the [n]-th record of the call. *)
Definition stamp (utcnow : nat -> string) (n : nat)
  : list (string * json) :=
  [("recorded_at", JStr (utcnow n ++ "Z"))].

Definition update_donations (utcnow : nat -> string)
    (donations_data : json) : M bool :=
  if negb (truthy donations_data) then ret false
  else
    f <- gets donations_file ;;
    existing_donations <- lift (load_or_empty f) ;;
    entries <- lift (py_iter donations_data) ;;
    '(new_donations, existing_donations) <-
      merge_loop (stamp utcnow) entries [] existing_donations ;;
    if nonempty new_donations || negb (truthy existing_donations) then
      sorted <- lift (sort_ledger existing_donations) ;;
      _ <- modify (dump_donations sorted) ;;
      _ <- lift (report new_donations) ;;
      ret true
    else ret false.

(** [updates[-100:]] *)
Definition last_100 (updates : list json) : list json :=
  skipn (List.length updates - 100) updates.

Section Snapshot.

Variable float_of_str : string -> res spec_float.

(** [time_ms] is [int(time.time() * 1000)] and [now] is
    [datetime.utcnow().isoformat()]. *)
Definition update_total_raised (time_ms : Z) (now : string)
    (total_data : json) : M bool :=
  if negb (truthy total_data) then ret false
  else
    total_raised <- lift (py_get total_data "total_raised" (JInt 0)) ;;
    amount <- lift (py_float float_of_str total_raised) ;;
    let update_data :=
      JObj [("amount", JFloat amount);
            ("timestamp", JInt time_ms);
            ("last_updated", JStr (now ++ "Z"))] in
    f <- gets total_raised_file ;;
    updates <- lift (load_or_empty f) ;;
    updates <- lift (py_append updates update_data) ;;
    let updates :=
      match updates with
      | JArr l => if (100 <? List.length l)%nat then JArr (last_100 l)
                  else updates
      | _ => updates
      end in
    _ <- modify (dump_totals updates) ;;
    ret true.

(** What one call of [run_update] meets. *)
Record update_env : Type := mkEnv {
  donations_response : response;
  total_response : response;
  utcnow : nat -> string;   (* the clock at each new donation record *)
  time_ms : Z;              (* the clock when the sample is built *)
  last_updated : string
}.

(** [run_update]; the local [has_changes] only chooses a console
    line. *)
Definition run_update (env : update_env) : M bool :=
  try_except
    (let donations_data := get_donations (donations_response env) in
     if truthy donations_data then
       _ <- update_donations (utcnow env) donations_data ;;
       let total_data := get_total_raised (total_response env) in
       if truthy total_data then
         _ <- update_total_raised (time_ms env) (last_updated env)
                total_data ;;
         ret true
       else ret false
     else ret false)
    (fun _ => Some (ret false)).

(** What one run of the script meets: the two fetches of the connection
    test, then those of [run_update]. *)
Record main_env : Type := mkMain {
  test_total : response;
  test_donations : response;
  update : update_env
}.

(** [main()] over the two files of the working directory.  The console
    lines of the test evaluate [float(total.get('total_raised', 0))] and
    [len(donations)]. *)
Definition main (env : main_env) (donations total_raised : file)
  : ending * world :=
  match init donations total_raised with
  | (Raise e, w) => (Uncaught e, w)
  | (Ok _, w) =>
      let total := get_total_raised (test_total env) in
      let donations := get_donations (test_donations env) in
      if negb (truthy total) then (Exit 1, w)
      else if negb (truthy donations) then (Exit 1, w)
      else
        match (let? v := py_get total "total_raised" (JInt 0) in
               let? _ := py_float float_of_str v in
               py_len donations) with
        | Raise e => (Uncaught e, w)
        | Ok _ =>
            match run_update (update env) w with
            | (Ok true, w') => (Completed, w')
            | (Ok false, w') => (Exit 1, w')
            | (Raise e, w') => (Uncaught e, w')
            end
        end
  end.

End Snapshot.

End GitHubDonationCollector.

(* ================================================================== *)
(** * [auto_update.py]: class [AutoGitUpdater] *)
(* ================================================================== *)

Module AutoGitUpdater.

Definition repo_url : string :=
  "https://github.com/C3lest1512/teamwater-data.git".
Definition repo_name : string := "teamwater-data".
Definition collector_script : string := "github_collector.py".

(** How a call of [subprocess.run(command, shell=True, ...)] ends. *)
Inductive completion : Type :=
| Returned (returncode : Z)
| TimeoutExpired
| Failed (e : exn).

(** What the updater does to the outside: a call of [subprocess.run] with
    its command line and working directory, or a call of
    [shutil.rmtree]. *)
Inductive action : Type :=
| Run (command : string) (cwd : option string)
| Rmtree (path : string).

(** [run_command]: [True] for the return code 0, [False] for the other
    return codes, for a timeout and for any other exception. *)
Definition run_command (command : string) (cwd : option string)
    (c : completion) : bool * list action :=
  (match c with
   | Returned 0 => true
   | _ => false
   end,
   [Run command cwd]).

(** [cleanup_existing_repo]: [rmtree] is tried when the folder exists, and
    what it raises is only printed. *)
Definition cleanup_existing_repo (folder_exists : bool) : list action :=
  if folder_exists then [Rmtree repo_name] else [].

(** What one call of [update_data] meets. *)
Record update_env : Type := mkEnv {
  stale : bool;            (* the folder exists at step 1 *)
  clone : completion;
  collector : completion;
  add : completion;
  diff : res Z;            (* [subprocess.run], called directly at step 5 *)
  now : string;            (* the clock of the commit message *)
  commit : completion;
  push : completion;
  left_over : bool         (* the folder exists at the last cleanup *)
}.

Definition double_quote : string := String "034"%char EmptyString.

Definition commit_command (now : string) : string :=
  "git commit -m " ++ double_quote ++ "Auto-update donations: " ++ now
  ++ double_quote.

(** [update_data]: its result and what it did, in order. *)
Definition update_data (env : update_env) : bool * list action :=
  (* Step 1 *)
  let log := cleanup_existing_repo (stale env) in
  (* Step 2 *)
  let '(ok, did) := run_command ("git clone " ++ repo_url) None (clone env) in
  let log := log ++ did in
  if negb ok then (false, log) else
  (* Step 3 *)
  let '(ok, did) :=
    run_command ("python ../" ++ collector_script) (Some repo_name)
      (collector env) in
  let log := log ++ did in
  if negb ok then (false, log) else
  (* Step 4 *)
  let '(ok, did) := run_command "git add ." (Some repo_name) (add env) in
  let log := log ++ did in
  if negb ok then (false, log) else
  (* Step 5 *)
  let log := log ++ [Run "git diff --staged --quiet" (Some repo_name)] in
  match diff env with
  | Raise _ =>
      (* except Exception *)
      (false, log ++ cleanup_existing_repo (left_over env))
  | Ok 0 => (true, log ++ cleanup_existing_repo (left_over env))
  | Ok _ =>
      (* Step 6 *)
      let '(ok, did) :=
        run_command (commit_command (now env)) (Some repo_name)
          (commit env) in
      let log := log ++ did in
      if negb ok then (false, log) else
      (* Step 7 *)
      let '(ok, did) := run_command "git push" (Some repo_name) (push env) in
      let log := log ++ did in
      if negb ok then (false, log) else
      (* Step 8 *)
      (true, log ++ cleanup_existing_repo (left_over env))
  end.

End AutoGitUpdater.

(* ================================================================== *)
(** * Vocabulary of the properties *)
(* ================================================================== *)

(** ** Both ingestion functions at once *)

(** [save_new_donations] and [update_donations] are the same text up to
    the stamp of a record and the test that guards the save:
    [if new_donations:] in the monitor,
    [if new_donations or not existing_donations:] in the collector
    ([refresh_empty]). *)
Definition ingest (stamp : nat -> list (string * json))
    (refresh_empty : bool) (donations_data : json) : M bool :=
  if negb (truthy donations_data) then ret false
  else
    f <- gets donations_file ;;
    existing_donations <- lift (load_or_empty f) ;;
    entries <- lift (py_iter donations_data) ;;
    '(new_donations, existing_donations) <-
      merge_loop stamp entries [] existing_donations ;;
    if (refresh_empty && negb (truthy existing_donations))
       || nonempty new_donations
    then
      sorted <- lift (sort_ledger existing_donations) ;;
      _ <- modify (dump_donations sorted) ;;
      _ <- lift (report new_donations) ;;
      ret true
    else ret false.

(** ** Records and their ids *)

Definition is_dict (d : json) : bool :=
  match d with
  | JObj _ => true
  | _ => false
  end.

(** [r.get('id')], [None] also where [r] is no dict. *)
Definition record_id (r : json) : json :=
  match py_get r "id" JNull with
  | Ok v => v
  | Raise _ => JNull
  end.

(** The entries the loop gets past without an exception from
    [donation.get] or from the membership test: dicts whose id, when
    truthy, is hashable. *)
Definition passes (d : json) : bool :=
  is_dict d && (negb (truthy (record_id d)) || hashable (record_id d)).

(** The sort key of a record whose [completed_at] is a string, and the
    empty string where it is missing. *)
Definition completed_at (r : json) : string :=
  match completed_at_key r with
  | Ok (JStr s) => s
  | _ => ""
  end.

(** The entries of a batch that the loop takes for new, in batch order:
    those with a truthy id that is in the set neither at the start nor by
    an earlier entry of the batch. *)
Fixpoint fresh_entries (known : pyset) (entries : list json) : list json :=
  match entries with
  | [] => []
  | d :: rest =>
      let x := record_id d in
      if truthy x && negb (set_mem x known)
      then d :: fresh_entries (x :: known) rest
      else fresh_entries known rest
  end.

(** The record built from the entry [d] after [n] others. *)
Definition record_of (stamp : nat -> list (string * json)) (n : nat)
    (d : json) : json :=
  match donation_record d (record_id d) (stamp n) with
  | Ok r => r
  | Raise _ => JNull
  end.

Fixpoint records_of (stamp : nat -> list (string * json)) (n : nat)
    (ds : list json) : list json :=
  match ds with
  | [] => []
  | d :: ds' => record_of stamp n d :: records_of stamp (S n) ds'
  end.

(** [ex'] is [ex] after [recs] were appended to it one by one (which asks
    [ex] to be a list as soon as there is one to append). *)
Definition extended (ex : json) (recs : list json) (ex' : json) : Prop :=
  (recs = [] /\ ex' = ex) \/
  (exists l, ex = JArr l /\ ex' = JArr (l ++ recs)).

(** The ways a call of [ingest] ends, with the world it leaves. *)
Inductive outcome (stamp : nat -> list (string * json))
    (refresh_empty : bool) (donations_data : json) (w : world)
  : res bool -> world -> Prop :=
| skipped :
    truthy donations_data = false ->
    outcome stamp refresh_empty donations_data w (Ok false) w
| unchanged (old : json) (entries : list json) :
    truthy donations_data = true ->
    load_or_empty (donations_file w) = Ok old ->
    py_iter donations_data = Ok entries ->
    Forall (fun d => passes d = true) entries ->
    fresh_entries (known_donation_ids w) entries = [] ->
    refresh_empty && negb (truthy old) = false ->
    outcome stamp refresh_empty donations_data w (Ok false) w
| saved (l entries sorted : list json) :
    truthy donations_data = true ->
    load_or_empty (donations_file w) = Ok (JArr l) ->
    py_iter donations_data = Ok entries ->
    Forall (fun d => passes d = true) entries ->
    fresh_entries (known_donation_ids w) entries <> [] \/
      (refresh_empty = true /\ l = []) ->
    sort_items completed_at_key true
      (l ++ records_of stamp 0
              (fresh_entries (known_donation_ids w) entries)) = Ok sorted ->
    outcome stamp refresh_empty donations_data w
      (let? _ := report (records_of stamp 0
                     (fresh_entries (known_donation_ids w) entries)) in
       Ok true)
      (dump_donations (JArr sorted)
         (set_known
            (rev (map record_id
                    (fresh_entries (known_donation_ids w) entries))
             ++ known_donation_ids w) w))
| failed (e : exn) (added : list json) :
    truthy donations_data = true ->
    Forall (fun x => hashable x = true /\ truthy x = true) added ->
    outcome stamp refresh_empty donations_data w (Raise e)
      (set_known (added ++ known_donation_ids w) w).

(** ** Ledgers without duplicates *)

(** No two records of [l], at different places, have equal ids
    (Python's [==]). *)
Definition no_duplicate_ids (l : list json) : Prop :=
  forall i j a b,
    nth_error l i = Some a -> nth_error l j = Some b -> i <> j ->
    py_eq (record_id a) (record_id b) = false.

Definition differ (a b : json) : Prop :=
  py_eq (record_id a) (record_id b) = false /\
  py_eq (record_id b) (record_id a) = false.

Fixpoint distinct_ids (l : list json) : Prop :=
  match l with
  | [] => True
  | a :: l' => Forall (differ a) l' /\ distinct_ids l'
  end.

(** No two records of [l] carry one id: their ids are neither equal nor
    the same NaN. *)
Definition unlike (a b : json) : Prop :=
  py_same (record_id a) (record_id b) = false /\
  py_same (record_id b) (record_id a) = false.

Fixpoint unlike_ids (l : list json) : Prop :=
  match l with
  | [] => True
  | a :: l' => Forall (unlike a) l' /\ unlike_ids l'
  end.

(** A dict with the key ['id']. *)
Definition has_id (r : json) : Prop :=
  is_dict r = true /\ py_contains "id" r = Ok true.

(** The ledger on disk can be loaded, holds dicts with an id and no
    duplicate, and its ids are elements of the known-id set, whose
    elements are hashable. *)
Definition consistent (w : world) : Prop :=
  Forall (fun x => hashable x = true) (known_donation_ids w) /\
  exists l, load_or_empty (donations_file w) = Ok (JArr l) /\
            distinct_ids l /\
            Forall (fun r => In (record_id r) (known_donation_ids w)) l /\
            Forall has_id l.

(** ** Runs *)

(** The batches fed one after the other to the monitor's
    [save_new_donations]; a call that raises leaves the world it reached,
    as the loop of [monitor] goes on from it. *)
Definition feed_monitor (batches : list json) (w : world) : world :=
  fold_left (fun w b => snd (DonationMonitor.save_new_donations b w))
    batches w.

(** The same for the collector's [update_donations], each call with its
    clock. *)
Definition feed_collector (calls : list ((nat -> string) * json))
    (w : world) : world :=
  fold_left
    (fun w c =>
       snd (GitHubDonationCollector.update_donations (fst c) (snd c) w))
    calls w.

(** ** One record per id *)


(** ** Batches of known ids *)

(** Every entry of the batch is a dict whose id is in the known-id set
    ([donation_id in self.known_donation_ids] is [True]). *)
Definition all_known (entries : list json) (w : world) : Prop :=
  Forall (fun d => is_dict d = true /\
                   py_in (record_id d) (known_donation_ids w) = Ok true)
    entries.

(** ** Effects *)

Definition is_save_totals (e : event) : bool :=
  match e with
  | SaveTotals _ => true
  | _ => false
  end.

(** How many times the total-raised series was saved. *)
Definition total_saves (w : world) : nat :=
  List.length (filter is_save_totals (trace w)).

Definition is_cooldown (e : event) : bool :=
  match e with
  | Sleep (NInt 5) => true
  | _ => false
  end.

(** How many times the loop paused with [time.sleep(5)]. *)
Definition cooldowns (w : world) : nat :=
  List.length (filter is_cooldown (trace w)).

(** [w'] is [w] up to the known-id set, the ledger file and the saves of
    the ledger. *)
Definition same_totals (w w' : world) : Prop :=
  last_total w' = last_total w /\
  total_raised_file w' = total_raised_file w /\
  total_saves w' = total_saves w /\
  cooldowns w' = cooldowns w.

(** ** The error counter *)

(** [consecutive_errors] after the handler of a cycle exception that found
    it at [c]. *)
Definition after_exception (c : Z) : Z :=
  if DonationMonitor.max_consecutive_errors <=? c + 1 then 0 else c + 1.

(** The pauses that handler adds. *)
Definition pause_after_exception (c : Z) : nat :=
  if DonationMonitor.max_consecutive_errors <=? c + 1 then 1%nat else 0%nat.

(** A fetch that fails upstream: no connection, a timeout, or a response
    that is not a success. *)
Definition transient (r : response) : bool :=
  match r with
  | Body _ => false
  | ConnectionError | Timeout | HTTPError _ => true
  end.

(** ** Records up to their stamp *)

(** [a] and [b] are the same value, or the records built from one entry
    under the stamps [s1] and [s2]. *)
Definition alike (s1 s2 : nat -> list (string * json)) (a b : json) : Prop :=
  a = b \/ exists d n, a = record_of s1 n d /\ b = record_of s2 n d.

Definition ledger_alike (s1 s2 : nat -> list (string * json))
    (e1 e2 : json) : Prop :=
  e1 = e2 \/
  exists l1 l2, e1 = JArr l1 /\ e2 = JArr l2 /\ Forall2 (alike s1 s2) l1 l2.

Definition file_alike (s1 s2 : nat -> list (string * json))
    (f1 f2 : file) : Prop :=
  f1 = f2 \/
  exists l1 l2,
    f1 = Stored (JArr l1) /\ f2 = Stored (JArr l2) /\
    Forall2 (alike s1 s2) l1 l2.

(** Two results of the same kind, related by [R] when both are values. *)
Definition res_rel {A} (R : A -> A -> Prop) (r1 r2 : res A) : Prop :=
  match r1, r2 with
  | Ok a, Ok b => R a b
  | Raise e1, Raise e2 => e1 = e2
  | _, _ => False
  end.

(** The pairs (key, item) of the sort, with equal keys and like items. *)
Definition paired (s1 s2 : nat -> list (string * json))
    (p q : json * json) : Prop :=
  fst p = fst q /\ alike s1 s2 (snd p) (snd q).

(** ** The ledger order *)

(** The text of a sort key that is a string, the empty string for the
    others. *)
Definition key_text (k : json) : string :=
  match k with
  | JStr s => s
  | _ => ""
  end.

(** Newest first: no record has a [completed_at] below that of the next
    one, a missing [completed_at] counting as the empty string. *)
Definition newest_first (l : list json) : Prop :=
  Sorted (fun a b => String.ltb (completed_at a) (completed_at b) = false) l.

(** The records without a timestamp come last: after a record that sorts
    as the empty string come only records that sort as the empty
    string. *)
Definition undated_last (l : list json) : Prop :=
  forall pre r post,
    l = pre ++ r :: post -> completed_at r = "" ->
    Forall (fun r' => completed_at r' = "") post.

(** The sort key of [r] is a string (also when [completed_at] is absent
    from the dict) or [None]. *)
Definition text_or_none (r : json) : Prop :=
  exists k, completed_at_key r = Ok k /\ (k = JNull \/ exists s, k = JStr s).

(** The sort key of [r] is a string. *)
Definition dated (r : json) : Prop :=
  exists s, completed_at_key r = Ok (JStr s).

(** The order of the pairs (key, item) during the sort. *)
Definition ascending (p q : json * json) : Prop :=
  String.ltb (key_text (fst q)) (key_text (fst p)) = false.

Definition text_key (p : json * json) : Prop := exists s, fst p = JStr s.

Definition text_or_none_key (p : json * json) : Prop :=
  fst p = JNull \/ exists s, fst p = JStr s.


(** ** Scheduled runs of the collector *)

(** The ledger file can be loaded and holds dicts with hashable ids, no two
    of them equal. *)
Definition stored_ok (f : file) : Prop :=
  exists l, load_or_empty f = Ok (JArr l) /\
            distinct_ids l /\
            Forall has_id l /\
            Forall (fun r => hashable (record_id r) = true) l.

Section Scheduled.

Variable float_of_str : string -> res spec_float.

(** One run of the script on the two files of the working directory: a
    new process builds the object ([__init__]) and calls [run_update]
    once; when [__init__] raises, the process ends there.  What the run
    leaves are the two files. *)
Definition scheduled_run (env : GitHubDonationCollector.update_env)
    (files : file * file) : file * file :=
  match init (fst files) (snd files) with
  | (Ok _, w) =>
      let w' := snd (GitHubDonationCollector.run_update float_of_str env w) in
      (donations_file w', total_raised_file w')
  | (Raise _, _) => files
  end.

Definition scheduled_runs (envs : list GitHubDonationCollector.update_env)
    (files : file * file) : file * file :=
  fold_left (fun files env => scheduled_run env files) envs files.

End Scheduled.

(** ** What a run keeps *)

(** When [f] loads to a list of records, [f'] loads to a permutation of
    that list and further records. *)
Definition keeps_records (f f' : file) : Prop :=
  forall l, load_or_empty f = Ok (JArr l) ->
            exists l' recs,
              load_or_empty f' = Ok (JArr l') /\ Permutation l' (l ++ recs).

Definition known_kept (w w' : world) : Prop :=
  incl (known_donation_ids w) (known_donation_ids w').

Definition ledger_kept (w w' : world) : Prop :=
  keeps_records (donations_file w) (donations_file w').

(** ** Records with one [completed_at] *)

Definition at_time (k : string) (r : json) : bool :=
  (completed_at r =? k)%string.

Definition key_at (k : string) (p : json * json) : bool :=
  (key_text (fst p) =? k)%string.

(** The call that took the world from [w] to [w'] saved a ledger in which
    the records with one [completed_at] stand as in the old ledger
    followed by the new records in the order of the batch. *)
Definition ties_in_order (stamp : nat -> list (string * json))
    (donations_data : json) (w w' : world) : Prop :=
  exists l entries ledger,
    load_or_empty (donations_file w) = Ok (JArr l) /\
    py_iter donations_data = Ok entries /\
    donations_file w' = Stored (JArr ledger) /\
    (Forall text_or_none ledger ->
     forall k,
       filter (at_time k) ledger =
       filter (at_time k)
         (l ++ records_of stamp 0
                 (fresh_entries (known_donation_ids w) entries))).

(** ** Calls that raise *)


(** ** The series of samples *)

(** The sample of the monitor and that of the collector. *)
Definition monitor_sample (time_ms : Z) (amount : spec_float) : json :=
  JObj [("amount", JFloat amount); ("timestamp", JInt time_ms)].

Definition collector_sample (time_ms : Z) (now : string)
    (amount : spec_float) : json :=
  JObj [("amount", JFloat amount); ("timestamp", JInt time_ms);
        ("last_updated", JStr (now ++ "Z"))].

Definition amount_of (sample : json) : option spec_float :=
  match py_get sample "amount" JNull with
  | Ok (JFloat a) => Some a
  | _ => None
  end.

Definition timestamp_of (sample : json) : option Z :=
  match py_get sample "timestamp" JNull with
  | Ok (JInt z) => Some z
  | _ => None
  end.

(** [float(total_data.get("total_raised", 0))] *)
Definition total_amount (float_of_str : string -> res spec_float)
    (total_data : json) : res spec_float :=
  let? v := py_get total_data "total_raised" (JInt 0) in
  py_float float_of_str v.

(** [last is None or current != last] *)
Definition gate_open (last : option spec_float) (current : spec_float)
  : Prop :=
  match last with
  | None => True
  | Some t => float_ne current t = true
  end.

(** [w'] is [w] as far as the series goes. *)
Definition same_series (w w' : world) : Prop :=
  last_total w' = last_total w /\
  total_raised_file w' = total_raised_file w /\
  total_saves w' = total_saves w.

(** Each sample carries an amount that differs from the one before it,
    the first from [last]. *)
Fixpoint changing (last : option spec_float) (samples : list json) : Prop :=
  match samples with
  | [] => True
  | s :: rest =>
      exists a, amount_of s = Some a /\ gate_open last a /\
                changing (Some a) rest
  end.

(** The amount of the last sample, [last] when there is none. *)
Definition last_amount (last : option spec_float) (samples : list json)
  : option spec_float :=
  fold_left (fun last s => match amount_of s with
                           | Some a => Some a
                           | None => last
                           end) samples last.

(** Every sample has a timestamp, and none is below the one before it. *)
Definition chronological (series : list json) : Prop :=
  exists ts, map timestamp_of series = map Some ts /\ Sorted Z.le ts.

(** The series on disk is chronological, and none of its timestamps is
    above a clock reading still to come. *)
Definition bounded_series (future : list Z) (f : file) : Prop :=
  exists series ts,
    load_or_empty f = Ok (JArr series) /\
    map timestamp_of series = map Some ts /\
    Sorted Z.le ts /\
    Forall (fun x => Forall (Z.le x) future) ts.

Definition is_save_donations (e : event) : bool :=
  match e with
  | SaveDonations _ => true
  | _ => false
  end.

(** How many times the ledger was saved. *)
Definition ledger_saves (w : world) : nat :=
  List.length (filter is_save_donations (trace w)).

(** ** The update pipeline *)

(** The command ended with the return code 0. *)
Definition succeeded (c : AutoGitUpdater.completion) : bool :=
  match c with
  | AutoGitUpdater.Returned 0 => true
  | _ => false
  end.

(** The calls of [subprocess.run] that [update_data] can make, in the
    order of its steps. *)
Definition pipeline (now : string) : list AutoGitUpdater.action :=
  [AutoGitUpdater.Run ("git clone " ++ AutoGitUpdater.repo_url) None;
   AutoGitUpdater.Run ("python ../" ++ AutoGitUpdater.collector_script)
     (Some AutoGitUpdater.repo_name);
   AutoGitUpdater.Run "git add ." (Some AutoGitUpdater.repo_name);
   AutoGitUpdater.Run "git diff --staged --quiet"
     (Some AutoGitUpdater.repo_name);
   AutoGitUpdater.Run (AutoGitUpdater.commit_command now)
     (Some AutoGitUpdater.repo_name);
   AutoGitUpdater.Run "git push" (Some AutoGitUpdater.repo_name)].

Definition is_run (a : AutoGitUpdater.action) : bool :=
  match a with
  | AutoGitUpdater.Run _ _ => true
  | AutoGitUpdater.Rmtree _ => false
  end.

(** The calls of [subprocess.run] among what was done. *)
Definition runs (log : list AutoGitUpdater.action)
  : list AutoGitUpdater.action :=
  filter is_run log.

(** How many times [shutil.rmtree] was called. *)
Definition rmtrees (log : list AutoGitUpdater.action) : nat :=
  List.length (filter (fun a => negb (is_run a)) log).

(** Something was staged: [git diff --staged --quiet] returned a code
    other than 0. *)
Definition staged (env : AutoGitUpdater.update_env) : Prop :=
  exists z, AutoGitUpdater.diff env = Ok z /\ z <> 0.

Definition count (b : bool) : nat := if b then 1%nat else 0%nat.

(** ** The known-id set as an index of the ledger *)

(** Every id of the known-id set is the id of a record of the ledger on
    disk. *)
Definition indexed (w : world) : Prop :=
  forall x, In x (known_donation_ids w) ->
            exists l r,
              load_or_empty (donations_file w) = Ok (JArr l) /\
              In r l /\ record_id r = x.

(** The series on disk holds at most 100 samples. *)
Definition capped (f : file) : Prop :=
  exists series,
    load_or_empty f = Ok (JArr series) /\ (List.length series <= 100)%nat.

(** ** Payloads without a timestamp *)

(** The [completed_at] of the payload is a string, [None] or missing. *)
Definition timed_or_undated (d : json) : Prop :=
  exists k, py_get d "completed_at" JNull = Ok k /\
            (k = JNull \/ exists s, k = JStr s).

(** The [completed_at] of the payload is [None] or missing. *)
Definition undated_payload (d : json) : Prop :=
  py_get d "completed_at" JNull = Ok JNull.

(* ================================================================== *)
(** * Sample data *)
(* ================================================================== *)

(** A payload of [GET /donations]. *)
Definition donation (id completed_at : string) (amount : Z) : json :=
  JObj [("id", JStr id); ("amount", JInt amount);
        ("completed_at", JStr completed_at)].

(** A payload without [completed_at]. *)
Definition undated (id : string) (amount : Z) : json :=
  JObj [("id", JStr id); ("amount", JInt amount)].

(** A payload of [GET /total_raised]. *)
Definition total_of (amount : Z) : json :=
  JObj [("total_raised", JInt amount)].

(** A clock that stands still. *)
Definition noon (n : nat) : string := "2024-01-01T12:00:00".

(** A clock a second later. *)
Definition past_noon (n : nat) : string := "2024-01-01T12:00:01".

(** The float of a small integer. *)
Definition float_of_Z (z : Z) : spec_float :=
  binary_normalize prec emax z 0 false.

(** The ledger file after the donation ["a"] was recorded by the
    monitor. *)
Definition ledger_a : file :=
  Stored (JArr [record_of DonationMonitor.stamp 0
                  (donation "a" "2024-01-01T00:00:00Z" 5)]).

(** The monitor's [save_total_raised_update] called [n] times in a row,
    a millisecond apart. *)
Fixpoint snapshots (float_of_str : string -> res spec_float) (n : nat)
    (w : world) : world :=
  match n with
  | O => w
  | S n' =>
      snd (DonationMonitor.save_total_raised_update float_of_str
             (Z.of_nat n) (total_of 10) (snapshots float_of_str n' w))
  end.

Definition series_length (f : file) : nat :=
  match f with
  | Stored (JArr l) => List.length l
  | _ => 0%nat
  end.

(** Three payloads, the third repeating the id of the first. *)
Definition batch_aba : list json :=
  [donation "a" "2024-01-01T00:00:00Z" 5;
   donation "b" "2024-01-02T00:00:00Z" 7;
   donation "a" "2024-01-03T00:00:00Z" 9].

(** A payload whose id is the empty string, and one whose id is 0. *)
Definition nameless : json :=
  JObj [("id", JStr ""); ("amount", JInt 3)].

Definition numbered_zero : json :=
  JObj [("id", JInt 0); ("amount", JInt 4)].

(** The world of a monitor that recorded the donation ["a"] and took a
    snapshot since. *)
Definition busy_world : world :=
  mkWorld [JStr "a"] (Some (float_of_Z 10)) ledger_a
    (Stored (JArr [])) [SaveTotals (JArr [])].

(** A turn of [monitor] whose two fetches fail upstream. *)
Definition failing_turn : DonationMonitor.cycle_env :=
  DonationMonitor.mkEnv Timeout (HTTPError 503) 0 (float_of_Z 0).

(** A turn whose donations payload is a number: iterating it raises. *)
Definition broken_turn : DonationMonitor.cycle_env :=
  DonationMonitor.mkEnv (Body (JInt 5)) (Body (total_of 10)) 0 (float_of_Z 0).

(** A turn in which upstream has no donation to list. *)
Definition quiet_turn : DonationMonitor.cycle_env :=
  DonationMonitor.mkEnv (Body (JArr [])) (Body (total_of 10)) 0 (float_of_Z 0).

(** Two payloads completed at the same time. *)
Definition tied_batch : list json :=
  [donation "x" "2024-02-01T00:00:00Z" 1;
   donation "y" "2024-02-01T00:00:00Z" 2].

(** An error body where the list of donations was expected. *)
Definition error_body : json :=
  JObj [("error", JStr "rate limited")].


(** Two turns of [monitor] a second apart, each with a new donation, the
    total going from 10 to 12. *)
Definition rising_turns : list DonationMonitor.cycle_env :=
  [DonationMonitor.mkEnv (Body (JArr [donation "a" "2024-01-01" 5]))
     (Body (total_of 10)) 1700000000000 (float_of_Z 0);
   DonationMonitor.mkEnv (Body (JArr [donation "b" "2024-01-02" 2]))
     (Body (total_of 12)) 1700000001000 (float_of_Z 0)].

(** Two runs of the collector an hour apart. *)
Definition hourly_runs : list GitHubDonationCollector.update_env :=
  [GitHubDonationCollector.mkEnv (Body (JArr batch_aba))
     (Body (total_of 10)) noon 1700000000000 "2024-01-01T12:00:00";
   GitHubDonationCollector.mkEnv (Body (JArr batch_aba))
     (Body (total_of 10)) noon 1700003600000 "2024-01-01T13:00:00"].

(** A run of [update_data] in which every command returns 0 and
    something was staged, and one in which the collector fails. *)
Definition smooth_update : AutoGitUpdater.update_env :=
  AutoGitUpdater.mkEnv false (AutoGitUpdater.Returned 0)
    (AutoGitUpdater.Returned 0) (AutoGitUpdater.Returned 0) (Ok 1)
    "2024-01-01 12:00:00" (AutoGitUpdater.Returned 0)
    (AutoGitUpdater.Returned 0) true.

Definition failing_update : AutoGitUpdater.update_env :=
  AutoGitUpdater.mkEnv true (AutoGitUpdater.Returned 0)
    (AutoGitUpdater.Returned 1) (AutoGitUpdater.Returned 0) (Ok 1)
    "2024-01-01 12:00:00" (AutoGitUpdater.Returned 0)
    (AutoGitUpdater.Returned 0) true.

(* ================================================================== *)
(** * Properties *)
(* ================================================================== *)

(** ** Values *)

Lemma SFeqb_sym (f g : spec_float) : SFeqb f g = SFeqb g f.
Proof.
  unfold SFeqb.
  destruct f as [s1| s1| |s1 m1 e1], g as [s2|s2| |s2 m2 e2]; simpl;
    try reflexivity; try (destruct s1; destruct s2; reflexivity);
    try (destruct s1; reflexivity); try (destruct s2; reflexivity).
  destruct s1, s2; simpl; try reflexivity;
    rewrite (Z.compare_antisym e1 e2);
    destruct (e1 ?= e2) eqn:E; simpl; try reflexivity;
    pose proof (Pos.compare_cont_antisym m1 m2 Eq) as A; simpl in A;
    rewrite <- A; destruct (Pos.compare_cont Eq m1 m2); reflexivity.
Qed.

Lemma SFeqb_refl_l (f g : spec_float) : SFeqb f g = true -> SFeqb f f = true.
Proof.
  unfold SFeqb.
  destruct f as [s1| s1| |s1 m1 e1]; simpl; intros H; try reflexivity.
  - destruct s1; reflexivity.
  - destruct g; discriminate.
  - destruct s1; rewrite Z.compare_refl;
      change (Pos.compare_cont Eq m1 m1) with (Pos.compare m1 m1);
      rewrite Pos.compare_refl; reflexivity.
Qed.

Lemma py_eq_sym (a b : json) :
  hashable a = true -> hashable b = true -> py_eq a b = py_eq b a.
Proof.
  destruct a, b; simpl; intros; try discriminate; try reflexivity;
    auto using Z.eqb_sym, SFeqb_sym, String.eqb_sym.
  all: try (destruct b, b0; reflexivity).
  all: try (destruct b; apply Z.eqb_sym).
Qed.

Lemma is_nan_eq (a : json) : is_nan a = true -> a = JFloat S754_nan.
Proof.
  destruct a as [ | | |f| | | ]; try discriminate.
  destruct f; try discriminate. reflexivity.
Qed.

Lemma py_eq_same (e x : json) : py_eq e x = true -> py_same e x = true.
Proof. unfold py_same. intros E. rewrite E. apply orb_true_r. Qed.

Lemma py_same_unlike (e x : json) : py_same e x = false -> py_eq e x = false.
Proof. unfold py_same. intros E. apply orb_false_iff in E. tauto. Qed.


(** A hashable value is found where it was put. *)
Lemma py_same_refl (x : json) : hashable x = true -> py_same x x = true.
Proof.
  unfold py_same.
  destruct x as [ |b|z|f|s|l|kv]; intros H; try discriminate.
  - reflexivity.
  - cbn. destruct b; reflexivity.
  - cbn. apply Z.eqb_refl.
  - destruct f as [s0|s0| |s0 m e]; try reflexivity.
    + destruct s0; reflexivity.
    + cbn. unfold SFeqb. simpl.
      destruct s0; rewrite Z.compare_refl;
        change (Pos.compare_cont Eq m m) with (Pos.compare m m);
        rewrite Pos.compare_refl; reflexivity.
  - cbn. apply String.eqb_refl.
Qed.

(** ** The ingestion loop *)

Lemma set_known_same (w : world) : set_known (known_donation_ids w) w = w.
Proof. destruct w; reflexivity. Qed.

Lemma extended_step l r recs ex' :
  extended (JArr (l ++ [r])) recs ex' -> extended (JArr l) (r :: recs) ex'.
Proof.
  intros [[E1 E2]|(l0 & E1 & E2)]; right; exists l; split; auto; subst.
  - reflexivity.
  - inversion E1; subst. rewrite <- app_assoc. reflexivity.
Qed.

(** One turn of the loop. *)
Lemma merge_loop_cons stamp d rest new ex w :
  merge_loop stamp (d :: rest) new ex w =
  if is_dict d then
    if truthy (record_id d) then
      if hashable (record_id d) then
        if set_mem (record_id d) (known_donation_ids w)
        then merge_loop stamp rest new ex w
        else
          match ex with
          | JArr l =>
              merge_loop stamp rest
                (new ++ [record_of stamp (List.length new) d])
                (JArr (l ++ [record_of stamp (List.length new) d]))
                (set_known (record_id d :: known_donation_ids w) w)
          | _ => (Raise AttributeError, w)
          end
      else (Raise TypeError, w)
    else merge_loop stamp rest new ex w
  else (Raise AttributeError, w).
Proof.
  destruct d as [ | | | | | |kv]; try reflexivity.
  cbn [is_dict]. unfold record_of.
  change (record_id (JObj kv)) with
    (match lookup "id" kv with Some v => v | None => JNull end).
  cbn [merge_loop]. unfold bind, lift, gets, ret, modify, py_in, py_add.
  cbn [py_get].
  destruct (truthy _) eqn:Tx; [|reflexivity].
  destruct (hashable _) eqn:Hx; [|reflexivity].
  cbn [res_bind].
  destruct (set_mem _ _) eqn:Mx; cbn [negb]; [reflexivity|].
  destruct ex; reflexivity.
Qed.

(** The loop, when it ends without an exception. *)
Lemma merge_loop_ok stamp entries :
  forall new ex w new' ex' w',
    merge_loop stamp entries new ex w = (Ok (new', ex'), w') ->
    new' = new ++ records_of stamp (List.length new)
                    (fresh_entries (known_donation_ids w) entries) /\
    extended ex (records_of stamp (List.length new)
                   (fresh_entries (known_donation_ids w) entries)) ex' /\
    w' = set_known
           (rev (map record_id
                   (fresh_entries (known_donation_ids w) entries))
            ++ known_donation_ids w) w /\
    Forall (fun d => passes d = true) entries.
Proof.
  induction entries as [|d rest IH]; intros new ex w new' ex' w' H.
  - inversion H; subst. simpl. rewrite app_nil_r, set_known_same.
    split; [reflexivity|]. split; [left; auto|]. split; [reflexivity|].
    constructor.
  - rewrite merge_loop_cons in H. cbn [fresh_entries]. unfold passes at 1.
    destruct (is_dict d) eqn:Dd; [|discriminate H].
    destruct (truthy (record_id d)) eqn:Tx; cbn [andb].
    + destruct (hashable (record_id d)) eqn:Hx; [|discriminate H].
      destruct (set_mem (record_id d) (known_donation_ids w)) eqn:Mx;
        cbn [negb].
      * apply IH in H. destruct H as (A & B & C & D).
        repeat split; auto. constructor; auto.
        unfold passes. rewrite Dd, Tx, Hx. reflexivity.
      * destruct ex as [ | | | | |l| ]; try discriminate H.
        apply IH in H. cbn [known_donation_ids set_known] in H.
        destruct H as (A & B & C & D).
        rewrite length_app in A, B. cbn [List.length] in A, B.
        replace (List.length new + 1)%nat with (S (List.length new))
          in A, B by lia.
        cbn [records_of map rev].
        repeat split.
        -- rewrite A, <- app_assoc. reflexivity.
        -- apply extended_step, B.
        -- rewrite C. unfold set_known; cbn. rewrite <- app_assoc.
           reflexivity.
        -- constructor; auto.
           unfold passes. rewrite Dd, Tx, Hx. reflexivity.
    + apply IH in H. destruct H as (A & B & C & D).
      repeat split; auto. constructor; auto.
      unfold passes. rewrite Dd, Tx. reflexivity.
Qed.

(** The loop, however it ends: it touches the known-id set only, and only
    adds hashable ids to it. *)
Lemma merge_loop_any stamp entries :
  forall new ex w r w',
    merge_loop stamp entries new ex w = (r, w') ->
    exists added,
      w' = set_known (added ++ known_donation_ids w) w /\
      Forall (fun x => hashable x = true /\ truthy x = true) added.
Proof.
  induction entries as [|d rest IH]; intros new ex w r w' H.
  - inversion H; subst. exists []. simpl. rewrite set_known_same. auto.
  - rewrite merge_loop_cons in H.
    assert (Stay : forall e, (Raise e, w) = (r, w') ->
              exists added,
                w' = set_known (added ++ known_donation_ids w) w /\
                Forall (fun x => hashable x = true /\ truthy x = true)
                  added).
    { intros e E. inversion E; subst. exists []. simpl.
      rewrite set_known_same. auto. }
    destruct (is_dict d); [|eauto].
    destruct (truthy (record_id d)) eqn:Tx; [|eauto].
    destruct (hashable (record_id d)) eqn:Hx; [|eauto].
    destruct (set_mem (record_id d) (known_donation_ids w)); [eauto|].
    destruct ex; eauto.
    apply IH in H. destruct H as (added & A & B).
    exists (added ++ [record_id d]). split.
    + rewrite A. unfold set_known; cbn. rewrite <- app_assoc. reflexivity.
    + apply Forall_app. split; auto.
Qed.

(** ** The sort *)

Lemma mapM_length {A B} (f : A -> res B) (l : list A) (ys : list B) :
  mapM f l = Ok ys -> List.length ys = List.length l.
Proof.
  revert ys. induction l as [|x l IH]; simpl; intros ys H.
  - inversion H. reflexivity.
  - destruct (f x); [|discriminate]. simpl in H.
    destruct (mapM f l); [|discriminate]. simpl in H.
    inversion H; subst. simpl. f_equal. auto.
Qed.

Lemma insert_perm x l r : insert x l = Ok r -> Permutation r (x :: l).
Proof.
  revert r. induction l as [|y l IH]; simpl; intros r H.
  - inversion H. apply Permutation_refl.
  - destruct (py_lt (fst y) (fst x)) as [[|]|]; simpl in H;
      try discriminate.
    + destruct (insert x l) as [r'|]; simpl in H; [|discriminate].
      inversion H; subst.
      apply perm_trans with (y :: x :: l).
      * apply perm_skip. auto.
      * apply perm_swap.
    + inversion H. apply Permutation_refl.
Qed.

Lemma sort_asc_perm l s : sort_asc l = Ok s -> Permutation s l.
Proof.
  revert s. induction l as [|x l IH]; simpl; intros s H.
  - inversion H. apply perm_nil.
  - destruct (sort_asc l) as [s'|]; simpl in H; [|discriminate].
    apply insert_perm in H.
    apply perm_trans with (x :: s'); auto.
Qed.

Lemma map_snd_combine {A B} (ks : list A) (l : list B) :
  List.length ks = List.length l -> map snd (combine ks l) = l.
Proof.
  revert l. induction ks as [|k ks IH]; destruct l; simpl; intros H;
    try discriminate; auto.
  f_equal. apply IH. lia.
Qed.

(** The sort permutes. *)
Lemma sort_items_perm key reverse l s :
  sort_items key reverse l = Ok s -> Permutation s l.
Proof.
  unfold sort_items. intros H.
  destruct (mapM key l) as [ks|] eqn:K; simpl in H; [|discriminate].
  destruct (sort_asc _) as [s'|] eqn:S'; simpl in H; [|discriminate].
  inversion H; subst. apply sort_asc_perm in S'.
  apply mapM_length in K.
  apply perm_trans with (map snd (combine ks l));
    [|rewrite (map_snd_combine ks l K); apply Permutation_refl].
  apply Permutation_map.
  destruct reverse.
  - apply perm_trans with s'; [apply Permutation_sym, Permutation_rev|].
    apply perm_trans with (rev (combine ks l)); auto.
    apply Permutation_sym, Permutation_rev.
  - auto.
Qed.

(** The fresh entries of a batch the loop gets past. *)
Lemma fresh_entries_facts entries :
  forall known,
    Forall (fun d => passes d = true) entries ->
    Forall (fun d => is_dict d = true /\
                     hashable (record_id d) = true /\
                     truthy (record_id d) = true)
      (fresh_entries known entries).
Proof.
  induction entries as [|d rest IH]; intros known P; simpl; auto.
  inversion P as [|? ? Pd P']; subst.
  destruct (truthy (record_id d)) eqn:T; cbn [andb]; auto.
  destruct (negb (set_mem (record_id d) known)); auto.
  constructor; auto.
  unfold passes in Pd. rewrite T in Pd. cbn [negb orb] in Pd.
  apply andb_true_iff in Pd. tauto.
Qed.

Lemma fresh_ids_facts entries known :
  Forall (fun d => passes d = true) entries ->
  Forall (fun x => hashable x = true /\ truthy x = true)
    (rev (map record_id (fresh_entries known entries))).
Proof.
  intros P. apply Forall_rev, Forall_map.
  apply Forall_impl with (2 := fresh_entries_facts entries known P).
  tauto.
Qed.

(** ** The ways [ingest] ends *)

Lemma records_of_nil stamp n ds : records_of stamp n ds = [] -> ds = [].
Proof. destruct ds; simpl; [auto|discriminate]. Qed.

Lemma extended_inv_nil ex ex' : extended ex [] ex' -> ex' = ex.
Proof.
  intros [[_ E]|(l & E1 & E2)]; auto.
  subst. rewrite app_nil_r. reflexivity.
Qed.

Lemma extended_inv_arr ex recs l' :
  extended ex recs (JArr l') -> exists l, ex = JArr l /\ l' = l ++ recs.
Proof.
  intros [[E1 E2]|(l & E1 & E2)].
  - subst. exists l'. rewrite app_nil_r. auto.
  - inversion E2. eauto.
Qed.

Lemma failed_here stamp refresh_empty donations_data w e :
  truthy donations_data = true ->
  outcome stamp refresh_empty donations_data w (Raise e) w.
Proof.
  intros T.
  rewrite <- (set_known_same w) at 2.
  apply (failed stamp refresh_empty donations_data w e []); auto.
Qed.

Lemma ingest_cases stamp refresh_empty donations_data w r w' :
  ingest stamp refresh_empty donations_data w = (r, w') ->
  outcome stamp refresh_empty donations_data w r w'.
Proof.
  unfold ingest.
  destruct (truthy donations_data) eqn:T; cbn [negb].
  2:{ intros H. inversion H; subst. apply skipped; auto. }
  unfold bind at 1. unfold gets at 1. unfold bind at 1. unfold lift at 1.
  destruct (load_or_empty (donations_file w)) as [old|e] eqn:L.
  2:{ intros H. inversion H; subst. apply failed_here; auto. }
  unfold bind at 1. unfold lift at 1.
  destruct (py_iter donations_data) as [entries|e] eqn:I.
  2:{ intros H. inversion H; subst. apply failed_here; auto. }
  unfold bind at 1.
  destruct (merge_loop stamp entries [] old w) as [[[new' ex']|e] w1] eqn:ML.
  2:{ intros H. inversion H; subst.
      apply merge_loop_any in ML. destruct ML as (added & A & B).
      rewrite A. apply failed; auto. }
  apply merge_loop_ok in ML. cbn [List.length app] in ML.
  destruct ML as (N & X & W & D).
  pose proof (fresh_ids_facts entries (known_donation_ids w) D) as Hadd.
  set (fr := fresh_entries (known_donation_ids w) entries) in *.
  set (recs := records_of stamp 0 fr) in *.
  destruct ((refresh_empty && negb (truthy ex')) || nonempty new') eqn:C.
  - unfold bind at 1. unfold lift at 1. unfold sort_ledger.
    destruct ex' as [ | | | | |l'| ];
      try (intros H; inversion H; subst; apply failed; auto).
    apply extended_inv_arr in X. destruct X as (l & E1 & E2). subst old l'.
    cbn [py_sort].
    destruct (sort_items completed_at_key true (l ++ recs)) as [sorted|e]
      eqn:S; cbn [res_bind].
    2:{ intros H; inversion H; subst; apply failed; auto. }
    unfold bind at 1. unfold modify at 1. unfold bind at 1. unfold lift at 1.
    intros H.
    assert (R : r = (let? _ := report recs in Ok true) /\
                w' = dump_donations (JArr sorted) w1).
    { subst new'. destruct (report recs) as [[]|e]; inversion H; auto. }
    destruct R as [R1 R2]. subst r w' w1.
    apply (saved stamp refresh_empty donations_data w l entries sorted);
      auto.
    apply orb_true_iff in C. destruct C as [C|C].
    + apply andb_true_iff in C. destruct C as [C1 C2]. right.
      split; auto. apply negb_true_iff in C2. cbn in C2.
      destruct (l ++ recs) eqn:LR; [|discriminate].
      apply app_eq_nil in LR. tauto.
    + left. intros F. change (fr = []) in F. subst new'.
      unfold recs in C. rewrite F in C. discriminate.
  - intros H. inversion H; subst r w'. clear H.
    apply orb_false_iff in C. destruct C as [C1 C2].
    assert (F : fr = []).
    { subst new'. destruct recs eqn:R; [|discriminate].
      apply records_of_nil in R. exact R. }
    assert (R : recs = []) by (unfold recs; rewrite F; reflexivity).
    rewrite R in X. apply extended_inv_nil in X. subst ex'.
    rewrite W, F. cbn [map rev app]. rewrite set_known_same.
    apply (unchanged stamp refresh_empty donations_data w old entries);
      auto.
Qed.

Lemma save_new_donations_ingest donations_data w :
  DonationMonitor.save_new_donations donations_data w =
  ingest DonationMonitor.stamp false donations_data w.
Proof. reflexivity. Qed.

Lemma update_donations_ingest utcnow donations_data w :
  GitHubDonationCollector.update_donations utcnow donations_data w =
  ingest (GitHubDonationCollector.stamp utcnow) true donations_data w.
Proof.
  unfold GitHubDonationCollector.update_donations, ingest.
  destruct (negb (truthy donations_data)); [reflexivity|].
  unfold bind, gets, lift.
  destruct (load_or_empty (donations_file w)); [|reflexivity].
  destruct (py_iter donations_data); [|reflexivity].
  destruct (merge_loop _ _ _ _ _) as [[[new ex]|e] w1]; [|reflexivity].
  cbn [andb]. rewrite orb_comm. reflexivity.
Qed.

(** ** No duplicate ids *)

Lemma differ_sym a b : differ a b -> differ b a.
Proof. unfold differ. tauto. Qed.

Lemma distinct_ids_perm l l' :
  Permutation l l' -> distinct_ids l -> distinct_ids l'.
Proof.
  induction 1 as [|x l l' P IH|x y l|l l' l'' P1 IH1 P2 IH2]; simpl; auto.
  - intros [F D]. split; auto.
    apply (Permutation_Forall P). exact F.
  - intros [Fy [Fx D]]. inversion Fy as [|? ? Dyx Fy']; subst.
    repeat split; auto. constructor; auto. apply differ_sym. exact Dyx.
Qed.

Lemma distinct_ids_snoc l r :
  distinct_ids l -> Forall (fun a => differ a r) l -> distinct_ids (l ++ [r]).
Proof.
  induction l as [|a l IH]; simpl; intros D F.
  - auto.
  - destruct D as [Fa D]. inversion F as [|? ? Dar F']; subst.
    split; auto. apply Forall_app. split; auto.
Qed.

Lemma distinct_no_duplicate l : distinct_ids l -> no_duplicate_ids l.
Proof.
  unfold no_duplicate_ids.
  induction l as [|x l IH]; intros D i j a b Hi Hj Hij.
  - destruct i; discriminate.
  - destruct D as [F D]. rewrite Forall_forall in F.
    destruct i as [|i], j as [|j]; simpl in Hi, Hj.
    + congruence.
    + inversion Hi; subst. apply nth_error_In in Hj. apply (F b Hj).
    + inversion Hj; subst. apply nth_error_In in Hi. apply (F a Hi).
    + apply (IH D i j); auto.
Qed.

Lemma set_mem_unlike x s e :
  set_mem x s = false -> In e s -> py_same e x = false.
Proof.
  unfold set_mem. intros H I.
  destruct (py_same e x) eqn:E; auto.
  assert (existsb (fun e0 => py_same e0 x) s = true)
    by (apply existsb_exists; eauto).
  congruence.
Qed.

Lemma set_mem_false x s e :
  set_mem x s = false -> In e s -> py_eq e x = false.
Proof.
  intros H I. apply py_same_unlike, (set_mem_unlike x s e H I).
Qed.

Lemma record_id_record_of stamp n d :
  is_dict d = true -> record_id (record_of stamp n d) = record_id d.
Proof. destruct d; try discriminate. reflexivity. Qed.

(** Appending the records of the fresh entries keeps a ledger without
    duplicates, and its ids among the known ones. *)
Lemma fresh_keeps_distinct stamp entries :
  forall known l n,
    Forall (fun x => hashable x = true) known ->
    Forall (fun d => passes d = true) entries ->
    distinct_ids l ->
    Forall (fun r => In (record_id r) known) l ->
    distinct_ids (l ++ records_of stamp n (fresh_entries known entries)) /\
    Forall (fun r => In (record_id r)
                       (rev (map record_id (fresh_entries known entries))
                        ++ known))
      (l ++ records_of stamp n (fresh_entries known entries)) /\
    Forall has_id (records_of stamp n (fresh_entries known entries)).
Proof.
  induction entries as [|d rest IH]; intros known l n Hk Hd D I.
  - simpl. rewrite app_nil_r. auto using Forall_nil.
  - inversion Hd as [|? ? Pd Hd']; subst. cbn [fresh_entries] in *.
    destruct (truthy (record_id d) && negb (set_mem (record_id d) known))
      eqn:C.
    + apply andb_true_iff in C. destruct C as [T Mn].
      apply negb_true_iff in Mn.
      unfold passes in Pd. rewrite T in Pd. cbn [negb orb] in Pd.
      apply andb_true_iff in Pd. destruct Pd as [Dd Hx].
      cbn [records_of map rev].
      destruct (IH (record_id d :: known) (l ++ [record_of stamp n d]) (S n))
        as (A & B & C); auto.
      * apply distinct_ids_snoc; auto.
        rewrite Forall_forall in I |- *. intros a Ia.
        assert (E : py_eq (record_id a) (record_id d) = false)
          by (apply (set_mem_false _ known); auto).
        unfold differ. rewrite record_id_record_of by auto.
        split; auto. rewrite py_eq_sym; auto.
        rewrite Forall_forall in Hk. auto.
      * apply Forall_app. split.
        -- apply Forall_impl with (2 := I). intros a Ia. right. exact Ia.
        -- constructor; [|constructor].
           rewrite record_id_record_of by auto. left. reflexivity.
      * rewrite <- app_assoc in A, B. cbn [app] in A, B. split; auto.
        split.
        -- apply Forall_impl with (2 := B). intros a Ia.
           rewrite <- app_assoc. exact Ia.
        -- constructor; auto. destruct d; try discriminate. split; reflexivity.
    + apply IH; auto.
Qed.

(** Every call of [ingest], however it ends, keeps the world consistent. *)
Lemma outcome_consistent stamp refresh_empty donations_data w r w' :
  outcome stamp refresh_empty donations_data w r w' ->
  consistent w -> consistent w'.
Proof.
  intros O (Hk & l0 & L & D & I & Hi).
  destruct O as [T|old entries T L' It Dd F R|l entries sorted T L' It Dd N S
                |e added T Ha]; unfold consistent; auto.
  - split; [exact Hk|eauto 6].
  - split; [exact Hk|eauto 6].
  - rewrite L in L'. inversion L'; subst l0.
    destruct (fresh_keeps_distinct stamp entries (known_donation_ids w) l 0)
      as (A & B & C); auto.
    apply sort_items_perm in S.
    cbn [known_donation_ids donations_file dump_donations set_known].
    split.
    + apply Forall_app. split; auto.
      apply Forall_impl
        with (2 := fresh_ids_facts entries (known_donation_ids w) Dd).
      tauto.
    + exists sorted. split; [reflexivity|]. split; [|split].
      * apply (distinct_ids_perm _ _ (Permutation_sym S)). exact A.
      * apply (Permutation_Forall (Permutation_sym S)). exact B.
      * apply (Permutation_Forall (Permutation_sym S)).
        apply Forall_app. auto.
  - cbn [known_donation_ids donations_file set_known]. split.
    + apply Forall_app. split; auto.
      apply Forall_impl with (2 := Ha). tauto.
    + exists l0. repeat split; auto.
      apply Forall_impl with (2 := I). intros a Ia.
      apply in_or_app. right. exact Ia.
Qed.

Lemma init_empty (f t : file) :
  load_or_empty f = Ok (JArr []) -> init f t = (Ok tt, blank f t).
Proof.
  destruct f as [|[j|e]]; [reflexivity| |].
  - cbn. intros H. inversion H. reflexivity.
  - cbn. destruct (caught e); [reflexivity|discriminate].
Qed.

Lemma blank_consistent (f t : file) :
  load_or_empty f = Ok (JArr []) -> consistent (blank f t).
Proof.
  intros H. split; [constructor|].
  exists []. simpl. auto.
Qed.

Lemma feed_monitor_consistent batches :
  forall w, consistent w -> consistent (feed_monitor batches w).
Proof.
  induction batches as [|b bs IH]; intros w C; [exact C|].
  apply IH.
  destruct (DonationMonitor.save_new_donations b w) as [r w'] eqn:E.
  rewrite save_new_donations_ingest in E. apply ingest_cases in E.
  apply (outcome_consistent _ _ _ _ _ _ E C).
Qed.

Lemma feed_collector_consistent calls :
  forall w, consistent w -> consistent (feed_collector calls w).
Proof.
  induction calls as [|c cs IH]; intros w C; [exact C|].
  apply IH.
  destruct (GitHubDonationCollector.update_donations (fst c) (snd c) w)
    as [r w'] eqn:E.
  rewrite update_donations_ingest in E. apply ingest_cases in E.
  apply (outcome_consistent _ _ _ _ _ _ E C).
Qed.

Lemma consistent_no_duplicate w :
  consistent w ->
  exists l, load_or_empty (donations_file w) = Ok (JArr l) /\
            no_duplicate_ids l.
Proof.
  intros (_ & l & L & D & _ & _). exists l. split; auto.
  apply distinct_no_duplicate, D.
Qed.

(** C3. Start from an empty ledger (the file is absent, is not JSON, or
    holds the empty list), build the object, and feed it any batches, one
    call after the other, whatever each call returns or raises: the ledger
    on disk can be loaded and no two of its records have equal ids.  This
    holds for the monitor's [save_new_donations] and for the collector's
    [update_donations]. *)
Theorem C3_no_duplicate_ids (f t : file) (batches : list json)
    (calls : list ((nat -> string) * json)) :
  load_or_empty f = Ok (JArr []) ->
  (exists l,
      load_or_empty
        (donations_file (feed_monitor batches (snd (init f t))))
      = Ok (JArr l) /\ no_duplicate_ids l) /\
  (exists l,
      load_or_empty
        (donations_file (feed_collector calls (snd (init f t))))
      = Ok (JArr l) /\ no_duplicate_ids l).
Proof.
  intros E. rewrite (init_empty f t E). cbn [snd].
  split; apply consistent_no_duplicate.
  - apply feed_monitor_consistent, blank_consistent, E.
  - apply feed_collector_consistent, blank_consistent, E.
Qed.

(** ** Entries with a falsy id *)

Lemma merge_loop_skip stamp d l1 l2 :
  is_dict d = true -> truthy (record_id d) = false ->
  forall new ex w,
    merge_loop stamp (l1 ++ d :: l2) new ex w =
    merge_loop stamp (l1 ++ l2) new ex w.
Proof.
  intros Dd Td. induction l1 as [|e l1 IH]; intros new ex w; cbn [app].
  - rewrite merge_loop_cons, Dd, Td. reflexivity.
  - rewrite !merge_loop_cons.
    destruct (is_dict e); [|reflexivity].
    destruct (truthy (record_id e)); [|apply IH].
    destruct (hashable (record_id e)); [|reflexivity].
    destruct (set_mem (record_id e) (known_donation_ids w)); [apply IH|].
    destruct ex; try reflexivity. apply IH.
Qed.

Lemma ingest_skip stamp refresh_empty d l1 l2 w :
  is_dict d = true -> truthy (record_id d) = false -> l1 ++ l2 <> [] ->
  ingest stamp refresh_empty (JArr (l1 ++ d :: l2)) w =
  ingest stamp refresh_empty (JArr (l1 ++ l2)) w.
Proof.
  intros Dd Td N. unfold ingest.
  assert (T1 : truthy (JArr (l1 ++ d :: l2)) = true)
    by (destruct l1; reflexivity).
  assert (T2 : truthy (JArr (l1 ++ l2)) = true)
    by (cbn; destruct (l1 ++ l2); [congruence|reflexivity]).
  rewrite T1, T2. cbn [negb py_iter].
  unfold bind, gets, lift.
  destruct (load_or_empty (donations_file w)); [|reflexivity].
  rewrite (merge_loop_skip stamp d l1 l2 Dd Td). reflexivity.
Qed.

(** C9. An entry of a batch whose id is falsy (missing, [None], [False],
    [0], [0.0], the empty string, an empty list or dict) leaves no mark:
    the loop of either class, and with it the whole call, does what it
    does on the batch without that entry (the rest being non-empty, as an
    empty batch is not looked at at all). *)
Theorem C9_falsy_ids_are_skipped (d : json) (l1 l2 : list json) :
  is_dict d = true -> truthy (record_id d) = false ->
  (forall stamp new ex w,
      merge_loop stamp (l1 ++ d :: l2) new ex w =
      merge_loop stamp (l1 ++ l2) new ex w) /\
  (l1 ++ l2 <> [] ->
   forall w,
     DonationMonitor.save_new_donations (JArr (l1 ++ d :: l2)) w =
     DonationMonitor.save_new_donations (JArr (l1 ++ l2)) w) /\
  (l1 ++ l2 <> [] ->
   forall utcnow w,
     GitHubDonationCollector.update_donations utcnow
       (JArr (l1 ++ d :: l2)) w =
     GitHubDonationCollector.update_donations utcnow (JArr (l1 ++ l2)) w).
Proof.
  intros Dd Td. split; [|split].
  - intros. apply merge_loop_skip; auto.
  - intros N w. rewrite !save_new_donations_ingest.
    apply ingest_skip; auto.
  - intros N utcnow w. rewrite !update_donations_ingest.
    apply ingest_skip; auto.
Qed.

(** What a call adds, to the known-id set and to the ledger, has a truthy
    id. *)
Lemma ingest_adds_truthy stamp refresh_empty donations_data w r w' :
  ingest stamp refresh_empty donations_data w = (r, w') ->
  (forall x, In x (known_donation_ids w') ->
             In x (known_donation_ids w) \/ truthy x = true) /\
  (forall l l', load_or_empty (donations_file w) = Ok (JArr l) ->
                donations_file w' = Stored (JArr l') ->
                forall rec, In rec l' ->
                            In rec l \/ truthy (record_id rec) = true).
Proof.
  intros H. apply ingest_cases in H.
  destruct H as [T|old entries T L' It Dd F R|l0 entries sorted T L' It Dd N S
                |e added T Ha].
  - split; auto. intros l l' L E rec I.
    rewrite E in L. cbn in L. inversion L; subst. auto.
  - split; auto. intros l l' L E rec I.
    rewrite E in L. cbn in L. inversion L; subst. auto.
  - pose proof (fresh_entries_facts entries (known_donation_ids w) Dd) as Ff.
    cbn [known_donation_ids donations_file dump_donations set_known].
    split.
    + intros x I. apply in_app_or in I. destruct I as [I|I]; auto.
      right. apply in_rev, in_map_iff in I. destruct I as (d & E & I).
      rewrite Forall_forall in Ff. destruct (Ff d I) as (_ & _ & Tt).
      congruence.
    + intros l l' L E rec I. inversion E; subst l'.
      rewrite L' in L. inversion L; subst l0.
      apply sort_items_perm in S.
      apply (Permutation_in _ S) in I.
      apply in_app_or in I. destruct I as [I|I]; auto. right.
      clear - I Ff. revert I.
      generalize 0%nat.
      induction (fresh_entries (known_donation_ids w) entries)
        as [|d ds IH]; intros n I; [destruct I|].
      inversion Ff as [|? ? (Dd & _ & Td) Ff']; subst.
      destruct I as [I|I].
      * subst rec. rewrite record_id_record_of; auto.
      * apply (IH Ff' (S n) I).
  - cbn [known_donation_ids donations_file set_known]. split.
    + intros x I. apply in_app_or in I. destruct I as [I|I]; auto.
      rewrite Forall_forall in Ha. right. apply (Ha x I).
    + intros l l' L E rec I.
      rewrite E in L. cbn in L. inversion L; subst. auto.
Qed.

(** ** Duplicates within a batch *)

Lemma py_eq_refl_l (x y : json) :
  hashable x = true -> py_eq x y = true -> py_eq x x = true.
Proof.
  assert (F : forall f z,
             match float_cmp_int f z with Some Eq => true | _ => false end
             = true -> SFeqb f f = true).
  { intros f z H. destruct f as [s|s| |s m e]; try discriminate.
    - reflexivity.
    - destruct s; discriminate.
    - apply (SFeqb_refl_l _ (S754_finite s m e)).
      unfold SFeqb. simpl.
      destruct s; rewrite Z.compare_refl;
        change (Pos.compare_cont Eq m m) with (Pos.compare m m);
        rewrite Pos.compare_refl; reflexivity. }
  destruct x as [ |b|z|f|s|l|kv]; intros Hx H; try discriminate;
    try reflexivity.
  - simpl. apply Z.eqb_refl.
  - simpl. apply Z.eqb_refl.
  - destruct y as [ |b|z|g|s|l|kv]; try discriminate.
    + apply (F f _ H).
    + apply (F f _ H).
    + apply (SFeqb_refl_l f g H).
  - simpl. apply String.eqb_refl.
Qed.


Lemma passes_truthy d :
  passes d = true -> truthy (record_id d) = true ->
  is_dict d = true /\ hashable (record_id d) = true.
Proof.
  unfold passes. intros P T. rewrite T in P. cbn [negb orb] in P.
  apply andb_true_iff in P. exact P.
Qed.







(** ** Batches of known ids *)

(** The entries the loop passes over: dicts whose id is falsy or in the
    set. *)
Lemma merge_loop_known stamp entries :
  forall new ex w,
    Forall (fun d => is_dict d = true /\
                     (truthy (record_id d) = false \/
                      py_in (record_id d) (known_donation_ids w) = Ok true))
      entries ->
    merge_loop stamp entries new ex w = (Ok (new, ex), w).
Proof.
  induction entries as [|d rest IH]; intros new ex w F; [reflexivity|].
  inversion F as [|? ? [Dd K] F']; subst.
  rewrite merge_loop_cons, Dd.
  destruct (truthy (record_id d)); [|apply IH; auto].
  destruct K as [K|K]; [discriminate|].
  unfold py_in in K. destruct (hashable (record_id d)); [|discriminate].
  inversion K as [M]. rewrite M. apply IH; auto.
Qed.

Lemma ingest_known stamp refresh_empty entries w old :
  entries <> [] ->
  Forall (fun d => is_dict d = true /\
                   (truthy (record_id d) = false \/
                    py_in (record_id d) (known_donation_ids w) = Ok true))
    entries ->
  load_or_empty (donations_file w) = Ok old ->
  ingest stamp refresh_empty (JArr entries) w =
  if refresh_empty && negb (truthy old) then
    match sort_ledger old with
    | Ok sorted => (Ok true, dump_donations sorted w)
    | Raise e => (Raise e, w)
    end
  else (Ok false, w).
Proof.
  intros N F L. unfold ingest.
  assert (T : truthy (JArr entries) = true)
    by (destruct entries; [congruence|reflexivity]).
  rewrite T. cbn [negb py_iter]. unfold bind, gets, lift. rewrite L.
  rewrite (merge_loop_known stamp entries [] old w F).
  cbn [nonempty]. rewrite orb_false_r.
  destruct (refresh_empty && negb (truthy old)); [|reflexivity].
  destruct (sort_ledger old); reflexivity.
Qed.

Lemma set_mem_app x a b : set_mem x b = true -> set_mem x (a ++ b) = true.
Proof.
  unfold set_mem. intros H. rewrite existsb_app, H. apply orb_true_r.
Qed.

Lemma set_mem_in x s : In x s -> hashable x = true -> set_mem x s = true.
Proof.
  intros I H. unfold set_mem. apply existsb_exists.
  exists x. split; [exact I|apply py_same_refl, H].
Qed.

(** After the loop, every truthy id of the batch is in the set. *)
Lemma fresh_covers entries :
  forall known,
    Forall (fun d => passes d = true) entries ->
    Forall (fun d => truthy (record_id d) = true ->
                     set_mem (record_id d)
                       (rev (map record_id (fresh_entries known entries))
                        ++ known) = true) entries.
Proof.
  induction entries as [|d rest IH]; intros known P; [constructor|].
  inversion P as [|? ? Pd P']; subst. cbn [fresh_entries].
  destruct (truthy (record_id d)) eqn:T; cbn [andb].
  - destruct (set_mem (record_id d) known) eqn:M; cbn [negb].
    + constructor; [|apply IH; auto].
      intros _. apply set_mem_app, M.
    + cbn [map rev]. rewrite <- app_assoc. cbn [app].
      constructor; [|apply IH; auto].
      intros _. apply set_mem_app.
      apply set_mem_in; [left; reflexivity|].
      apply (passes_truthy d Pd T).
  - constructor; [|apply IH; auto]. intros F. congruence.
Qed.

(** A second call with the same batch, after a first that returned; the
    stamps of the second call are not read, as it builds no record. *)
Lemma ingest_twice stamp stamp' refresh_empty batch w changed w1 :
  ingest stamp refresh_empty (JArr batch) w = (Ok changed, w1) ->
  (refresh_empty = true -> donations_file w1 <> Stored (JArr [])) ->
  ingest stamp' refresh_empty (JArr batch) w1 = (Ok false, w1).
Proof.
  intros H NE.
  destruct batch as [|d0 rest]; [reflexivity|].
  set (batch := d0 :: rest) in *.
  assert (Nb : batch <> []) by discriminate.
  apply ingest_cases in H.
  pose proof (fresh_covers batch (known_donation_ids w)) as Cov.
  assert (Known : forall known,
            Forall (fun d => passes d = true) batch ->
            Forall (fun d => truthy (record_id d) = true ->
                             set_mem (record_id d) known = true) batch ->
            Forall (fun d => is_dict d = true /\
                             (truthy (record_id d) = false \/
                              py_in (record_id d) known = Ok true)) batch).
  { intros known P C. rewrite Forall_forall in *. intros d I.
    specialize (P d I). specialize (C d I).
    destruct (truthy (record_id d)) eqn:T.
    - destruct (passes_truthy d P T) as [Dd Hd]. split; auto. right.
      unfold py_in. rewrite Hd, C; auto.
    - unfold passes in P. apply andb_true_iff in P. tauto. }
  inversion H as [Tf Er Ew|old entries _ L It P F Rf Er Ew
                 |l entries sorted _ L It P N S Er Ew|e added _ Ha Er Ew].
  - discriminate.
  - subst w1. inversion It; subst entries. specialize (Cov P).
    rewrite F in Cov. cbn [map rev app] in Cov.
    rewrite (ingest_known stamp' refresh_empty batch w old Nb (Known _ P Cov)
               L).
    rewrite Rf. reflexivity.
  - inversion It; subst entries. specialize (Cov P).
    set (w2 := dump_donations _ _) in *.
    assert (L2 : load_or_empty (donations_file w2) = Ok (JArr sorted))
      by reflexivity.
    rewrite (ingest_known stamp' refresh_empty batch w2 (JArr sorted) Nb
               (Known _ P Cov) L2).
    destruct refresh_empty; [|reflexivity].
    destruct sorted; [|reflexivity].
    exfalso. apply NE; [reflexivity|]. subst w1. reflexivity.
Qed.

(** C4, amended.  A non-empty batch whose entries all carry ids of the
    known-id set, over a ledger file that can be loaded: the monitor's
    [save_new_donations] returns [False] and leaves the world as it was
    (nothing is saved); the collector's [update_donations] does the same
    when the stored ledger is truthy, and saves the empty ledger and
    returns [True] when the stored ledger is the empty list.  A second
    call with the same batch, after a first that returned, returns
    [False] and leaves the world as it was, whatever the ids of the batch
    (NaN among them): in the monitor always, and in the collector unless
    the ledger the first call left is the empty list. *)
Theorem C4_known_batch_is_noop :
  (forall entries w old,
      entries <> [] ->
      all_known entries w ->
      load_or_empty (donations_file w) = Ok old ->
      DonationMonitor.save_new_donations (JArr entries) w = (Ok false, w) /\
      (truthy old = true ->
       forall utcnow,
         GitHubDonationCollector.update_donations utcnow (JArr entries) w
         = (Ok false, w)) /\
      (old = JArr [] ->
       forall utcnow,
         GitHubDonationCollector.update_donations utcnow (JArr entries) w
         = (Ok true, dump_donations (JArr []) w))) /\
  (forall batch w changed w1,
      DonationMonitor.save_new_donations (JArr batch) w = (Ok changed, w1) ->
      DonationMonitor.save_new_donations (JArr batch) w1 = (Ok false, w1)) /\
  (forall utcnow utcnow' batch w changed w1,
      GitHubDonationCollector.update_donations utcnow (JArr batch) w
      = (Ok changed, w1) ->
      donations_file w1 <> Stored (JArr []) ->
      GitHubDonationCollector.update_donations utcnow' (JArr batch) w1
      = (Ok false, w1)).
Proof.
  split; [|split].
  - intros entries w old N K L.
    assert (K' : Forall (fun d => is_dict d = true /\
                   (truthy (record_id d) = false \/
                    py_in (record_id d) (known_donation_ids w) = Ok true))
                   entries).
    { apply Forall_impl with (2 := K). tauto. }
    split; [|split].
    + rewrite save_new_donations_ingest.
      rewrite (ingest_known _ false entries w old N K' L). reflexivity.
    + intros T utcnow. rewrite update_donations_ingest.
      rewrite (ingest_known _ true entries w old N K' L), T. reflexivity.
    + intros E utcnow. rewrite update_donations_ingest.
      rewrite (ingest_known _ true entries w old N K' L). subst old.
      reflexivity.
  - intros batch w changed w1 H.
    rewrite save_new_donations_ingest in *.
    apply (ingest_twice _ _ false batch w changed w1 H). discriminate.
  - intros utcnow utcnow' batch w changed w1 H NE.
    rewrite update_donations_ingest in *.
    apply (ingest_twice _ _ true batch w changed w1 H). auto.
Qed.

(** ** Loading *)

(** C7, amended.  Loading fails softly in two cases only.  When the
    ledger file is absent, building the object raises nothing and leaves
    an empty known-id set, the ingestion functions load an empty ledger,
    and [load_existing_data] on an object in use leaves its set alone.
    When the file is there and reading it raises an exception [e]:
    if [e] is [JSONDecodeError] or [FileNotFoundError], the two the
    [except] clause names, building the object raises nothing and leaves
    an empty known-id set, the ingestion functions load an empty ledger,
    and [load_existing_data] on an object in use empties its set; if [e]
    is any other exception, building the object raises [e], the ledger
    load of the ingestion functions raises [e], and [load_existing_data]
    on an object in use raises [e] and leaves the object as it was. *)
Theorem C7_load_soft_fails (t : file) :
  (init Absent t = (Ok tt, blank Absent t) /\
   load_or_empty Absent = Ok (JArr []) /\
   (forall w, donations_file w = Absent ->
              load_existing_data w = (Ok tt, w))) /\
  (forall e, caught e = true <-> e = JSONDecodeError \/ e = FileNotFoundError)
  /\
  (forall e, caught e = true ->
     init (Present (Raise e)) t = (Ok tt, blank (Present (Raise e)) t) /\
     load_or_empty (Present (Raise e)) = Ok (JArr []) /\
     (forall w, donations_file w = Present (Raise e) ->
                load_existing_data w = (Ok tt, set_known [] w))) /\
  (forall e, caught e = false ->
     init (Present (Raise e)) t = (Raise e, blank (Present (Raise e)) t) /\
     load_or_empty (Present (Raise e)) = Raise e /\
     (forall w, donations_file w = Present (Raise e) ->
                load_existing_data w = (Raise e, w))).
Proof.
  split; [|split; [|split]].
  - repeat split. intros w E. unfold load_existing_data, bind, gets.
    rewrite E. reflexivity.
  - intros e. split.
    + destruct e; try discriminate; auto.
    + intros [E|E]; subst e; reflexivity.
  - intros e C. repeat split.
    + unfold init, load_existing_data, bind, gets, try_except, lift. cbn.
      rewrite C. reflexivity.
    + cbn. rewrite C. reflexivity.
    + intros w E. unfold load_existing_data, bind, gets, try_except, lift.
      rewrite E. cbn. rewrite C. reflexivity.
  - intros e C. repeat split.
    + unfold init, load_existing_data, bind, gets, try_except, lift. cbn.
      rewrite C. reflexivity.
    + cbn. rewrite C. reflexivity.
    + intros w E. unfold load_existing_data, bind, gets, try_except, lift.
      rewrite E. cbn. rewrite C. reflexivity.
Qed.

(** C7 fails for a file that is there and cannot be loaded for another
    reason than its text not being JSON: a file that cannot be opened
    ([PermissionError]), bytes that are no text ([UnicodeDecodeError]), a
    document nested too deep ([RecursionError]) or holding too long an
    integer ([ValueError]).  The [except] clause names none of these, and
    they come out of [__init__] and of the ingestion functions alike. *)
Lemma C7_counterexample_unreadable :
  (init Unreadable Absent
   = (Raise PermissionError, blank Unreadable Absent) /\
   load_or_empty Unreadable = Raise PermissionError /\
   DonationMonitor.save_new_donations
     (JArr [JObj [("id", JStr "a")]]) (blank Unreadable Absent)
   = (Raise PermissionError, blank Unreadable Absent) /\
   GitHubDonationCollector.update_donations noon
     (JArr [JObj [("id", JStr "a")]]) (blank Unreadable Absent)
   = (Raise PermissionError, blank Unreadable Absent)) /\
  Forall
    (fun e =>
       init (Present (Raise e)) Absent
       = (Raise e, blank (Present (Raise e)) Absent) /\
       load_or_empty (Present (Raise e)) = Raise e /\
       DonationMonitor.save_new_donations
         (JArr [JObj [("id", JStr "a")]]) (blank (Present (Raise e)) Absent)
       = (Raise e, blank (Present (Raise e)) Absent))
    [UnicodeDecodeError; RecursionError; ValueError].
Proof. repeat split; repeat constructor. Qed.

(** A JSON document of another shape makes [__init__] raise as well. *)
Example init_not_a_list :
  fst (init (Stored (JInt 5)) Absent) = Raise TypeError /\
  fst (init (Stored (JArr [JInt 5])) Absent) = Raise TypeError /\
  fst (init (Stored (JArr [JStr "video"])) Absent) = Raise AttributeError /\
  fst (init (Stored (JArr [JObj [("id", JArr [])]])) Absent) = Raise TypeError.
Proof. repeat split. Qed.

(** ** The snapshot gate *)

Lemma same_totals_refl w : same_totals w w.
Proof. repeat split. Qed.

Lemma outcome_same_totals stamp refresh_empty donations_data w r w' :
  outcome stamp refresh_empty donations_data w r w' -> same_totals w w'.
Proof.
  intros O. destruct O; repeat split.
Qed.

Section Gate.

Variable float_of_str : string -> res spec_float.

Lemma check_donations_same_totals env w r w' :
  DonationMonitor.check_donations env w = (r, w') -> same_totals w w'.
Proof.
  unfold DonationMonitor.check_donations.
  destruct (truthy _).
  - rewrite save_new_donations_ingest. intros H.
    apply ingest_cases in H. apply (outcome_same_totals _ _ _ _ _ _ H).
  - intros H. inversion H. apply same_totals_refl.
Qed.

(** The second half of the check either leaves the world as it is, or
    passes the gate and saves one sample. *)
Lemma check_total_cases env found w r w' :
  DonationMonitor.check_total float_of_str env found w = (r, w') ->
  w' = w \/
  (r = Ok tt /\ found = true /\
   truthy (get_total_raised (DonationMonitor.total_response env)) = true /\
   exists current updates,
     (let? v := py_get (get_total_raised (DonationMonitor.total_response env))
                  "total_raised" (JInt 0) in
      py_float float_of_str v) = Ok current /\
     match last_total w with
     | None => True
     | Some t => float_ne current t = true
     end /\
     w' = set_last_total (Some current) (dump_totals updates w)).
Proof.
  unfold DonationMonitor.check_total.
  set (total_data := get_total_raised (DonationMonitor.total_response env)).
  destruct (truthy total_data) eqn:T; cbn [andb].
  2:{ intros H. inversion H. auto. }
  destruct found.
  2:{ intros H. inversion H. auto. }
  unfold bind at 1. unfold lift at 1.
  destruct (py_get total_data "total_raised" (JInt 0)) as [v|e] eqn:G.
  2:{ intros H. inversion H. auto. }
  unfold bind at 1. unfold lift at 1.
  destruct (py_float float_of_str v) as [current|e] eqn:F.
  2:{ intros H. inversion H. auto. }
  unfold bind at 1. unfold gets at 1.
  destruct (match last_total w with
            | Some t => float_ne current t
            | None => true
            end) eqn:Gate.
  2:{ intros H. inversion H. auto. }
  unfold DonationMonitor.save_total_raised_update.
  unfold bind, lift, gets, modify. rewrite G, F.
  destruct (load_or_empty (total_raised_file w)) as [updates|e].
  2:{ intros H. inversion H. auto. }
  destruct (py_append updates _) as [updates'|e].
  2:{ intros H. inversion H. auto. }
  intros H. inversion H. right. repeat split.
  exists current, updates'. cbn [res_bind]. rewrite F. repeat split.
  destruct (last_total w); auto.
Qed.

(** The gate of the continuous monitor.  In a turn of [monitor]: when the
    donations step did not return [True] (it found nothing new, skipped
    the batch, or raised), no sample is saved and neither the
    total-raised file nor [last_total] changes, whatever the fetched
    total; and a sample is saved only if the donations step returned
    [True], the fetched total is truthy, and [last_total] is [None] or
    differs from the fetched amount. *)
Lemma monitor_cycle_gate (interval : spec_float)
    (env : DonationMonitor.cycle_env) (consecutive_errors : Z) (w : world) :
  let w' :=
    snd (DonationMonitor.monitor_cycle float_of_str interval env
           consecutive_errors w) in
  (fst (DonationMonitor.check_donations env w) <> Ok true ->
   total_saves w' = total_saves w /\
   total_raised_file w' = total_raised_file w /\
   last_total w' = last_total w) /\
  (total_saves w' <> total_saves w ->
   fst (DonationMonitor.check_donations env w) = Ok true /\
   truthy (get_total_raised (DonationMonitor.total_response env)) = true /\
   exists current,
     (let? v := py_get (get_total_raised (DonationMonitor.total_response env))
                  "total_raised" (JInt 0) in
      py_float float_of_str v) = Ok current /\
     match last_total w with
     | None => True
     | Some t => float_ne current t = true
     end).
Proof.
  cbv zeta. unfold DonationMonitor.monitor_cycle.
  destruct (DonationMonitor.check_donations env w) as [r1 w1] eqn:CD.
  pose proof (check_donations_same_totals env w r1 w1 CD) as (S1 & S2 & S3 & _).
  (* the world after the [try] block and its handler *)
  assert (Tail : forall (outcome : res unit) c (w2 : world),
            let '(c', w3) :=
              match outcome with
              | Ok _ => (c, w2)
              | Raise _ =>
                  if DonationMonitor.max_consecutive_errors <=? c + 1
                  then (0, sleep (NInt 5) w2) else (c + 1, w2)
              end in
            let w4 := snd (if num_ltb (NInt 0)
                     (if num_ltb (NInt 0)
                           (NFloat (SFsub prec emax interval
                                      (DonationMonitor.elapsed env)))
                      then NFloat (SFsub prec emax interval
                                     (DonationMonitor.elapsed env))
                      else NInt 0)
                  then (c', sleep
                              (if num_ltb (NInt 0)
                                    (NFloat (SFsub prec emax interval
                                               (DonationMonitor.elapsed env)))
                               then NFloat (SFsub prec emax interval
                                              (DonationMonitor.elapsed env))
                               else NInt 0) w3)
                  else (c', w3)) in
            total_saves w4 = total_saves w2 /\
            total_raised_file w4 = total_raised_file w2 /\
            last_total w4 = last_total w2).
  { intros outcome c w2.
    destruct outcome as [u|e];
      [|destruct (DonationMonitor.max_consecutive_errors <=? c + 1)];
      destruct (num_ltb (NInt 0) _); repeat split. }
  destruct r1 as [found|e].
  - destruct (DonationMonitor.check_total float_of_str env found w1)
      as [r2 w2] eqn:CT.
    specialize (Tail r2 (if truthy (get_donations
                                     (DonationMonitor.donations_response env))
                         then 0 else consecutive_errors) w2).
    destruct (match r2 with Ok _ => _ | Raise _ => _ end) as [c' w3].
    cbv zeta in Tail. destruct Tail as (T1 & T2 & T3).
    apply check_total_cases in CT. cbn [fst].
    destruct CT as [E|(Er & Ef & Tt & current & updates & F & G & E)].
    + subst w2. split.
      * intros _. rewrite T1, T2, T3. auto.
      * intros N. exfalso. apply N. congruence.
    + subst found. split.
      * intros N. congruence.
      * intros _. split; auto. split; auto.
        exists current. split; auto. rewrite <- S1. exact G.
  - specialize (Tail (Raise e) consecutive_errors w1).
    destruct (if DonationMonitor.max_consecutive_errors <=? _ then _ else _)
      as [c' w3].
    cbv zeta in Tail. destruct Tail as (T1 & T2 & T3). cbn [fst]. split.
    + intros _. rewrite T1, T2, T3. auto.
    + intros N. exfalso. apply N. congruence.
Qed.

End Gate.

(** C1 fails in the single-shot collector: [run_update] saves a sample
    also when [update_donations] found nothing new.  Here the only
    donation fetched is already in the ledger. *)
Lemma C1_counterexample_collector :
  let w := snd (init ledger_a Absent) in
  let env :=
    GitHubDonationCollector.mkEnv
      (Body (JArr [donation "a" "2024-01-01T00:00:00Z" 5]))
      (Body (total_of 1250)) noon 1700000000000 "2024-01-01T12:00:00" in
  GitHubDonationCollector.update_donations noon
    (JArr [donation "a" "2024-01-01T00:00:00Z" 5]) w = (Ok false, w) /\
  forall float_of_str,
    fst (GitHubDonationCollector.run_update float_of_str env w) = Ok true /\
    total_saves (snd (GitHubDonationCollector.run_update float_of_str env w))
    = S (total_saves w) /\
    total_raised_file
      (snd (GitHubDonationCollector.run_update float_of_str env w))
    = Stored (JArr [JObj [("amount", JFloat (float_of_Z 1250));
                          ("timestamp", JInt 1700000000000);
                          ("last_updated", JStr "2024-01-01T12:00:00Z")]]).
Proof.
  cbv zeta. split; [reflexivity|]. intros float_of_str.
  repeat split.
Qed.

(** The gate of the monitor at work: with a new donation, a first total
    is saved and remembered; with another new donation and the same
    total, nothing is saved. *)
Example gate_opens_then_closes (float_of_str : string -> res spec_float) :
  let one := float_of_Z 1 in
  let first :=
    DonationMonitor.mkEnv (Body (JArr [donation "a" "2024-01-01" 5]))
      (Body (total_of 10)) 1700000000000 (float_of_Z 0) in
  let second :=
    DonationMonitor.mkEnv (Body (JArr [donation "b" "2024-01-02" 5]))
      (Body (total_of 10)) 1700000001000 (float_of_Z 0) in
  let w1 :=
    snd (DonationMonitor.monitor_cycle float_of_str one first 0
           (blank Absent Absent)) in
  let w2 := snd (DonationMonitor.monitor_cycle float_of_str one second 0 w1) in
  total_saves w1 = 1%nat /\ last_total w1 = Some (float_of_Z 10) /\
  total_saves w2 = 1%nat /\ List.length (known_donation_ids w2) = 2%nat.
Proof. cbv zeta. repeat split. Qed.

(** ** The retention cap *)

Lemma last_100_length l :
  (List.length (GitHubDonationCollector.last_100 l) <= 100)%nat.
Proof.
  unfold GitHubDonationCollector.last_100. rewrite length_skipn. lia.
Qed.

Lemma last_100_suffix l :
  l = firstn (List.length l - 100) l ++ GitHubDonationCollector.last_100 l.
Proof.
  unfold GitHubDonationCollector.last_100. symmetry. apply firstn_skipn.
Qed.

(** C2, amended to the single-shot collector.  A call of
    [update_total_raised] either returns [True] after saving the last 100
    entries of the stored series with the new sample appended (at most 100
    entries, the dropped ones being the oldest, at the front), or leaves
    the file alone. *)
Theorem C2_retention_cap (float_of_str : string -> res spec_float)
    (time_ms : Z) (now : string) (total_data : json) (w : world) :
  match GitHubDonationCollector.update_total_raised float_of_str time_ms now
          total_data w with
  | (Ok true, w') =>
      exists old sample,
        let kept := GitHubDonationCollector.last_100 (old ++ [sample]) in
        load_or_empty (total_raised_file w) = Ok (JArr old) /\
        total_raised_file w' = Stored (JArr kept) /\
        (List.length kept <= 100)%nat /\
        old ++ [sample] =
        firstn (List.length (old ++ [sample]) - 100) (old ++ [sample])
        ++ kept
  | (_, w') => w' = w
  end.
Proof.
  unfold GitHubDonationCollector.update_total_raised.
  destruct (truthy total_data); cbn [negb]; [|reflexivity].
  unfold bind, lift, gets, modify, ret.
  destruct (py_get total_data "total_raised" (JInt 0)) as [v|e];
    [|reflexivity].
  destruct (py_float float_of_str v) as [amount|e]; [|reflexivity].
  destruct (load_or_empty (total_raised_file w)) as [updates|e];
    [|reflexivity].
  destruct updates as [ | | | | |old| ]; try reflexivity.
  cbn [py_append].
  eexists old, _. cbv zeta. split; [reflexivity|].
  split; [|split; [apply last_100_length|apply last_100_suffix]].
  cbn [total_raised_file dump_totals].
  destruct (100 <? List.length (old ++ [_]))%nat eqn:C; [reflexivity|].
  apply Nat.ltb_ge in C. unfold GitHubDonationCollector.last_100.
  replace (List.length (old ++ [_]) - 100)%nat with 0%nat by lia.
  reflexivity.
Qed.

(** C2 fails in the continuous monitor: [save_total_raised_update] has no
    cap, and after 101 samples the file holds 101 entries. *)
Lemma C2_counterexample_monitor :
  series_length (total_raised_file (blank Absent Absent)) = 0%nat /\
  forall float_of_str,
    series_length
      (total_raised_file (snapshots float_of_str 101 (blank Absent Absent)))
    = 101%nat.
Proof.
  split; [reflexivity|]. intros float_of_str. vm_compute. reflexivity.
Qed.

(** ** The ledger order *)

(** A donation without [completed_at] is recorded with
    ["completed_at": None]; the default of [x.get('completed_at', '')]
    does not apply to it, and the sort compares [None] with a string.
    With the donation ["a"] in the ledger, a batch holding the undated
    donation ["b"] makes both ingestion functions raise [TypeError] at the
    sort: nothing is saved, yet ["b"] is in the known-id set, so that the
    monitor's next call with the same batch finds nothing new. *)
Example missing_timestamp_breaks_sort :
  let w := snd (init ledger_a Absent) in
  let w' := set_known [JStr "b"; JStr "a"] w in
  init ledger_a Absent = (Ok tt, w) /\
  DonationMonitor.save_new_donations (JArr [undated "b" 7]) w
  = (Raise TypeError, w') /\
  GitHubDonationCollector.update_donations noon (JArr [undated "b" 7]) w
  = (Raise TypeError, w') /\
  DonationMonitor.save_new_donations (JArr [undated "b" 7]) w'
  = (Ok false, w') /\
  donations_file w' = ledger_a.
Proof. cbv zeta. repeat split. Qed.

(** ** The error counter of [monitor] *)

Section Counter.

Variable float_of_str : string -> res spec_float.

(** The end of a turn: the handler, then the sleep to the next turn. *)
Lemma monitor_cycle_counter interval env c w :
  DonationMonitor.monitor_cycle float_of_str interval env c w =
  let '(outcome, c1, w1) :=
    match DonationMonitor.check_donations env w with
    | (Raise e, w1) => (Raise e, c, w1)
    | (Ok found, w1) =>
        let '(r, w2) :=
          DonationMonitor.check_total float_of_str env found w1 in
        (r, if truthy (get_donations (DonationMonitor.donations_response env))
            then 0 else c, w2)
    end in
  let '(c2, w2) :=
    match outcome with
    | Ok _ => (c1, w1)
    | Raise _ =>
        (after_exception c1,
         if DonationMonitor.max_consecutive_errors <=? c1 + 1
         then sleep (NInt 5) w1 else w1)
    end in
  let remaining := SFsub prec emax interval (DonationMonitor.elapsed env) in
  (c2, if num_ltb (NInt 0) (NFloat remaining)
       then sleep (NFloat remaining) w2 else w2).
Proof.
  unfold DonationMonitor.monitor_cycle, after_exception.
  destruct (DonationMonitor.check_donations env w) as [[found|e] w1].
  - destruct (DonationMonitor.check_total float_of_str env found w1)
      as [[u|e] w2].
    + destruct (num_ltb (NInt 0) (NFloat _)) eqn:L; [rewrite L|]; reflexivity.
    + destruct (_ <=? _);
        destruct (num_ltb (NInt 0) (NFloat _)) eqn:L; [rewrite L| |rewrite L|];
        reflexivity.
  - destruct (_ <=? _);
      destruct (num_ltb (NInt 0) (NFloat _)) eqn:L; [rewrite L| |rewrite L|];
      reflexivity.
Qed.

Lemma check_total_cooldowns env found w r w' :
  DonationMonitor.check_total float_of_str env found w = (r, w') ->
  cooldowns w' = cooldowns w.
Proof.
  intros H. apply check_total_cases in H.
  destruct H as [E|(_ & _ & _ & current & updates & _ & _ & E)];
    subst w'; reflexivity.
Qed.

Lemma drift_sleep_cooldowns (remaining : spec_float) w :
  cooldowns (if num_ltb (NInt 0) (NFloat remaining)
             then sleep (NFloat remaining) w else w) = cooldowns w.
Proof. destruct (num_ltb _ _); reflexivity. Qed.

Lemma pause_cooldowns c w :
  cooldowns (if DonationMonitor.max_consecutive_errors <=? c + 1
             then sleep (NInt 5) w else w)
  = (cooldowns w + pause_after_exception c)%nat.
Proof.
  unfold pause_after_exception. destruct (_ <=? _).
  - unfold cooldowns. cbn. lia.
  - lia.
Qed.

(** A turn whose donations fetch fails upstream. *)
Lemma monitor_cycle_transient interval env c w :
  transient (DonationMonitor.donations_response env) = true ->
  fst (DonationMonitor.monitor_cycle float_of_str interval env c w) = c /\
  cooldowns (snd (DonationMonitor.monitor_cycle float_of_str interval env c w))
  = cooldowns w /\
  same_totals w
    (snd (DonationMonitor.monitor_cycle float_of_str interval env c w)) /\
  donations_file
    (snd (DonationMonitor.monitor_cycle float_of_str interval env c w))
  = donations_file w.
Proof.
  intros T. rewrite monitor_cycle_counter.
  unfold DonationMonitor.check_donations.
  destruct env as [dr tr ms el]. cbn [DonationMonitor.donations_response
    DonationMonitor.total_response DonationMonitor.elapsed] in *.
  assert (E : truthy (get_donations dr) = false)
    by (destruct dr; [reflexivity..|discriminate]).
  rewrite E. cbn [ret]. unfold DonationMonitor.check_total.
  rewrite andb_false_r. cbn [ret fst snd].
  destruct (num_ltb (NInt 0) (NFloat _)); repeat split.
Qed.

(** C6, amended.  In a turn of [monitor] that finds the counter at [c]:
    an exception from the donations step leaves the counter at
    [after_exception c]; an exception from the total step leaves it at
    [after_exception c0], [c0] being 0 if the fetched donations were
    truthy and [c] otherwise; a turn without exception leaves it at [c0];
    the handler pauses 5 seconds, once, exactly when the incremented
    counter reaches 5, and the counter is then 0.  Fetches that fail
    upstream raise nothing: over any run of turns whose donations fetch
    fails, the counter keeps its value and the loop never pauses. *)
Theorem C6_error_counter (interval : spec_float)
    (env : DonationMonitor.cycle_env) (c : Z) (w : world) :
  let data := truthy (get_donations (DonationMonitor.donations_response env)) in
  let c0 := if data then 0 else c in
  let c' := fst (DonationMonitor.monitor_cycle float_of_str interval env c w) in
  let w' := snd (DonationMonitor.monitor_cycle float_of_str interval env c w) in
  (forall e w1,
      DonationMonitor.check_donations env w = (Raise e, w1) ->
      c' = after_exception c /\
      cooldowns w' = (cooldowns w + pause_after_exception c)%nat) /\
  (forall found w1 e w2,
      DonationMonitor.check_donations env w = (Ok found, w1) ->
      DonationMonitor.check_total float_of_str env found w1 = (Raise e, w2) ->
      c' = after_exception c0 /\
      cooldowns w' = (cooldowns w + pause_after_exception c0)%nat) /\
  (forall found w1 u w2,
      DonationMonitor.check_donations env w = (Ok found, w1) ->
      DonationMonitor.check_total float_of_str env found w1 = (Ok u, w2) ->
      c' = c0 /\ cooldowns w' = cooldowns w) /\
  (forall k, after_exception k = (if 5 <=? k + 1 then 0 else k + 1) /\
             pause_after_exception k
             = (if 5 <=? k + 1 then 1%nat else 0%nat)) /\
  (forall envs,
      Forall (fun env =>
                transient (DonationMonitor.donations_response env) = true)
        envs ->
      fst (DonationMonitor.monitor_from float_of_str interval envs c w) = c /\
      cooldowns
        (snd (DonationMonitor.monitor_from float_of_str interval envs c w))
      = cooldowns w).
Proof.
  cbv zeta. rewrite monitor_cycle_counter.
  split; [|split; [|split; [|split]]].
  - intros e w1 CD. rewrite CD. cbn [fst snd].
    apply check_donations_same_totals in CD.
    destruct CD as (_ & _ & _ & CD).
    split; [reflexivity|].
    rewrite drift_sleep_cooldowns, pause_cooldowns. congruence.
  - intros found w1 e w2 CD CT. rewrite CD, CT. cbn [fst snd].
    apply check_donations_same_totals in CD.
    destruct CD as (_ & _ & _ & CD).
    apply check_total_cooldowns in CT.
    split; [reflexivity|].
    rewrite drift_sleep_cooldowns, pause_cooldowns. congruence.
  - intros found w1 u w2 CD CT. rewrite CD, CT. cbn [fst snd].
    apply check_donations_same_totals in CD.
    destruct CD as (_ & _ & _ & CD).
    apply check_total_cooldowns in CT.
    split; [reflexivity|].
    rewrite drift_sleep_cooldowns. congruence.
  - intros k. split; reflexivity.
  - intros envs. revert c w.
    induction envs as [|env' envs IH]; intros c w F; [split; reflexivity|].
    inversion F as [|? ? T F']; subst. cbn [DonationMonitor.monitor_from].
    destruct (monitor_cycle_transient interval env' c w T) as (A & B & _).
    destruct (DonationMonitor.monitor_cycle float_of_str interval env' c w)
      as [c1 w1].
    cbn [fst snd] in A, B. subst c1.
    destruct (IH c w1 F') as [C D]. split; congruence.
Qed.

End Counter.

(** C6 fails for the fetch failures it names: ten turns in a row with a
    timeout and a 503 leave the counter at 0 and never pause.  Nor does
    every turn without exception reset the counter: after three turns that
    raise, a turn with an empty list of donations leaves it at 3. *)
Lemma C6_counterexample_transient_failures :
  transient (DonationMonitor.donations_response failing_turn) = true /\
  transient (DonationMonitor.total_response failing_turn) = true /\
  forall float_of_str,
    DonationMonitor.monitor float_of_str (float_of_Z 1)
      (repeat failing_turn 10) (blank Absent Absent)
    = (0, snd (DonationMonitor.monitor float_of_str (float_of_Z 1)
                 (repeat failing_turn 10) (blank Absent Absent))) /\
    cooldowns (snd (DonationMonitor.monitor float_of_str (float_of_Z 1)
                      (repeat failing_turn 10) (blank Absent Absent)))
    = 0%nat /\
    fst (DonationMonitor.monitor float_of_str (float_of_Z 1)
           [broken_turn; broken_turn; broken_turn; quiet_turn]
           (blank Absent Absent)) = 3.
Proof.
  split; [reflexivity|]. split; [reflexivity|].
  intros float_of_str. repeat split.
Qed.

(** The pause at work: four turns that raise leave the counter at 4; the
    fifth pauses and resets it. *)
Example pause_after_five_exceptions
    (float_of_str : string -> res spec_float) :
  let run n :=
    DonationMonitor.monitor float_of_str (float_of_Z 1)
      (repeat broken_turn n) (blank Absent Absent) in
  fst (run 4%nat) = 4 /\ cooldowns (snd (run 4%nat)) = 0%nat /\
  fst (run 5%nat) = 0 /\ cooldowns (snd (run 5%nat)) = 1%nat.
Proof. cbv zeta. repeat split. Qed.

(** ** Determinism of the merge *)

Section Alike.

Variables s1 s2 : nat -> list (string * json).

Lemma alike_refl a : alike s1 s2 a a.
Proof. left. reflexivity. Qed.

Lemma alike_all_refl l : Forall2 (alike s1 s2) l l.
Proof. induction l; constructor; auto using alike_refl. Qed.

Lemma alike_key a b :
  alike s1 s2 a b -> completed_at_key a = completed_at_key b.
Proof.
  intros [E|(d & n & Ea & Eb)]; subst; [reflexivity|].
  destruct d; reflexivity.
Qed.

Lemma alike_comment a b :
  alike s1 s2 a b -> comment_excerpt a = comment_excerpt b.
Proof.
  intros [E|(d & n & Ea & Eb)]; subst; [reflexivity|].
  destruct d; reflexivity.
Qed.

Lemma mapM_alike {B} (f : json -> res B) l1 l2 :
  (forall a b, alike s1 s2 a b -> f a = f b) ->
  Forall2 (alike s1 s2) l1 l2 -> mapM f l1 = mapM f l2.
Proof.
  intros E F. induction F as [|a b l1 l2 A F IH]; [reflexivity|].
  cbn [mapM]. rewrite (E a b A), IH. reflexivity.
Qed.

Lemma Forall2_rev {A} (R : A -> A -> Prop) l1 l2 :
  Forall2 R l1 l2 -> Forall2 R (rev l1) (rev l2).
Proof.
  induction 1 as [|a b l1 l2 Hab F IH]; [constructor|].
  cbn [rev]. apply Forall2_app; auto.
Qed.

Lemma insert_alike x y l1 l2 :
  paired s1 s2 x y -> Forall2 (paired s1 s2) l1 l2 ->
  res_rel (Forall2 (paired s1 s2)) (insert x l1) (insert y l2).
Proof.
  intros [Kx Ax] F. induction F as [|p q l1 l2 [Kp Ap] F IH].
  - cbn. constructor; [split; auto|constructor].
  - cbn [insert]. rewrite Kx, Kp.
    destruct (py_lt (fst q) (fst y)) as [[|]|e]; cbn [res_bind].
    + destruct (insert x l1) as [r1|e1], (insert y l2) as [r2|e2];
        cbn in IH |- *; try contradiction; auto.
      constructor; [split; auto|exact IH].
    + cbn. constructor; [split; auto|].
      constructor; [split; auto|exact F].
    + reflexivity.
Qed.

Lemma sort_asc_alike l1 l2 :
  Forall2 (paired s1 s2) l1 l2 ->
  res_rel (Forall2 (paired s1 s2)) (sort_asc l1) (sort_asc l2).
Proof.
  induction 1 as [|p q l1 l2 P F IH]; [constructor|].
  cbn [sort_asc].
  destruct (sort_asc l1) as [r1|e1], (sort_asc l2) as [r2|e2];
    cbn in IH |- *; try contradiction; auto.
  apply insert_alike; auto.
Qed.

Lemma combine_alike ks l1 l2 :
  Forall2 (alike s1 s2) l1 l2 ->
  Forall2 (paired s1 s2) (combine ks l1) (combine ks l2).
Proof.
  intros F. revert ks. induction F as [|a b l1 l2 A F IH]; intros ks.
  - destruct ks; constructor.
  - destruct ks as [|k ks]; [constructor|].
    cbn [combine]. constructor; [split; auto|apply IH].
Qed.

Lemma map_snd_alike l1 l2 :
  Forall2 (paired s1 s2) l1 l2 ->
  Forall2 (alike s1 s2) (map snd l1) (map snd l2).
Proof.
  induction 1 as [|p q l1 l2 [_ A] F IH]; constructor; auto.
Qed.

(** The sort puts like ledgers in like orders. *)
Lemma sort_items_alike reverse l1 l2 :
  Forall2 (alike s1 s2) l1 l2 ->
  res_rel (Forall2 (alike s1 s2))
    (sort_items completed_at_key reverse l1)
    (sort_items completed_at_key reverse l2).
Proof.
  intros F. unfold sort_items.
  rewrite (mapM_alike completed_at_key l1 l2 alike_key F).
  destruct (mapM completed_at_key l2) as [ks|e]; [|reflexivity].
  cbn [res_bind].
  pose proof (combine_alike ks l1 l2 F) as C.
  assert (C' : Forall2 (paired s1 s2)
                 (if reverse then rev (combine ks l1) else combine ks l1)
                 (if reverse then rev (combine ks l2) else combine ks l2)).
  { destruct reverse; auto using Forall2_rev. }
  apply sort_asc_alike in C'.
  destruct (sort_asc _) as [r1|e1], (sort_asc _) as [r2|e2];
    cbn in C' |- *; try contradiction; auto.
  apply map_snd_alike. destruct reverse; auto using Forall2_rev.
Qed.

Lemma report_alike l1 l2 :
  Forall2 (alike s1 s2) l1 l2 -> report l1 = report l2.
Proof.
  intros F. unfold report.
  rewrite (mapM_alike comment_excerpt l1 l2 alike_comment F). reflexivity.
Qed.

Lemma ledger_alike_truthy e1 e2 :
  ledger_alike s1 s2 e1 e2 -> truthy e1 = truthy e2.
Proof.
  intros [E|(l1 & l2 & E1 & E2 & F)]; subst; [reflexivity|].
  destruct F; reflexivity.
Qed.

(** The loop under two stamps, from worlds with the same known ids:
    the same exception or like results, and the same known ids. *)
Lemma merge_loop_alike entries :
  forall new1 new2 ex1 ex2 w1 w2,
    Forall2 (alike s1 s2) new1 new2 ->
    ledger_alike s1 s2 ex1 ex2 ->
    known_donation_ids w1 = known_donation_ids w2 ->
    res_rel (fun p q => Forall2 (alike s1 s2) (fst p) (fst q) /\
                        ledger_alike s1 s2 (snd p) (snd q))
      (fst (merge_loop s1 entries new1 ex1 w1))
      (fst (merge_loop s2 entries new2 ex2 w2)) /\
    known_donation_ids (snd (merge_loop s1 entries new1 ex1 w1))
    = known_donation_ids (snd (merge_loop s2 entries new2 ex2 w2)).
Proof.
  induction entries as [|d rest IH]; intros new1 new2 ex1 ex2 w1 w2 N X K.
  - cbn. auto.
  - rewrite !merge_loop_cons. rewrite <- K.
    destruct (is_dict d); [|cbn; auto].
    destruct (truthy (record_id d)); [|apply IH; auto].
    destruct (hashable (record_id d)); [|cbn; auto].
    destruct (set_mem (record_id d) (known_donation_ids w1));
      [apply IH; auto|].
    rewrite (Forall2_length N).
    assert (A : alike s1 s2 (record_of s1 (List.length new2) d)
                  (record_of s2 (List.length new2) d))
      by (right; eauto).
    destruct X as [E|(l1 & l2 & E1 & E2 & F)].
    + subst ex2. destruct ex1; cbn; auto.
      apply IH.
      * apply Forall2_app; auto.
      * right. do 2 eexists. repeat split.
        apply Forall2_app; auto using alike_all_refl.
      * cbn. congruence.
    + subst ex1 ex2. apply IH.
      * apply Forall2_app; auto.
      * right. do 2 eexists. repeat split. apply Forall2_app; auto.
      * cbn. congruence.
Qed.

End Alike.

Lemma sort_ledger_alike s1 s2 e1 e2 :
  ledger_alike s1 s2 e1 e2 ->
  res_rel (ledger_alike s1 s2) (sort_ledger e1) (sort_ledger e2).
Proof.
  intros [E|(l1 & l2 & E1 & E2 & F)].
  - subst e2. destruct (sort_ledger e1); cbn; [left|]; reflexivity.
  - subst e1 e2. unfold sort_ledger. cbn [py_sort].
    pose proof (sort_items_alike s1 s2 true l1 l2 F) as S.
    destruct (sort_items _ _ l1) as [r1|x1], (sort_items _ _ l2) as [r2|x2];
      cbn in S |- *; try contradiction; auto.
    right. eauto.
Qed.

(** A call under two stamps, from worlds with the same ledger file and the
    same known ids. *)
Lemma ingest_alike s1 s2 refresh_empty donations_data w1 w2 :
  known_donation_ids w1 = known_donation_ids w2 ->
  donations_file w1 = donations_file w2 ->
  fst (ingest s1 refresh_empty donations_data w1)
  = fst (ingest s2 refresh_empty donations_data w2) /\
  known_donation_ids (snd (ingest s1 refresh_empty donations_data w1))
  = known_donation_ids (snd (ingest s2 refresh_empty donations_data w2)) /\
  file_alike s1 s2
    (donations_file (snd (ingest s1 refresh_empty donations_data w1)))
    (donations_file (snd (ingest s2 refresh_empty donations_data w2))).
Proof.
  intros K D.
  destruct (ingest s1 refresh_empty donations_data w1) as [r1 w1'] eqn:E1.
  destruct (ingest s2 refresh_empty donations_data w2) as [r2 w2'] eqn:E2.
  cbn [fst snd]. unfold ingest in E1, E2.
  assert (Same : forall (r : res bool),
            (r, w1) = (r1, w1') -> (r, w2) = (r2, w2') ->
            r1 = r2 /\ known_donation_ids w1' = known_donation_ids w2' /\
            file_alike s1 s2 (donations_file w1') (donations_file w2')).
  { intros r A B. inversion A; inversion B; subst.
    repeat split; auto. left. exact D. }
  destruct (truthy donations_data); cbn [negb] in E1, E2; [|eauto].
  unfold bind, gets, lift, modify, ret in E1, E2. rewrite <- D in E2.
  destruct (load_or_empty (donations_file w1)) as [old|x]; [|eauto].
  destruct (py_iter donations_data) as [entries|x]; [|eauto].
  pose proof (merge_loop_alike s1 s2 entries [] [] old old w1 w2
                (Forall2_nil _) (or_introl eq_refl) K) as [R Kn].
  destruct (merge_loop s1 entries [] old w1) as [m1 wa] eqn:M1.
  destruct (merge_loop s2 entries [] old w2) as [m2 wb] eqn:M2.
  apply merge_loop_any in M1, M2.
  destruct M1 as (a1 & W1 & _), M2 as (a2 & W2 & _).
  cbn [fst snd] in R, Kn.
  assert (F : donations_file wa = donations_file wb).
  { rewrite W1, W2. cbn. exact D. }
  destruct m1 as [[n1 e1]|x1], m2 as [[n2 e2]|x2]; cbn in R;
    try contradiction.
  2:{ inversion E1; inversion E2; subst. repeat split; auto. left; auto. }
  destruct R as [Rn Re]. cbn [fst snd] in Rn, Re.
  rewrite (ledger_alike_truthy _ _ _ _ Re) in E1.
  assert (Ne : nonempty n1 = nonempty n2) by (destruct Rn; reflexivity).
  rewrite Ne in E1.
  destruct ((refresh_empty && negb (truthy e2)) || nonempty n2).
  2:{ inversion E1; inversion E2; subst. repeat split; auto. left; auto. }
  pose proof (sort_ledger_alike s1 s2 e1 e2 Re) as S.
  destruct (sort_ledger e1) as [q1|y1], (sort_ledger e2) as [q2|y2];
    cbn in S; try contradiction.
  2:{ inversion E1; inversion E2; subst. repeat split; auto. left; auto. }
  rewrite (report_alike s1 s2 n1 n2 Rn) in E1.
  assert (FA : file_alike s1 s2 (Stored q1) (Stored q2)).
  { destruct S as [E|(l1 & l2 & Ea & Eb & Fl)]; subst; [left|right]; eauto. }
  destruct (report n2); inversion E1; inversion E2; subst; cbn;
    repeat split; auto.
Qed.

Lemma alike_same_stamp s a b : alike s s a b -> a = b.
Proof. intros [E|(d & n & Ea & Eb)]; congruence. Qed.

Lemma file_alike_same_stamp s f1 f2 : file_alike s s f1 f2 -> f1 = f2.
Proof.
  intros [E|(l1 & l2 & E1 & E2 & F)]; auto. subst. do 3 f_equal.
  induction F as [|a b l1 l2 A F IH]; [reflexivity|].
  f_equal; [apply (alike_same_stamp s), A|exact IH].
Qed.

(** C5, amended.  From two worlds with the same ledger file and the same
    known-id set, and on the same batch: the monitor's
    [save_new_donations] gives the same result, the same known-id set and
    the same ledger file, whatever the rest of the two worlds; the
    collector's [update_donations], run under two clocks, gives the same
    result and the same known-id set, and ledger files that are equal or
    hold, place by place, the same records or the records built from one
    entry under the two clocks (they differ by [recorded_at] at most);
    under one clock the two ledger files are equal. *)
Theorem C5_merge_determinism (donations_data : json) (w1 w2 : world) :
  known_donation_ids w1 = known_donation_ids w2 ->
  donations_file w1 = donations_file w2 ->
  (fst (DonationMonitor.save_new_donations donations_data w1)
   = fst (DonationMonitor.save_new_donations donations_data w2) /\
   known_donation_ids
     (snd (DonationMonitor.save_new_donations donations_data w1))
   = known_donation_ids
       (snd (DonationMonitor.save_new_donations donations_data w2)) /\
   donations_file
     (snd (DonationMonitor.save_new_donations donations_data w1))
   = donations_file
       (snd (DonationMonitor.save_new_donations donations_data w2))) /\
  (forall u1 u2,
      fst (GitHubDonationCollector.update_donations u1 donations_data w1)
      = fst (GitHubDonationCollector.update_donations u2 donations_data w2) /\
      known_donation_ids
        (snd (GitHubDonationCollector.update_donations u1 donations_data w1))
      = known_donation_ids
          (snd (GitHubDonationCollector.update_donations u2 donations_data w2))
      /\
      file_alike (GitHubDonationCollector.stamp u1)
        (GitHubDonationCollector.stamp u2)
        (donations_file
           (snd (GitHubDonationCollector.update_donations u1 donations_data w1)))
        (donations_file
           (snd (GitHubDonationCollector.update_donations u2 donations_data w2))))
  /\
  (forall u,
      donations_file
        (snd (GitHubDonationCollector.update_donations u donations_data w1))
      = donations_file
          (snd (GitHubDonationCollector.update_donations u donations_data w2))).
Proof.
  intros K D. split; [|split].
  - rewrite !save_new_donations_ingest.
    destruct (ingest_alike DonationMonitor.stamp DonationMonitor.stamp false
                donations_data w1 w2 K D) as (A & B & C).
    repeat split; auto. apply (file_alike_same_stamp _ _ _ C).
  - intros u1 u2. rewrite !update_donations_ingest.
    apply ingest_alike; auto.
  - intros u. rewrite !update_donations_ingest.
    destruct (ingest_alike (GitHubDonationCollector.stamp u)
                (GitHubDonationCollector.stamp u) true
                donations_data w1 w2 K D) as (A & B & C).
    apply (file_alike_same_stamp _ _ _ C).
Qed.

(** C5 fails in the single-shot collector: each new record is stamped
    with the wall clock, so two runs on the same ledger, known ids and
    batch, a second apart, save different ledgers. *)
Lemma C5_counterexample_clock :
  let batch := JArr [donation "a" "2024-01-01T00:00:00Z" 5] in
  let w := blank Absent Absent in
  fst (GitHubDonationCollector.update_donations noon batch w) = Ok true /\
  fst (GitHubDonationCollector.update_donations past_noon batch w) = Ok true /\
  donations_file (snd (GitHubDonationCollector.update_donations noon batch w))
  <> donations_file
       (snd (GitHubDonationCollector.update_donations past_noon batch w)).
Proof.
  cbv zeta. split; [reflexivity|]. split; [reflexivity|].
  cbn. intros E. inversion E.
Qed.

(** ** The order of the ledger *)

Lemma ltb_asym (s t : string) :
  String.ltb s t = true -> String.ltb t s = false.
Proof.
  unfold String.ltb. rewrite (String.compare_antisym t s).
  destruct (String.compare s t); cbn; congruence.
Qed.

Lemma Sorted_snoc {A} (R : A -> A -> Prop) l a :
  Sorted R l -> (forall l0 b, l = l0 ++ [b] -> R b a) -> Sorted R (l ++ [a]).
Proof.
  induction l as [|c l IH]; intros S L; cbn [app].
  - repeat constructor.
  - inversion S as [|? ? S' H]; subst. constructor.
    + apply IH; auto. intros l0 b E. apply (L (c :: l0) b).
      rewrite E. reflexivity.
    + destruct l as [|d l]; cbn [app].
      * constructor. apply (L [] c). reflexivity.
      * constructor. inversion H; auto.
Qed.

Lemma Sorted_rev {A} (R : A -> A -> Prop) l :
  Sorted R l -> Sorted (fun a b => R b a) (rev l).
Proof.
  induction 1 as [|a l S IH H]; cbn [rev]; [constructor|].
  apply Sorted_snoc; auto.
  intros l0 b E.
  assert (E' : l = b :: rev l0).
  { rewrite <- (rev_involutive l), E, rev_app_distr. reflexivity. }
  subst l. inversion H; auto.
Qed.

Lemma Sorted_map {A B} (f : A -> B) (R : B -> B -> Prop) l :
  Sorted (fun a b => R (f a) (f b)) l -> Sorted R (map f l).
Proof.
  induction 1 as [|a l S IH H]; cbn [map]; constructor; auto.
  destruct H; constructor; auto.
Qed.

(** Inserting among string keys never raises and keeps the order. *)
Lemma insert_text x l :
  text_key x -> Forall text_key l ->
  exists r,
    insert x l = Ok r /\
    (Sorted ascending l -> Sorted ascending r) /\
    (forall y, ascending y x -> HdRel ascending y l -> HdRel ascending y r).
Proof.
  intros [sx Ex] F. induction F as [|z l [sz Ez] F IH].
  - exists [x]. repeat split; repeat constructor; auto.
  - destruct IH as (r & I & S & H). cbn [insert]. rewrite Ex, Ez, I.
    cbn [py_lt res_bind].
    destruct (String.ltb sz sx) eqn:L.
    + exists (z :: r). split; [reflexivity|]. split.
      * intros Sl. inversion Sl as [|? ? Sl' Hl]; subst.
        constructor; auto. apply H; auto.
        unfold ascending. rewrite Ex, Ez. cbn. apply ltb_asym, L.
      * intros y A Hy. constructor. inversion Hy; auto.
    + exists (x :: z :: l). split; [reflexivity|]. split.
      * intros Sl. constructor; auto. constructor.
        unfold ascending. rewrite Ex, Ez. exact L.
      * intros y A Hy. constructor. exact A.
Qed.

(** Sorting string keys never raises and sorts. *)
Lemma sort_asc_text l :
  Forall text_key l ->
  exists s, sort_asc l = Ok s /\ Sorted ascending s.
Proof.
  induction 1 as [|x l Tx F IH]; [exists []; split; constructor|].
  destruct IH as (s & E & S). cbn [sort_asc]. rewrite E. cbn [res_bind].
  assert (Fs : Forall text_key s).
  { apply sort_asc_perm in E.
    apply (Permutation_Forall (Permutation_sym E)), F. }
  destruct (insert_text x s Tx Fs) as (r & I & Sr & _).
  exists r. auto.
Qed.

(** Among keys that are strings or [None], a sort of two items or more
    that does not raise saw strings only. *)
Lemma sort_asc_ok_text l :
  forall s,
    Forall text_or_none_key l -> sort_asc l = Ok s ->
    (List.length l <= 1)%nat \/ Forall text_key l.
Proof.
  assert (Cmp : forall y x b,
            text_or_none_key y -> text_or_none_key x ->
            py_lt (fst y) (fst x) = Ok b -> text_key y /\ text_key x).
  { intros y x b [Ey|[sy Ey]] [Ex|[sx Ex]] L; rewrite Ex, Ey in L;
      cbn in L; try discriminate. split; eexists; eauto. }
  induction l as [|x l IH]; intros s F E; [left; cbn; lia|].
  inversion F as [|? ? Fx Fl]; subst. cbn [sort_asc] in E.
  destruct (sort_asc l) as [s'|] eqn:E'; [|discriminate]. cbn in E.
  destruct l as [|y l]; [left; cbn; lia|]. right.
  assert (Fs' : Forall text_or_none_key s').
  { apply sort_asc_perm in E'.
    apply (Permutation_Forall (Permutation_sym E')), Fl. }
  destruct s' as [|z s'].
  { apply sort_asc_perm, Permutation_length in E'. discriminate. }
  inversion Fs' as [|? ? Fz _]; subst.
  cbn [insert] in E.
  destruct (py_lt (fst z) (fst x)) as [b|] eqn:L; [|discriminate].
  destruct (Cmp z x b Fz Fx L) as [Tz Tx].
  constructor; auto.
  destruct (IH (z :: s') Fl eq_refl) as [Len|Ft]; auto.
  cbn in Len. assert (l = []) by (destruct l; [auto|cbn in Len; lia]).
  subst l. cbn in E'. inversion E'; subst. constructor; auto.
Qed.

Lemma Sorted_among {A} (P : A -> Prop) (R R' : A -> A -> Prop) l :
  (forall a b, P a -> P b -> R a b -> R' a b) ->
  Forall P l -> Sorted R l -> Sorted R' l.
Proof.
  intros I F S. induction S as [|a l S IH H]; [constructor|].
  inversion F as [|? ? Pa Fl]; subst. constructor; auto.
  destruct H as [|b l Rab]; constructor.
  inversion Fl; subst. auto.
Qed.

Lemma combine_keys (key : json -> res json) l ks :
  mapM key l = Ok ks ->
  Forall (fun p => key (snd p) = Ok (fst p)) (combine ks l).
Proof.
  revert ks. induction l as [|x l IH]; intros ks M; cbn in M.
  - inversion M. constructor.
  - destruct (key x) as [k|] eqn:K; [|discriminate]. cbn in M.
    destruct (mapM key l) as [ks'|]; [|discriminate]. cbn in M.
    inversion M; subst. cbn. constructor; auto.
Qed.

Lemma completed_at_of_key r k :
  completed_at_key r = Ok k -> completed_at r = key_text k.
Proof. unfold completed_at. intros E. rewrite E. reflexivity. Qed.

(** When the sort of the ledger does not raise, over keys that are
    strings or [None], it leaves the newest first. *)
Lemma sort_items_newest_first l s :
  sort_items completed_at_key true l = Ok s ->
  Forall text_or_none l -> newest_first s.
Proof.
  unfold sort_items. intros H T.
  destruct (mapM completed_at_key l) as [ks|] eqn:M; [|discriminate].
  cbn [res_bind] in H.
  pose proof (combine_keys _ _ _ M) as Ck.
  apply mapM_length in M.
  destruct (sort_asc (rev (combine ks l))) as [s'|] eqn:S; [|discriminate].
  cbn in H. inversion H; subst s. clear H.
  assert (Tk : Forall text_or_none_key (rev (combine ks l))).
  { apply Forall_rev. rewrite Forall_forall in *. intros p I.
    assert (Il : In (snd p) l).
    { destruct p as [k r]. apply in_combine_r in I. exact I. }
    destruct (T _ Il) as (k & E & Hk). specialize (Ck p I). cbn in Ck.
    rewrite E in Ck. inversion Ck as [Ek]. rewrite Ek in Hk. exact Hk. }
  pose proof (sort_asc_perm _ _ S) as P.
  assert (Ck' : Forall (fun p => completed_at_key (snd p) = Ok (fst p))
                  (rev s')).
  { apply Forall_rev.
    apply (Permutation_Forall (Permutation_sym P)), Forall_rev, Ck. }
  destruct (sort_asc_ok_text _ _ Tk S) as [Len|Tx].
  - rewrite <- (Permutation_length P) in Len.
    unfold newest_first.
    destruct s' as [|p [|q s']]; cbn in Len |- *; try lia;
      repeat constructor.
  - destruct (sort_asc_text _ Tx) as (s'' & S'' & Sd).
    rewrite S in S''. inversion S''; subst s''.
    apply Sorted_map. apply Sorted_rev in Sd.
    refine (Sorted_among _ _ _ _ _ Ck' Sd).
    intros a b Pa Pb Rab. cbn beta in *. unfold ascending in Rab.
    rewrite (completed_at_of_key _ _ Pa), (completed_at_of_key _ _ Pb).
    exact Rab.
Qed.

(** X1. Whenever a call of either ingestion function returns [True], the
    ledger it saved has the newest first, provided the [completed_at] of
    its records are strings or missing. *)
Theorem saved_ledger_newest_first (donations_data : json) (w w' : world) :
  (DonationMonitor.save_new_donations donations_data w = (Ok true, w') \/
   exists utcnow,
     GitHubDonationCollector.update_donations utcnow donations_data w
     = (Ok true, w')) ->
  exists ledger,
    donations_file w' = Stored (JArr ledger) /\
    (Forall text_or_none ledger -> newest_first ledger).
Proof.
  assert (G : forall stamp refresh_empty,
            ingest stamp refresh_empty donations_data w = (Ok true, w') ->
            exists ledger,
              donations_file w' = Stored (JArr ledger) /\
              (Forall text_or_none ledger -> newest_first ledger)).
  { intros stamp refresh_empty H. apply ingest_cases in H.
    inversion H as [Tf Er Ew|old entries _ L It P F Rf Er Ew
                   |l entries sorted _ L It P N S Er Ew|e added _ Ha Er Ew].
    exists sorted. split; [reflexivity|].
    intros T. apply (sort_items_newest_first _ _ S).
    apply (Permutation_Forall (sort_items_perm _ _ _ _ S)), T. }
  intros [H|[utcnow H]].
  - rewrite save_new_donations_ingest in H. eauto.
  - rewrite update_donations_ingest in H. eauto.
Qed.

Lemma ltb_empty (s : string) : String.ltb "" s = false -> s = "".
Proof. destruct s; [reflexivity|]. cbv. discriminate. Qed.

Lemma newest_first_undated_last l : newest_first l -> undated_last l.
Proof.
  unfold newest_first, undated_last. intros S pre r post E Er. subst l.
  induction pre as [|a pre IH]; cbn [app] in S.
  - clear - S Er. revert r S Er.
    induction post as [|b post IH]; intros r S Er; [constructor|].
    inversion S as [|? ? S' H]; subst. inversion H as [|? ? L]; subst.
    rewrite Er in L. apply ltb_empty in L.
    constructor; [exact L|]. apply (IH b); auto.
  - inversion S; subst. auto.
Qed.

Lemma ingest_newest_first stamp refresh_empty donations_data w w' :
  ingest stamp refresh_empty donations_data w = (Ok true, w') ->
  exists ledger,
    donations_file w' = Stored (JArr ledger) /\
    (Forall text_or_none ledger ->
     newest_first ledger /\ undated_last ledger).
Proof.
  intros H. apply ingest_cases in H.
  inversion H as [Tf Er Ew|old entries _ L It P F Rf Er Ew
                 |l entries sorted _ L It P N S Er Ew|e added _ Ha Er Ew].
  exists sorted. split; [reflexivity|].
  intros T.
  assert (Nf : newest_first sorted).
  { apply (sort_items_newest_first _ _ S).
    apply (Permutation_Forall (sort_items_perm _ _ _ _ S)), T. }
  split; [exact Nf|apply newest_first_undated_last, Nf].
Qed.

(** C8.  Whenever a call of either ingestion function returns [True], it
    has saved a ledger, and when the [completed_at] of the saved records
    are strings, [None] or missing, that ledger is sorted by
    [completed_at] with the newest first, a missing [completed_at]
    counting as the empty string: the records that sort as the empty
    string come last. *)
Theorem C8_ledger_sorted_after_change (donations_data : json)
    (w w' : world) :
  (DonationMonitor.save_new_donations donations_data w = (Ok true, w') \/
   exists utcnow,
     GitHubDonationCollector.update_donations utcnow donations_data w
     = (Ok true, w')) ->
  exists ledger,
    donations_file w' = Stored (JArr ledger) /\
    (Forall text_or_none ledger ->
     newest_first ledger /\ undated_last ledger).
Proof.
  intros [H|[utcnow H]].
  - rewrite save_new_donations_ingest in H.
    apply (ingest_newest_first _ _ _ _ _ H).
  - rewrite update_donations_ingest in H.
    apply (ingest_newest_first _ _ _ _ _ H).
Qed.

(** ** Calls that return *)

Lemma merge_loop_total stamp entries :
  forall new l w,
    Forall (fun d => passes d = true) entries ->
    merge_loop stamp entries new (JArr l) w =
    (Ok (new ++ records_of stamp (List.length new)
                  (fresh_entries (known_donation_ids w) entries),
         JArr (l ++ records_of stamp (List.length new)
                      (fresh_entries (known_donation_ids w) entries))),
     set_known
       (rev (map record_id (fresh_entries (known_donation_ids w) entries))
        ++ known_donation_ids w) w).
Proof.
  induction entries as [|d rest IH]; intros new l w P.
  - cbn. rewrite !app_nil_r, set_known_same. reflexivity.
  - inversion P as [|? ? Pd P']; subst.
    rewrite merge_loop_cons. cbn [fresh_entries].
    unfold passes in Pd. apply andb_true_iff in Pd. destruct Pd as [Dd Hd].
    rewrite Dd.
    destruct (truthy (record_id d)) eqn:T; cbn [andb negb orb] in *.
    + rewrite Hd.
      destruct (set_mem (record_id d) (known_donation_ids w)); cbn [negb].
      * apply IH; auto.
      * rewrite IH by auto. cbn [known_donation_ids set_known].
        rewrite length_app. cbn [List.length records_of map rev].
        replace (List.length new + 1)%nat with (S (List.length new)) by lia.
        rewrite <- !app_assoc. reflexivity.
    + apply IH; auto.
Qed.

Lemma record_of_key stamp n d :
  is_dict d = true ->
  completed_at_key (record_of stamp n d) = py_get d "completed_at" JNull.
Proof. destruct d; try discriminate. reflexivity. Qed.




Lemma fresh_entries_incl known entries :
  Forall (fun d => In d entries) (fresh_entries known entries).
Proof.
  revert known. induction entries as [|d rest IH]; intros known;
    cbn [fresh_entries]; [constructor|].
  destruct (_ && _).
  - constructor; [left; reflexivity|].
    apply Forall_impl with (2 := IH (record_id d :: known)).
    intros a I. right. exact I.
  - apply Forall_impl with (2 := IH known). intros a I. right. exact I.
Qed.



(** ** Duplicates within a batch, in a call that returns *)



(** ** Runs in new processes *)

(** Rebuilding the known-id set from a ledger without duplicates puts
    every id of the ledger in the set. *)
Lemma collect_ids_distinct l :
  forall acc,
    Forall has_id l ->
    Forall (fun r => hashable (record_id r) = true) l ->
    distinct_ids l ->
    Forall (fun r => forall a, In a acc -> py_eq a (record_id r) = false) l ->
    Forall (fun x => hashable x = true) acc ->
    exists ids,
      collect_ids l acc = Ok ids /\
      Forall (fun x => hashable x = true) ids /\
      incl acc ids /\
      Forall (fun r => In (record_id r) ids) l.
Proof.
  induction l as [|r l IH]; intros acc Hi Hh D N Ha.
  - exists acc. repeat split; auto using incl_refl.
  - inversion Hi as [|? ? [Dr Cr] Hi']; subst.
    inversion Hh as [|? ? Hr Hh']; subst.
    inversion N as [|? ? Nr N']; subst.
    destruct D as [Fr D].
    cbn [collect_ids]. rewrite Cr. cbn [res_bind].
    assert (G : py_get r "id" JNull = Ok (record_id r))
      by (destruct r; try discriminate; reflexivity).
    rewrite G. cbn [res_bind]. unfold py_add. rewrite Hr.
    destruct (set_mem (record_id r) acc) eqn:M; cbn [res_bind].
    + (* the id is a NaN, and the set holds the NaN already *)
      assert (Ir : In (record_id r) acc).
      { unfold set_mem in M. apply existsb_exists in M.
        destruct M as (a & Ia & Ea). unfold py_same in Ea.
        rewrite (Nr a Ia), orb_false_r in Ea.
        apply andb_true_iff in Ea. destruct Ea as [Na Nx].
        apply is_nan_eq in Na, Nx. rewrite Nx, <- Na. exact Ia. }
      destruct (IH acc) as (ids & C & H1 & H2 & H3); auto.
      exists ids. repeat split; auto.
    + destruct (IH (record_id r :: acc)) as (ids & C & H1 & H2 & H3); auto.
      * rewrite Forall_forall in *. intros r' I a [E|Ia].
        -- subst a. apply (Fr r' I).
        -- apply (N' r' I a Ia).
      * exists ids. repeat split; auto.
        -- intros a Ia. apply H2. right. exact Ia.
        -- constructor; auto. apply H2. left. reflexivity.
Qed.

Lemma consistent_stored_ok w : consistent w -> stored_ok (donations_file w).
Proof.
  intros (Hk & l & L & D & I & Hi). exists l. repeat split; auto.
  rewrite Forall_forall in *. intros r Ir. apply Hk, I, Ir.
Qed.

Lemma init_consistent f t :
  stored_ok f ->
  exists w, init f t = (Ok tt, w) /\ consistent w /\
            donations_file w = f /\ total_raised_file w = t.
Proof.
  intros (l & L & D & Hi & Hh).
  destruct f as [|[j|e]].
  - exists (blank Absent t). repeat split; [constructor|].
    exists []. cbn. inversion L; subst. auto.
  - cbn in L. inversion L; subst j.
    destruct (collect_ids_distinct l [] Hi Hh D) as (ids & C & H1 & _ & H3).
    { apply Forall_forall. intros r _ a []. }
    { constructor. }
    exists (set_known ids (blank (Stored (JArr l)) t)).
    unfold init, load_existing_data, bind, gets, try_except, lift, modify.
    cbn. rewrite C. cbn. repeat split; auto.
    exists l. cbn. auto.
  - cbn in L. destruct (caught e) eqn:Ce; [|discriminate].
    exists (blank (Present (Raise e)) t).
    unfold init, load_existing_data, bind, gets, try_except, lift, modify.
    cbn. rewrite Ce. repeat split; [constructor|].
    exists []. cbn. rewrite Ce. inversion L; subst. auto.
Qed.

Section ScheduledRuns.

Variable float_of_str : string -> res spec_float.

Lemma update_total_raised_world time_ms now total_data w :
  snd (GitHubDonationCollector.update_total_raised float_of_str time_ms now
         total_data w) = w \/
  exists updates,
    snd (GitHubDonationCollector.update_total_raised float_of_str time_ms now
           total_data w) = dump_totals updates w.
Proof.
  unfold GitHubDonationCollector.update_total_raised.
  destruct (truthy total_data); cbn [negb]; [|left; reflexivity].
  unfold bind, lift, gets, modify, ret.
  destruct (py_get total_data "total_raised" (JInt 0)) as [v|e];
    [|left; reflexivity].
  destruct (py_float float_of_str v) as [amount|e]; [|left; reflexivity].
  destruct (load_or_empty (total_raised_file w)) as [updates|e];
    [|left; reflexivity].
  destruct (py_append updates _) as [updates'|e]; [|left; reflexivity].
  right. eexists. reflexivity.
Qed.

Lemma update_total_raised_consistent time_ms now total_data w :
  consistent w ->
  consistent
    (snd (GitHubDonationCollector.update_total_raised float_of_str time_ms
            now total_data w)).
Proof.
  intros C.
  destruct (update_total_raised_world time_ms now total_data w)
    as [E|(u & E)]; rewrite E; exact C.
Qed.

Lemma run_update_consistent env w :
  consistent w ->
  consistent (snd (GitHubDonationCollector.run_update float_of_str env w)).
Proof.
  intros C. unfold GitHubDonationCollector.run_update, try_except.
  destruct (truthy (get_donations _)); [|exact C].
  unfold bind at 1.
  destruct (GitHubDonationCollector.update_donations _ _ w) as [r w1] eqn:U.
  assert (C1 : consistent w1).
  { rewrite update_donations_ingest in U. apply ingest_cases in U.
    apply (outcome_consistent _ _ _ _ _ _ U C). }
  destruct r as [changed|e]; [|exact C1].
  destruct (truthy (get_total_raised _)); [|exact C1].
  unfold bind.
  pose proof (update_total_raised_consistent
                (GitHubDonationCollector.time_ms env)
                (GitHubDonationCollector.last_updated env)
                (get_total_raised (GitHubDonationCollector.total_response env))
                w1 C1) as C2.
  destruct (GitHubDonationCollector.update_total_raised _ _ _ _ w1)
    as [[b|e] w2]; exact C2.
Qed.

Lemma scheduled_run_stored_ok env files :
  stored_ok (fst files) ->
  stored_ok (fst (scheduled_run float_of_str env files)).
Proof.
  intros S. unfold scheduled_run.
  destruct (init_consistent (fst files) (snd files) S) as (w & I & C & _).
  rewrite I. cbn [fst].
  apply consistent_stored_ok, run_update_consistent, C.
Qed.

(** X3. Start from an empty ledger and let the script run any number of
    times, each run a new process that rebuilds its known-id set from the
    ledger file and calls [run_update] once, whatever the fetches return:
    the ledger on disk can be loaded and no two of its records have equal
    ids. *)
Theorem scheduled_runs_no_duplicate_ids
    (envs : list GitHubDonationCollector.update_env) (f t : file) :
  load_or_empty f = Ok (JArr []) ->
  exists l,
    load_or_empty (fst (scheduled_runs float_of_str envs (f, t)))
    = Ok (JArr l) /\ no_duplicate_ids l.
Proof.
  intros E.
  assert (S : stored_ok (fst (f, t))).
  { exists []. cbn. repeat split; auto. }
  assert (G : forall files,
            stored_ok (fst files) ->
            stored_ok (fst (scheduled_runs float_of_str envs files))).
  { induction envs as [|env envs' IH]; intros files Sf; [exact Sf|].
    apply IH, scheduled_run_stored_ok, Sf. }
  destruct (G (f, t) S) as (l & L & D & _).
  exists l. split; [exact L|]. apply distinct_no_duplicate, D.
Qed.

End ScheduledRuns.

(** X4. Whatever a call of either ingestion function does, every id it
    adds to the known-id set is truthy, and every record the saved ledger
    has beyond the old one has a truthy id. *)
Theorem added_ids_are_truthy (donations_data : json) (w : world) :
  (let w' := snd (DonationMonitor.save_new_donations donations_data w) in
   (forall x, In x (known_donation_ids w') ->
              In x (known_donation_ids w) \/ truthy x = true) /\
   (forall l l', load_or_empty (donations_file w) = Ok (JArr l) ->
                 donations_file w' = Stored (JArr l') ->
                 forall rec, In rec l' ->
                             In rec l \/ truthy (record_id rec) = true)) /\
  (forall utcnow,
      let w' :=
        snd (GitHubDonationCollector.update_donations utcnow donations_data w)
      in
      (forall x, In x (known_donation_ids w') ->
                 In x (known_donation_ids w) \/ truthy x = true) /\
      (forall l l', load_or_empty (donations_file w) = Ok (JArr l) ->
                    donations_file w' = Stored (JArr l') ->
                    forall rec, In rec l' ->
                                In rec l \/ truthy (record_id rec) = true)).
Proof.
  split.
  - cbv zeta. rewrite save_new_donations_ingest.
    destruct (ingest _ _ _ w) as [r w'] eqn:E.
    apply (ingest_adds_truthy _ _ _ _ _ _ E).
  - intros utcnow. cbv zeta. rewrite update_donations_ingest.
    destruct (ingest _ _ _ w) as [r w'] eqn:E.
    apply (ingest_adds_truthy _ _ _ _ _ _ E).
Qed.

(** In a ledger without duplicates, an id that equals itself (any id but
    a NaN) is the id of one record at most. *)
Lemma no_duplicate_ids_once l i j a b :
  no_duplicate_ids l ->
  nth_error l i = Some a -> nth_error l j = Some b ->
  record_id a = record_id b ->
  py_eq (record_id a) (record_id a) = true ->
  i = j.
Proof.
  intros N Hi Hj E R.
  destruct (Nat.eq_dec i j) as [|Ne]; [assumption|].
  pose proof (N i j a b Hi Hj Ne) as F. rewrite <- E in F. congruence.
Qed.

(** ** What runs keep *)

Lemma keeps_records_refl f : keeps_records f f.
Proof.
  intros l L. exists l, []. split; [exact L|]. rewrite app_nil_r. reflexivity.
Qed.

Lemma keeps_records_trans f g h :
  keeps_records f g -> keeps_records g h -> keeps_records f h.
Proof.
  intros A B l L. destruct (A l L) as (l1 & r1 & L1 & P1).
  destruct (B l1 L1) as (l2 & r2 & L2 & P2).
  exists l2, (r1 ++ r2). split; [exact L2|].
  rewrite P2, P1, app_assoc. reflexivity.
Qed.

(** A run of steps, each of which keeps [R], keeps [R]. *)
Section Steps.

Variable float_of_str : string -> res spec_float.
Variable R : world -> world -> Prop.
Hypothesis R_refl : forall w, R w w.
Hypothesis R_trans : forall a b c, R a b -> R b c -> R a c.
Hypothesis R_ingest :
  forall stamp refresh_empty d w,
    R w (snd (ingest stamp refresh_empty d w)).

Lemma feed_monitor_keeps batches :
  forall w, R w (feed_monitor batches w).
Proof.
  induction batches as [|b batches IH]; intros w; [apply R_refl|].
  cbn [feed_monitor fold_left]. eapply R_trans; [|apply IH].
  rewrite save_new_donations_ingest. apply R_ingest.
Qed.

Lemma feed_collector_keeps calls :
  forall w, R w (feed_collector calls w).
Proof.
  induction calls as [|b calls IH]; intros w; [apply R_refl|].
  cbn [feed_collector fold_left]. eapply R_trans; [|apply IH].
  rewrite update_donations_ingest. apply R_ingest.
Qed.

Lemma check_donations_keeps env w :
  R w (snd (DonationMonitor.check_donations env w)).
Proof.
  unfold DonationMonitor.check_donations.
  destruct (truthy _); [|apply R_refl].
  rewrite save_new_donations_ingest. apply R_ingest.
Qed.

Section Turns.

Hypothesis R_check_total :
  forall env found w,
    R w (snd (DonationMonitor.check_total float_of_str env found w)).
Hypothesis R_sleep : forall n w, R w (sleep n w).

Lemma monitor_cycle_keeps interval env c w :
  R w (snd (DonationMonitor.monitor_cycle float_of_str interval env c w)).
Proof.
  rewrite monitor_cycle_counter.
  pose proof (check_donations_keeps env w) as A.
  destruct (DonationMonitor.check_donations env w) as [[found|e] w1];
    cbn [snd] in A.
  - pose proof (R_check_total env found w1) as B.
    destruct (DonationMonitor.check_total float_of_str env found w1)
      as [[u|e] w2]; cbn [snd] in B |- *.
    + destruct (num_ltb _ _); [|eauto].
      eapply R_trans; [|apply R_sleep]. eauto.
    + set (c0 := if truthy (get_donations
                              (DonationMonitor.donations_response env))
                 then 0 else c).
      assert (C : R w (if DonationMonitor.max_consecutive_errors <=? c0 + 1
                       then sleep (NInt 5) w2 else w2)).
      { destruct (_ <=? _); [|eauto].
        eapply R_trans; [|apply R_sleep]. eauto. }
      destruct (num_ltb _ _); [|exact C].
      eapply R_trans; [exact C|apply R_sleep].
  - cbn [snd].
    assert (C : R w (if DonationMonitor.max_consecutive_errors <=? c + 1
                     then sleep (NInt 5) w1 else w1)).
    { destruct (_ <=? _); [|eauto].
      eapply R_trans; [|apply R_sleep]. eauto. }
    destruct (num_ltb _ _); [|exact C].
    eapply R_trans; [exact C|apply R_sleep].
Qed.

Lemma monitor_from_keeps interval envs :
  forall c w,
    R w (snd (DonationMonitor.monitor_from float_of_str interval envs c w)).
Proof.
  induction envs as [|env envs' IH]; intros c w; [apply R_refl|].
  cbn [DonationMonitor.monitor_from].
  pose proof (monitor_cycle_keeps interval env c w) as A.
  destruct (DonationMonitor.monitor_cycle float_of_str interval env c w)
    as [c1 w1]. cbn [snd] in A.
  eapply R_trans; [exact A|apply IH].
Qed.

End Turns.

Section Update.

Hypothesis R_update_total_raised :
  forall time_ms now total_data w,
    R w (snd (GitHubDonationCollector.update_total_raised float_of_str
                time_ms now total_data w)).

Lemma run_update_keeps env w :
  R w (snd (GitHubDonationCollector.run_update float_of_str env w)).
Proof.
  unfold GitHubDonationCollector.run_update, try_except.
  destruct (truthy (get_donations _)); [|apply R_refl].
  unfold bind at 1.
  pose proof (R_ingest
                (GitHubDonationCollector.stamp
                   (GitHubDonationCollector.utcnow env)) true
                (get_donations (GitHubDonationCollector.donations_response env))
                w) as A.
  rewrite <- update_donations_ingest in A.
  destruct (GitHubDonationCollector.update_donations _ _ w) as [[changed|e] w1];
    cbn [snd] in A; [|exact A].
  destruct (truthy (get_total_raised _)); [|exact A].
  unfold bind.
  pose proof (R_update_total_raised
                (GitHubDonationCollector.time_ms env)
                (GitHubDonationCollector.last_updated env)
                (get_total_raised (GitHubDonationCollector.total_response env))
                w1) as B.
  destruct (GitHubDonationCollector.update_total_raised _ _ _ _ w1)
    as [[b|e] w2]; cbn [snd] in B |- *; eauto.
Qed.

End Update.

Section Writes.

(** Relations that the writes of the total-raised file keep. *)
Hypothesis R_dump_totals : forall v w, R w (dump_totals v w).
Hypothesis R_last_total : forall t w, R w (set_last_total t w).

Lemma check_total_keeps env found w :
  R w (snd (DonationMonitor.check_total float_of_str env found w)).
Proof.
  destruct (DonationMonitor.check_total float_of_str env found w)
    as [r w'] eqn:E.
  destruct (check_total_cases float_of_str env found w r w' E)
    as [->|(_ & _ & _ & current & updates & _ & _ & ->)]; cbn [snd].
  - apply R_refl.
  - eapply R_trans; [apply R_dump_totals|apply R_last_total].
Qed.

Lemma update_total_raised_keeps time_ms now total_data w :
  R w (snd (GitHubDonationCollector.update_total_raised float_of_str time_ms
              now total_data w)).
Proof.
  destruct (update_total_raised_world float_of_str time_ms now total_data w)
    as [->|(u & ->)]; [apply R_refl|apply R_dump_totals].
Qed.

End Writes.

End Steps.

Lemma outcome_known stamp refresh_empty donations_data w r w' :
  outcome stamp refresh_empty donations_data w r w' ->
  exists added, known_donation_ids w' = added ++ known_donation_ids w.
Proof.
  intros [ | | |]; try (exists []; reflexivity); eexists; reflexivity.
Qed.

Lemma outcome_keeps_records stamp refresh_empty donations_data w r w' :
  outcome stamp refresh_empty donations_data w r w' ->
  keeps_records (donations_file w) (donations_file w').
Proof.
  intros [ |old entries T L I P F N|l entries sorted T L I P F S|e added T A];
    try apply keeps_records_refl.
  intros l0 L0. rewrite L in L0. inversion L0; subst l0.
  eexists sorted, _. split; [reflexivity|].
  apply (sort_items_perm _ _ _ _ S).
Qed.

Lemma init_files f t :
  donations_file (snd (init f t)) = f /\
  total_raised_file (snd (init f t)) = t /\
  trace (snd (init f t)) = [].
Proof.
  unfold init, load_existing_data, bind, gets, try_except, lift, modify, ret.
  cbn [donations_file blank].
  destruct (path_exists f); [|repeat split].
  destruct (read_json f) as [j|e]; cbn.
  - destruct (py_iter j) as [entries|e]; cbn.
    + destruct (collect_ids entries []) as [ids|e]; cbn.
      * repeat split.
      * destruct (caught e); repeat split.
    + destruct (caught e); repeat split.
  - destruct (caught e); repeat split.
Qed.

Lemma known_kept_ingest stamp refresh_empty d w :
  known_kept w (snd (ingest stamp refresh_empty d w)).
Proof.
  destruct (ingest stamp refresh_empty d w) as [r w'] eqn:E.
  apply ingest_cases, outcome_known in E. destruct E as (added & E).
  unfold known_kept. cbn [snd]. rewrite E. apply incl_appr, incl_refl.
Qed.

Lemma ledger_kept_ingest stamp refresh_empty d w :
  ledger_kept w (snd (ingest stamp refresh_empty d w)).
Proof.
  destruct (ingest stamp refresh_empty d w) as [r w'] eqn:E.
  apply ingest_cases, outcome_keeps_records in E. exact E.
Qed.

(** X7. Within a process no id is forgotten: whatever the calls return or
    raise, the ids of the known-id set stay in it. *)
Theorem known_ids_only_grow (w : world) :
  (forall batches,
      incl (known_donation_ids w)
        (known_donation_ids (feed_monitor batches w))) /\
  (forall calls,
      incl (known_donation_ids w)
        (known_donation_ids (feed_collector calls w))) /\
  (forall float_of_str interval envs c,
      incl (known_donation_ids w)
        (known_donation_ids
           (snd (DonationMonitor.monitor_from float_of_str interval envs c
                   w)))) /\
  (forall float_of_str env,
      incl (known_donation_ids w)
        (known_donation_ids
           (snd (GitHubDonationCollector.run_update float_of_str env w)))).
Proof.
  assert (Rr : forall w, known_kept w w) by (intros; apply incl_refl).
  assert (Rt : forall a b c, known_kept a b -> known_kept b c -> known_kept a c)
    by (intros a b c; apply incl_tran).
  repeat split.
  - intros batches.
    apply (feed_monitor_keeps known_kept Rr Rt known_kept_ingest).
  - intros calls.
    apply (feed_collector_keeps known_kept Rr Rt known_kept_ingest).
  - intros float_of_str interval envs c.
    apply (monitor_from_keeps float_of_str known_kept Rr Rt known_kept_ingest).
    + intros. apply (check_total_keeps float_of_str known_kept Rr Rt);
        intros; apply incl_refl.
    + intros; apply incl_refl.
  - intros float_of_str env.
    apply (run_update_keeps float_of_str known_kept Rr Rt known_kept_ingest).
    intros. apply (update_total_raised_keeps float_of_str known_kept Rr);
      intros; apply incl_refl.
Qed.

Lemma scheduled_run_keeps_records float_of_str env files :
  keeps_records (fst files) (fst (scheduled_run float_of_str env files)).
Proof.
  unfold scheduled_run.
  destruct (init_files (fst files) (snd files)) as (A & _).
  destruct (init (fst files) (snd files)) as [[u|e] w0];
    [|apply keeps_records_refl].
  cbn [snd fst] in *. rewrite <- A at 1.
  apply (run_update_keeps float_of_str ledger_kept).
  - intros; apply keeps_records_refl.
  - intros a b c; apply keeps_records_trans.
  - apply ledger_kept_ingest.
  - intros. apply (update_total_raised_keeps float_of_str ledger_kept);
      intros; apply keeps_records_refl.
Qed.

Lemma scheduled_runs_keep_records float_of_str envs :
  forall files,
    keeps_records (fst files) (fst (scheduled_runs float_of_str envs files)).
Proof.
  induction envs as [|env envs' IH]; intros files;
    [apply keeps_records_refl|].
  cbn [scheduled_runs fold_left].
  eapply keeps_records_trans; [apply scheduled_run_keeps_records|apply IH].
Qed.

(** X6. No record is ever dropped or altered: when the ledger on disk loads
    to the list [l], the ledger after any calls of the ingestion functions,
    any turns of [monitor], or any runs of the collector in new processes
    loads to a permutation of [l] and further records. *)
Theorem ledger_only_grows (w : world) (l : list json) :
  load_or_empty (donations_file w) = Ok (JArr l) ->
  (forall batches,
      exists l' recs,
        load_or_empty (donations_file (feed_monitor batches w))
        = Ok (JArr l') /\ Permutation l' (l ++ recs)) /\
  (forall calls,
      exists l' recs,
        load_or_empty (donations_file (feed_collector calls w))
        = Ok (JArr l') /\ Permutation l' (l ++ recs)) /\
  (forall float_of_str interval envs c,
      exists l' recs,
        load_or_empty
          (donations_file
             (snd (DonationMonitor.monitor_from float_of_str interval envs c
                     w)))
        = Ok (JArr l') /\ Permutation l' (l ++ recs)) /\
  (forall float_of_str envs t,
      exists l' recs,
        load_or_empty
          (fst (scheduled_runs float_of_str envs (donations_file w, t)))
        = Ok (JArr l') /\ Permutation l' (l ++ recs)).
Proof.
  intros L.
  assert (Rr : forall w, ledger_kept w w)
    by (intros; apply keeps_records_refl).
  assert (Rt : forall a b c,
             ledger_kept a b -> ledger_kept b c -> ledger_kept a c)
    by (intros a b c; apply keeps_records_trans).
  repeat split.
  - intros batches.
    apply (feed_monitor_keeps ledger_kept Rr Rt ledger_kept_ingest batches w l
             L).
  - intros calls.
    apply (feed_collector_keeps ledger_kept Rr Rt ledger_kept_ingest calls w l
             L).
  - intros float_of_str interval envs c.
    assert (Ht : forall env found w0,
               ledger_kept w0
                 (snd (DonationMonitor.check_total float_of_str env found w0))).
    { intros. apply (check_total_keeps float_of_str ledger_kept Rr Rt);
        intros; apply keeps_records_refl. }
    assert (Hs : forall n w0, ledger_kept w0 (sleep n w0))
      by (intros; apply keeps_records_refl).
    apply (monitor_from_keeps float_of_str ledger_kept Rr Rt ledger_kept_ingest
             Ht Hs interval envs c w l L).
  - intros float_of_str envs t.
    apply (scheduled_runs_keep_records float_of_str envs (donations_file w, t)
             l L).
Qed.

(** ** Ties in the order of the ledger *)

Lemma ltb_irrefl (s : string) : String.ltb s s = false.
Proof.
  destruct (String.ltb s s) eqn:E; [|reflexivity].
  pose proof (ltb_asym s s E). congruence.
Qed.

Lemma insert_stable x l :
  forall r,
    text_key x -> Forall text_key l -> insert x l = Ok r ->
    forall k,
      filter (key_at k) r =
      if key_at k x then x :: filter (key_at k) l else filter (key_at k) l.
Proof.
  induction l as [|y l IH]; intros r Tx Tl E k; cbn [insert] in E.
  - inversion E; subst. cbn. destruct (key_at k x); reflexivity.
  - inversion Tl as [|? ? Ty Tl']; subst.
    destruct Tx as [sx Ex], Ty as [sy Ey].
    rewrite Ex, Ey in E. cbn [py_lt res_bind] in E.
    destruct (String.ltb sy sx) eqn:L.
    + destruct (insert x l) as [r'|] eqn:I; [|discriminate].
      cbn in E. inversion E; subst r. cbn [filter].
      rewrite (IH r' (ex_intro _ sx Ex) Tl' eq_refl k).
      set (F := filter (key_at k) l).
      unfold key_at. rewrite Ex, Ey. cbn [key_text].
      destruct (String.eqb_spec sy k) as [->|Ny]; [|reflexivity].
      destruct (String.eqb_spec sx k) as [->|Nx]; [|reflexivity].
      rewrite ltb_irrefl in L. discriminate.
    + inversion E; subst r. cbn [filter].
      destruct (key_at k x); reflexivity.
Qed.

Lemma sort_asc_stable l :
  forall s,
    Forall text_key l -> sort_asc l = Ok s ->
    forall k, filter (key_at k) s = filter (key_at k) l.
Proof.
  induction l as [|x l IH]; intros s T E k; cbn [sort_asc] in E.
  - inversion E. reflexivity.
  - inversion T as [|? ? Tx Tl]; subst.
    destruct (sort_asc l) as [s'|] eqn:S; [|discriminate]. cbn in E.
    assert (Ts' : Forall text_key s').
    { apply sort_asc_perm in S.
      apply (Permutation_Forall (Permutation_sym S)), Tl. }
    rewrite (insert_stable x s' s Tx Ts' E k), (IH s' Tl eq_refl k).
    reflexivity.
Qed.

Lemma filter_map_snd k ps :
  Forall (fun p => completed_at_key (snd p) = Ok (fst p)) ps ->
  filter (at_time k) (map snd ps) = map snd (filter (key_at k) ps).
Proof.
  induction 1 as [|p ps Hp _ IH]; [reflexivity|]. cbn [map filter].
  unfold at_time at 1, key_at at 1.
  rewrite (completed_at_of_key _ _ Hp), IH.
  destruct (_ =? _)%string; reflexivity.
Qed.

(** The sort of the ledger is stable: the records with one [completed_at]
    come out in the order they went in. *)
Lemma sort_items_stable l s :
  sort_items completed_at_key true l = Ok s ->
  Forall text_or_none l ->
  forall k, filter (at_time k) s = filter (at_time k) l.
Proof.
  unfold sort_items. intros H T k.
  destruct (mapM completed_at_key l) as [ks|] eqn:M; [|discriminate].
  cbn [res_bind] in H.
  pose proof (combine_keys _ _ _ M) as Ck.
  apply mapM_length in M.
  destruct (sort_asc (rev (combine ks l))) as [s'|] eqn:S; [|discriminate].
  cbn in H. inversion H; subst s. clear H.
  assert (Tk : Forall text_or_none_key (rev (combine ks l))).
  { apply Forall_rev. rewrite Forall_forall in *. intros p I.
    assert (Il : In (snd p) l).
    { destruct p as [k0 r]. apply in_combine_r in I. exact I. }
    destruct (T _ Il) as (k0 & E & Hk). specialize (Ck p I). cbn in Ck.
    rewrite E in Ck. inversion Ck as [Ek]. rewrite Ek in Hk. exact Hk. }
  pose proof (sort_asc_perm _ _ S) as P.
  assert (Ck' : Forall (fun p => completed_at_key (snd p) = Ok (fst p))
                  (rev s')).
  { apply Forall_rev.
    apply (Permutation_Forall (Permutation_sym P)), Forall_rev, Ck. }
  rewrite (filter_map_snd k _ Ck').
  replace (filter (at_time k) l)
    with (filter (at_time k) (map snd (combine ks l)))
    by (rewrite (map_snd_combine ks l M); reflexivity).
  rewrite (filter_map_snd k _ Ck). f_equal.
  destruct (sort_asc_ok_text _ _ Tk S) as [Len|Tx].
  - assert (E : s' = rev (combine ks l)).
    { rewrite <- (Permutation_length P) in Len.
      destruct s' as [|p [|q s']]; cbn in Len; try lia.
      - apply Permutation_nil in P. exact (eq_sym P).
      - apply Permutation_length_1_inv in P. exact (eq_sym P). }
    rewrite E, rev_involutive. reflexivity.
  - rewrite filter_rev, (sort_asc_stable _ _ Tx S k), filter_rev,
      rev_involutive.
    reflexivity.
Qed.

(** X5. Among the records of a saved ledger that carry one [completed_at],
    the old ones come first, in the order they had, and the new ones
    follow in the order of the batch (the [completed_at] being strings or
    missing). *)
Theorem ties_keep_their_order (donations_data : json) (w w' : world) :
  (DonationMonitor.save_new_donations donations_data w = (Ok true, w') ->
   ties_in_order DonationMonitor.stamp donations_data w w') /\
  (forall utcnow,
      GitHubDonationCollector.update_donations utcnow donations_data w
      = (Ok true, w') ->
      ties_in_order (GitHubDonationCollector.stamp utcnow) donations_data w
        w').
Proof.
  assert (G : forall stamp refresh_empty,
            ingest stamp refresh_empty donations_data w = (Ok true, w') ->
            ties_in_order stamp donations_data w w').
  { intros stamp refresh_empty H. apply ingest_cases in H.
    inversion H as [Tf Er Ew|old entries _ L It P F Rf Er Ew
                   |l entries sorted _ L It P N S Er Ew|e added _ Ha Er Ew].
    exists l, entries, sorted. repeat split; auto.
    intros T. apply (sort_items_stable _ _ S).
    apply (Permutation_Forall (sort_items_perm _ _ _ _ S)), T. }
  split.
  - rewrite save_new_donations_ingest. apply G.
  - intros utcnow. rewrite update_donations_ingest. apply G.
Qed.

(** ** The same batch after a restart *)

Lemma collect_ids_from l :
  forall acc ids,
    collect_ids l acc = Ok ids ->
    forall x, In x ids ->
              In x acc \/
              exists r, In r l /\ py_contains "id" r = Ok true /\
                        record_id r = x.
Proof.
  induction l as [|r l IH]; intros acc ids C x I; cbn [collect_ids] in C.
  - inversion C; subst. left. exact I.
  - destruct (py_contains "id" r) as [[|]|] eqn:K; cbn [res_bind] in C;
      try discriminate.
    + destruct (py_get r "id" JNull) as [i|] eqn:G; [|discriminate].
      cbn [res_bind] in C.
      destruct (py_add i acc) as [acc'|] eqn:A; [|discriminate].
      cbn [res_bind] in C.
      assert (Ei : record_id r = i)
        by (unfold record_id; rewrite G; reflexivity).
      destruct (IH acc' ids C x I) as [Ia|(r' & Ir & Kr & Er)].
      * unfold py_add in A. destruct (hashable i); [|discriminate].
        inversion A; subst acc'.
        destruct (set_mem i acc); [left; exact Ia|].
        destruct Ia as [<-|Ia]; [|left; exact Ia].
        right. exists r. repeat split; auto. left. reflexivity.
      * right. exists r'. repeat split; auto. right. exact Ir.
    + destruct (IH acc ids C x I) as [Ia|(r' & Ir & Kr & Er)];
        [left; exact Ia|].
      right. exists r'. repeat split; auto. right. exact Ir.
Qed.

Lemma init_known_from_ledger f t w l :
  init f t = (Ok tt, w) -> load_or_empty f = Ok (JArr l) ->
  forall x, In x (known_donation_ids w) ->
            exists r, In r l /\ py_contains "id" r = Ok true /\
                      record_id r = x.
Proof.
  unfold init, load_existing_data, bind, gets, try_except, lift, modify, ret.
  cbn [donations_file blank].
  destruct f as [|[j|e0]]; cbn; intros I L.
  - inversion I; subst. intros x [].
  - inversion L; subst j. cbn in I.
    destruct (collect_ids l []) as [ids|e] eqn:C; cbn in I.
    + inversion I; subst w. cbn. intros x Ix.
      destruct (collect_ids_from l [] ids C x Ix) as [F|H];
        [destruct F|exact H].
    + destruct (caught e); cbn in I; [|discriminate].
      inversion I; subst w. intros x [].
  - destruct (caught e0); cbn in I; [|discriminate].
    inversion I; subst w. intros x [].
Qed.

Lemma records_of_in stamp ds :
  forall n d,
    In d ds -> exists m, In (record_of stamp m d) (records_of stamp n ds).
Proof.
  induction ds as [|d0 ds IH]; intros n d I; [destruct I|].
  destruct I as [E|I]; cbn [records_of].
  - subst. exists n. left. reflexivity.
  - destruct (IH (S n) d I) as (m & Hm). exists m. right. exact Hm.
Qed.

(** A second process over the ledger a first one left finds every id of
    the batch the first one got through. *)
Lemma restart_known stamp stamp' refresh_empty f t t' batch changed w1 :
  stored_ok f ->
  ingest stamp refresh_empty (JArr batch) (snd (init f t)) = (Ok changed, w1) ->
  (refresh_empty = true ->
   load_or_empty (donations_file w1) <> Ok (JArr [])) ->
  fst (init (donations_file w1) t') = Ok tt /\
  ingest stamp' refresh_empty (JArr batch) (snd (init (donations_file w1) t'))
  = (Ok false, snd (init (donations_file w1) t')).
Proof.
  intros S H NE.
  destruct (init_consistent f t S) as (w & I & C & Fw & _).
  rewrite I in H. cbn [snd] in H.
  pose proof (init_known_from_ledger f t w) as From. specialize (From).
  pose proof (ingest_cases _ _ _ _ _ _ H) as O.
  assert (C1 : consistent w1) by (apply (outcome_consistent _ _ _ _ _ _ O C)).
  destruct (init_consistent (donations_file w1) t' (consistent_stored_ok _ C1))
    as (w2 & I2 & C2 & Fw2 & _).
  rewrite I2. cbn [fst snd]. split; [reflexivity|].
  destruct batch as [|d0 batch0].
  { unfold ingest. reflexivity. }
  set (batch := d0 :: batch0) in *.
  destruct C2 as (Hk2 & l2 & L2 & D2 & In2 & Hi2).
  rewrite Fw2 in L2.
  (* what the first call found, and where its ids are now *)
  assert (K : exists l,
             load_or_empty f = Ok (JArr l) /\
             Forall (fun d => passes d = true) batch /\
             Forall (fun d => is_dict d = true) 
               (fresh_entries (known_donation_ids w) batch) /\
             forall r,
               In r (l ++ records_of stamp 0
                            (fresh_entries (known_donation_ids w) batch)) ->
               In r l2).
  { destruct C as (_ & l & L & _). rewrite Fw in L.
    exists l. split; [exact L|].
    inversion O as [Tf Er Ew|old entries _ L' It P F Rf Er Ew
                   |l' entries sorted _ L' It P N Srt Er Ew|e added _ Ha Er Ew];
      try discriminate.
    - subst w1. rewrite Fw, L in L2. inversion L2; subst l2.
      cbn in It. inversion It; subst entries.
      split; [exact P|]. rewrite F. cbn [records_of]. rewrite app_nil_r.
      split; [constructor|auto].
    - rewrite Fw, L in L'. inversion L'; subst l'.
      cbn in It. inversion It; subst entries.
      split; [exact P|].
      split.
      { apply Forall_impl with (2 := fresh_entries_facts batch _ P). tauto. }
      subst w1. cbn in L2. inversion L2; subst l2.
      intros r Ir.
      apply (Permutation_in _ (Permutation_sym (sort_items_perm _ _ _ _ Srt))).
      exact Ir. }
  destruct K as (l & L & P & Fd & Sub).
  assert (Known : Forall (fun d => is_dict d = true /\
                            (truthy (record_id d) = false \/
                             py_in (record_id d) (known_donation_ids w2)
                             = Ok true)) batch).
  { pose proof (fresh_covers batch (known_donation_ids w) P) as Cov.
    rewrite Forall_forall in *. intros d Id.
    specialize (P d Id). specialize (Cov d Id).
    destruct (truthy (record_id d)) eqn:T.
    - destruct (passes_truthy d P T) as [Dd Hd]. split; [exact Dd|]. right.
      unfold py_in. rewrite Hd. f_equal.
      specialize (Cov eq_refl). unfold set_mem in Cov |- *.
      apply existsb_exists in Cov. destruct Cov as (e & Ie & Ee).
      apply existsb_exists. exists e. split; [|exact Ee].
      apply in_app_or in Ie. destruct Ie as [Ie|Ie].
      + apply in_rev, in_map_iff in Ie. destruct Ie as (d' & Ed & Id').
        destruct (records_of_in stamp _ 0%nat d' Id') as (m & Hm).
        assert (Ir : In (record_of stamp m d') l2).
        { apply Sub, in_or_app. right. exact Hm. }
        specialize (In2 _ Ir). cbn beta in In2.
        rewrite record_id_record_of in In2 by (apply (Fd d' Id')).
        rewrite Ed in In2. exact In2.
      + destruct (From l I L e Ie) as (r & Ir & _ & Er).
        assert (Ir2 : In r l2) by (apply Sub, in_or_app; left; exact Ir).
        specialize (In2 _ Ir2). cbn beta in In2. rewrite Er in In2. exact In2.
    - unfold passes in P. apply andb_true_iff in P. destruct P as [Dd _].
      split; [exact Dd|]. left. reflexivity. }
  rewrite (ingest_known stamp' refresh_empty batch w2 (JArr l2)); auto.
  - destruct refresh_empty; [|reflexivity].
    destruct l2 as [|r l2]; [|reflexivity].
    exfalso. apply NE; auto.
  - discriminate.
  - rewrite Fw2. exact L2.
Qed.

(** X8. Run again in a new process on the payload of a run that returned,
    either class finds nothing new: the call returns [False] and the
    ledger stays as the first run left it.  (In the collector unless that
    ledger is empty, see C4.) *)
Theorem same_batch_after_restart (f t t' : file) (batch : list json) :
  stored_ok f ->
  (forall changed w1,
      DonationMonitor.save_new_donations (JArr batch) (snd (init f t))
      = (Ok changed, w1) ->
      fst (init (donations_file w1) t') = Ok tt /\
      DonationMonitor.save_new_donations (JArr batch)
        (snd (init (donations_file w1) t'))
      = (Ok false, snd (init (donations_file w1) t'))) /\
  (forall utcnow utcnow' changed w1,
      GitHubDonationCollector.update_donations utcnow (JArr batch)
        (snd (init f t))
      = (Ok changed, w1) ->
      load_or_empty (donations_file w1) <> Ok (JArr []) ->
      fst (init (donations_file w1) t') = Ok tt /\
      GitHubDonationCollector.update_donations utcnow' (JArr batch)
        (snd (init (donations_file w1) t'))
      = (Ok false, snd (init (donations_file w1) t'))).
Proof.
  intros S. split.
  - intros changed w1 H. rewrite save_new_donations_ingest in *.
    apply (restart_known _ _ false f t t' batch changed w1 S H).
    discriminate.
  - intros utcnow utcnow' changed w1 H NE.
    rewrite update_donations_ingest in *.
    apply (restart_known _ _ true f t t' batch changed w1 S H). auto.
Qed.

(** ** The known-id set after [__init__] *)

Lemma set_mem_incl x a b :
  incl a b -> set_mem x a = true -> set_mem x b = true.
Proof.
  unfold set_mem. intros I E. apply existsb_exists in E.
  destruct E as (e & Ie & Ee). apply existsb_exists. exists e. auto.
Qed.

Lemma collect_ids_total l :
  forall acc,
    Forall (fun r => is_dict r = true /\ hashable (record_id r) = true) l ->
    exists ids,
      collect_ids l acc = Ok ids /\ incl acc ids /\
      forall r, In r l -> py_contains "id" r = Ok true ->
                In (record_id r) ids \/ set_mem (record_id r) ids = true.
Proof.
  induction l as [|r l IH]; intros acc F.
  - exists acc. repeat split; [apply incl_refl|]. intros r [].
  - inversion F as [|? ? [Dr Hr] F']; subst.
    destruct r as [ | | | | | |kv]; try discriminate.
    cbn [collect_ids py_contains].
    destruct (lookup "id" kv) as [i|] eqn:Lk; cbn [res_bind].
    + assert (Ei : record_id (JObj kv) = i)
        by (unfold record_id; cbn; rewrite Lk; reflexivity).
      cbn [py_get]. rewrite Lk. cbn [res_bind]. unfold py_add.
      rewrite Ei in Hr. rewrite Hr. cbn [res_bind].
      destruct (IH (if set_mem i acc then acc else i :: acc) F')
        as (ids & C & Inc & Cov).
      exists ids. split; [exact C|]. split.
      * intros a Ia. apply Inc. destruct (set_mem i acc); [|right]; exact Ia.
      * intros r [<-|Ir] K; [|apply (Cov r Ir K)].
        rewrite Ei. destruct (set_mem i acc) eqn:Mi.
        -- right. apply (set_mem_incl _ _ _ Inc Mi).
        -- left. apply Inc. left. reflexivity.
    + destruct (IH acc F') as (ids & C & Inc & Cov).
      exists ids. split; [exact C|]. split; [exact Inc|].
      intros r [<-|Ir] K; [|apply (Cov r Ir K)].
      cbn in K. rewrite Lk in K. discriminate.
Qed.

Lemma collect_ids_count l :
  forall acc ids,
    Forall has_id l ->
    unlike_ids l ->
    Forall (fun r => forall a, In a acc -> py_same a (record_id r) = false)
      l ->
    collect_ids l acc = Ok ids ->
    List.length ids = (List.length l + List.length acc)%nat.
Proof.
  induction l as [|r l IH]; intros acc ids Hi D N C.
  - cbn in C. inversion C. reflexivity.
  - inversion Hi as [|? ? [Dr Cr] Hi']; subst.
    inversion N as [|? ? Nr N']; subst.
    destruct D as [Fr D].
    cbn [collect_ids] in C. rewrite Cr in C. cbn [res_bind] in C.
    assert (G : py_get r "id" JNull = Ok (record_id r))
      by (destruct r; try discriminate; reflexivity).
    rewrite G in C. cbn [res_bind] in C. unfold py_add in C.
    destruct (hashable (record_id r)); [|discriminate].
    assert (M : set_mem (record_id r) acc = false).
    { unfold set_mem. apply not_true_is_false. intros E.
      apply existsb_exists in E. destruct E as (a & Ia & Ea).
      rewrite (Nr a Ia) in Ea. discriminate. }
    rewrite M in C. cbn [res_bind] in C.
    assert (N2 : Forall (fun r' => forall a, In a (record_id r :: acc) ->
                                      py_same a (record_id r') = false) l).
    { rewrite Forall_forall in *. intros r' I a [E|Ia].
      - subst a. apply (Fr r' I).
      - apply (N' r' I a Ia). }
    rewrite (IH (record_id r :: acc) ids Hi' D N2 C).
    cbn [List.length]. lia.
Qed.

(** X9. Building the object over a ledger file that loads to a list of
    dicts with hashable ids puts in the known-id set the ids of the
    records that have the key ['id'], and nothing else; over a ledger
    whose records all have the key and no two of which carry one id (ids
    neither equal nor the same NaN), one element for each record. *)
Theorem known_ids_after_init (l : list json) (t : file) :
  Forall (fun r => is_dict r = true /\ hashable (record_id r) = true) l ->
  exists w,
    init (Stored (JArr l)) t = (Ok tt, w) /\
    (forall x, In x (known_donation_ids w) ->
               exists r, In r l /\ py_contains "id" r = Ok true /\
                         record_id r = x) /\
    (forall r, In r l -> py_contains "id" r = Ok true ->
               py_in (record_id r) (known_donation_ids w) = Ok true) /\
    (Forall has_id l -> unlike_ids l ->
     List.length (known_donation_ids w) = List.length l).
Proof.
  intros F.
  destruct (collect_ids_total l [] F) as (ids & C & _ & Cov).
  exists (set_known ids (blank (Stored (JArr l)) t)).
  assert (I : init (Stored (JArr l)) t
              = (Ok tt, set_known ids (blank (Stored (JArr l)) t))).
  { unfold init, load_existing_data, bind, gets, try_except, lift, modify.
    cbn. rewrite C. reflexivity. }
  split; [exact I|]. cbn [known_donation_ids set_known].
  split; [|split].
  - intros x Ix. destruct (collect_ids_from l [] ids C x Ix) as [[]|H].
    exact H.
  - intros r Ir K. unfold py_in.
    rewrite Forall_forall in F. destruct (F r Ir) as [_ Hr]. rewrite Hr.
    f_equal. destruct (Cov r Ir K) as [I'|M]; [|exact M].
    apply (set_mem_in _ _ I' Hr).
  - intros Hi D.
    rewrite (collect_ids_count l [] ids Hi D); [cbn; lia| |exact C].
    apply Forall_forall. intros r _ a [].
Qed.

(** ** The pauses of [monitor] *)

Section Pauses.

Variable float_of_str : string -> res spec_float.

Lemma monitor_cycle_bound interval env c w :
  0 <= c <= 4 ->
  let c' := fst (DonationMonitor.monitor_cycle float_of_str interval env c w) in
  let w' := snd (DonationMonitor.monitor_cycle float_of_str interval env c w) in
  0 <= c' <= 4 /\
  5 * Z.of_nat (cooldowns w') + c' <= 5 * Z.of_nat (cooldowns w) + c + 1.
Proof.
  intros B. cbv zeta. rewrite monitor_cycle_counter.
  destruct (DonationMonitor.check_donations env w) as [[found|e] w1] eqn:D.
  - apply check_donations_same_totals in D. destruct D as (_ & _ & _ & D).
    destruct (DonationMonitor.check_total float_of_str env found w1)
      as [[u|e] w2] eqn:T;
      apply check_total_cooldowns in T; cbn [fst snd];
      rewrite drift_sleep_cooldowns.
    + rewrite T, D. destruct (truthy _); lia.
    + rewrite pause_cooldowns, T, D.
      unfold after_exception, pause_after_exception,
        DonationMonitor.max_consecutive_errors.
      destruct (truthy _); destruct (5 <=? _) eqn:L;
        try apply Z.leb_le in L; try apply Z.leb_gt in L; lia.
  - apply check_donations_same_totals in D. destruct D as (_ & _ & _ & D).
    cbn [fst snd]. rewrite drift_sleep_cooldowns, pause_cooldowns, D.
    unfold after_exception, pause_after_exception,
      DonationMonitor.max_consecutive_errors.
    destruct (5 <=? _) eqn:L;
      try apply Z.leb_le in L; try apply Z.leb_gt in L; lia.
Qed.

Lemma monitor_from_bound interval envs :
  forall c w,
    0 <= c <= 4 ->
    let c' :=
      fst (DonationMonitor.monitor_from float_of_str interval envs c w) in
    let w' :=
      snd (DonationMonitor.monitor_from float_of_str interval envs c w) in
    0 <= c' <= 4 /\
    5 * Z.of_nat (cooldowns w') + c'
    <= 5 * Z.of_nat (cooldowns w) + c + Z.of_nat (List.length envs).
Proof.
  induction envs as [|env envs' IH]; intros c w B; cbv zeta.
  - cbn. lia.
  - cbn [DonationMonitor.monitor_from].
    pose proof (monitor_cycle_bound interval env c w B) as A. cbv zeta in A.
    destruct (DonationMonitor.monitor_cycle float_of_str interval env c w)
      as [c1 w1]. cbn [fst snd] in A. destruct A as [B1 A].
    pose proof (IH c1 w1 B1) as H. cbv zeta in H. destruct H as [B2 H].
    split; [exact B2|]. cbn [List.length]. lia.
Qed.

(** X12. The counter of [monitor] stays between 0 and 4 from turn to turn, and
    the loop pauses at most once in five turns. *)
Theorem pauses_are_bounded (interval : spec_float)
    (envs : list DonationMonitor.cycle_env) (w : world) :
  let c' := fst (DonationMonitor.monitor float_of_str interval envs w) in
  let w' := snd (DonationMonitor.monitor float_of_str interval envs w) in
  0 <= c' <= 4 /\
  (5 * (cooldowns w' - cooldowns w) <= List.length envs)%nat /\
  (cooldowns w <= cooldowns w')%nat.
Proof.
  cbv zeta. unfold DonationMonitor.monitor.
  pose proof (monitor_from_bound interval envs 0 w) as A. cbv zeta in A.
  destruct A as [B A]; [lia|].
  split; [exact B|]. split; [lia|].
  apply (monitor_from_keeps float_of_str
           (fun a b => (cooldowns a <= cooldowns b)%nat)); intros.
  - lia.
  - lia.
  - destruct (ingest stamp refresh_empty d w0) as [r w'] eqn:E.
    apply ingest_cases, outcome_same_totals in E.
    destruct E as (_ & _ & _ & E). cbn [snd]. lia.
  - destruct (DonationMonitor.check_total float_of_str env found w0)
      as [r w'] eqn:E.
    apply check_total_cooldowns in E. cbn [snd]. lia.
  - unfold cooldowns, sleep. cbn [trace filter].
    destruct (is_cooldown (Sleep n)); cbn [List.length]; lia.
Qed.

End Pauses.

(** ** The series of samples *)

Lemma same_series_refl w : same_series w w.
Proof. repeat split. Qed.

Lemma same_series_trans a b c :
  same_series a b -> same_series b c -> same_series a c.
Proof.
  unfold same_series. intros (A & B & C) (D & E & F).
  repeat split; congruence.
Qed.

Lemma same_totals_series w w' : same_totals w w' -> same_series w w'.
Proof. intros (A & B & C & _). repeat split; auto. Qed.

Lemma same_series_sleep n w : same_series w (sleep n w).
Proof. repeat split. Qed.

Section Series.

Variable float_of_str : string -> res spec_float.

Lemma check_total_effect env found w r w' :
  DonationMonitor.check_total float_of_str env found w = (r, w') ->
  w' = w \/
  (r = Ok tt /\ found = true /\
   exists series current,
     load_or_empty (total_raised_file w) = Ok (JArr series) /\
     total_amount float_of_str
       (get_total_raised (DonationMonitor.total_response env)) = Ok current /\
     gate_open (last_total w) current /\
     w' = set_last_total (Some current)
            (dump_totals
               (JArr (series ++
                      [monitor_sample (DonationMonitor.time_ms env) current]))
               w)).
Proof.
  unfold DonationMonitor.check_total, total_amount.
  set (total_data := get_total_raised (DonationMonitor.total_response env)).
  destruct (truthy total_data) eqn:T; cbn [andb].
  2:{ intros H. inversion H. auto. }
  destruct found.
  2:{ intros H. inversion H. auto. }
  unfold bind at 1. unfold lift at 1.
  destruct (py_get total_data "total_raised" (JInt 0)) as [v|e] eqn:G.
  2:{ intros H. inversion H. auto. }
  unfold bind at 1. unfold lift at 1.
  destruct (py_float float_of_str v) as [current|e] eqn:F.
  2:{ intros H. inversion H. auto. }
  unfold bind at 1. unfold gets at 1.
  destruct (match last_total w with
            | Some t => float_ne current t
            | None => true
            end) eqn:Gate.
  2:{ intros H. inversion H. auto. }
  unfold DonationMonitor.save_total_raised_update.
  unfold bind, lift, gets, modify. rewrite G, F.
  destruct (load_or_empty (total_raised_file w)) as [updates|e].
  2:{ intros H. inversion H. auto. }
  destruct updates as [ | | | | |series| ]; cbn [py_append];
    try (intros H; inversion H; auto; fail).
  intros H. inversion H. right. repeat split.
  exists series, current. cbn [res_bind]. rewrite F. repeat split.
  unfold gate_open. destruct (last_total w); auto.
Qed.

(** What a turn of [monitor] does to the series: nothing, or one sample
    more. *)
Lemma monitor_cycle_series interval env c w :
  let w' := snd (DonationMonitor.monitor_cycle float_of_str interval env c w) in
  same_series w w' \/
  exists series current,
    load_or_empty (total_raised_file w) = Ok (JArr series) /\
    gate_open (last_total w) current /\
    last_total w' = Some current /\
    total_raised_file w' =
    Stored (JArr (series ++
                  [monitor_sample (DonationMonitor.time_ms env) current])) /\
    total_saves w' = S (total_saves w).
Proof.
  cbv zeta. rewrite monitor_cycle_counter.
  destruct (DonationMonitor.check_donations env w) as [[found|e] w1] eqn:D;
    apply check_donations_same_totals, same_totals_series in D.
  - destruct (DonationMonitor.check_total float_of_str env found w1)
      as [r w2] eqn:T.
    apply check_total_effect in T.
    assert (K : forall w3, same_series w2 w3 ->
                same_series w w3 \/
                exists series current,
                  load_or_empty (total_raised_file w) = Ok (JArr series) /\
                  gate_open (last_total w) current /\
                  last_total w3 = Some current /\
                  total_raised_file w3 =
                  Stored (JArr (series ++
                                [monitor_sample (DonationMonitor.time_ms env)
                                   current])) /\
                  total_saves w3 = S (total_saves w)).
    { intros w3 (A3 & B3 & C3).
      destruct D as (A1 & B1 & C1).
      destruct T as [->|(_ & _ & series & current & L & _ & G & ->)].
      - left. repeat split; congruence.
      - right. exists series, current. rewrite B1, A1 in *.
        split; [exact L|]. split; [exact G|].
        rewrite A3, B3, C3. cbn. unfold total_saves in *. cbn.
        repeat split. f_equal. exact C1. }
    destruct r as [u|e]; cbn [snd]; apply K.
    + destruct (num_ltb _ _); [apply same_series_sleep|apply same_series_refl].
    + destruct (_ <=? _); destruct (num_ltb _ _);
        repeat split.
  - cbn [snd]. left. apply (same_series_trans _ _ _ D).
    destruct (_ <=? _); destruct (num_ltb _ _); repeat split.
Qed.

Lemma last_100_when_capped (l : list json) :
  (if (100 <? List.length l)%nat
   then GitHubDonationCollector.last_100 l else l)
  = GitHubDonationCollector.last_100 l.
Proof.
  destruct (100 <? List.length l)%nat eqn:E; [reflexivity|].
  apply Nat.ltb_ge in E. unfold GitHubDonationCollector.last_100.
  replace (List.length l - 100)%nat with 0%nat by lia. reflexivity.
Qed.

Lemma update_total_raised_effect time_ms now total_data w r w' :
  GitHubDonationCollector.update_total_raised float_of_str time_ms now
    total_data w = (r, w') ->
  (w' = w /\
   ((r = Ok false /\ truthy total_data = false) \/ exists e, r = Raise e)) \/
  (r = Ok true /\ truthy total_data = true /\
   exists series amount,
     load_or_empty (total_raised_file w) = Ok (JArr series) /\
     total_amount float_of_str total_data = Ok amount /\
     w' = dump_totals
            (JArr (GitHubDonationCollector.last_100
                     (series ++ [collector_sample time_ms now amount])))
            w).
Proof.
  unfold GitHubDonationCollector.update_total_raised, total_amount.
  destruct (truthy total_data) eqn:T; cbn [negb].
  2:{ intros H. inversion H. left. split; [reflexivity|]. left. auto. }
  unfold bind, lift, gets, modify, ret.
  destruct (py_get total_data "total_raised" (JInt 0)) as [v|e].
  2:{ intros H. inversion H. left. split; [reflexivity|]. right. eauto. }
  cbn [res_bind].
  destruct (py_float float_of_str v) as [amount|e].
  2:{ intros H. inversion H. left. split; [reflexivity|]. right. eauto. }
  destruct (load_or_empty (total_raised_file w)) as [updates|e].
  2:{ intros H. inversion H. left. split; [reflexivity|]. right. eauto. }
  destruct updates as [ | | | | |series| ]; cbn [py_append];
    try (intros H; inversion H; left; split; [reflexivity|]; right; eauto;
         fail).
  intros H. inversion H. right. repeat split.
  exists series, amount. repeat split.
  unfold collector_sample. destruct (100 <? _)%nat eqn:E.
  - reflexivity.
  - rewrite <- (last_100_when_capped (series ++ _)), E. reflexivity.
Qed.

(** What a call of [run_update] does to the series: it returns [True]
    after one sample more, or [False] after none; it raises nothing. *)
Lemma run_update_series env w :
  let r := fst (GitHubDonationCollector.run_update float_of_str env w) in
  let w' := snd (GitHubDonationCollector.run_update float_of_str env w) in
  (r = Ok false /\ same_series w w') \/
  (r = Ok true /\
   truthy (get_donations (GitHubDonationCollector.donations_response env))
   = true /\
   truthy (get_total_raised (GitHubDonationCollector.total_response env))
   = true /\
   exists series amount,
     load_or_empty (total_raised_file w) = Ok (JArr series) /\
     total_amount float_of_str
       (get_total_raised (GitHubDonationCollector.total_response env))
     = Ok amount /\
     total_raised_file w' =
     Stored (JArr (GitHubDonationCollector.last_100
                     (series ++
                      [collector_sample (GitHubDonationCollector.time_ms env)
                         (GitHubDonationCollector.last_updated env) amount])))
     /\
     last_total w' = last_total w /\
     total_saves w' = S (total_saves w)).
Proof.
  cbv zeta. unfold GitHubDonationCollector.run_update, try_except.
  destruct (truthy (get_donations _)) eqn:Td;
    [|left; split; [reflexivity|apply same_series_refl]].
  unfold bind, ret.
  destruct (GitHubDonationCollector.update_donations _ _ w) as [r1 w1] eqn:U.
  rewrite update_donations_ingest in U.
  apply ingest_cases, outcome_same_totals, same_totals_series in U.
  destruct r1 as [changed|e]; [|left; split; [reflexivity|exact U]].
  destruct (truthy (get_total_raised _)) eqn:Tt;
    [|left; split; [reflexivity|exact U]].
  destruct (GitHubDonationCollector.update_total_raised _ _ _ _ w1)
    as [r2 w2] eqn:V.
  apply update_total_raised_effect in V.
  destruct U as (A1 & B1 & C1).
  destruct V as [[-> [[_ N]|[e ->]]]|(-> & _ & series & amount & L & F & ->)].
  - congruence.
  - left. cbn [fst snd]. split; [reflexivity|]. repeat split; auto.
  - right. cbn [fst snd]. split; [reflexivity|].
    split; [reflexivity|]. split; [reflexivity|].
    exists series, amount. rewrite B1 in L.
    split; [exact L|]. split; [exact F|]. split; [reflexivity|].
    split; [exact A1|].
    unfold total_saves in *. cbn. f_equal. exact C1.
Qed.

Lemma update_total_raised_saves time_ms now total_data w series amount :
  truthy total_data = true ->
  total_amount float_of_str total_data = Ok amount ->
  load_or_empty (total_raised_file w) = Ok (JArr series) ->
  GitHubDonationCollector.update_total_raised float_of_str time_ms now
    total_data w
  = (Ok true,
     dump_totals
       (JArr (GitHubDonationCollector.last_100
                (series ++ [collector_sample time_ms now amount])))
       w).
Proof.
  intros T A L.
  unfold GitHubDonationCollector.update_total_raised, total_amount in *.
  rewrite T. cbn [negb]. unfold bind, lift, gets, modify, ret.
  destruct (py_get total_data "total_raised" (JInt 0)) as [v|e];
    [|discriminate].
  cbn [res_bind] in A. rewrite A, L. cbn [py_append].
  unfold collector_sample. destruct (100 <? _)%nat eqn:E.
  - reflexivity.
  - rewrite <- (last_100_when_capped (series ++ _)), E. reflexivity.
Qed.

(** The collector has no gate.  When both fetches give truthy payloads
    and [update_donations] returns, with [True] or with [False], and the
    fetched amount converts and the series loads as a list, [run_update]
    saves a sample and returns [True]; and it saves a sample in no other
    case. *)
Lemma run_update_no_gate (run : GitHubDonationCollector.update_env)
    (w0 : world) :
  let donations_data :=
    get_donations (GitHubDonationCollector.donations_response run) in
  let total_data :=
    get_total_raised (GitHubDonationCollector.total_response run) in
  let updated :=
    GitHubDonationCollector.update_donations
      (GitHubDonationCollector.utcnow run) donations_data w0 in
  let w2 := snd (GitHubDonationCollector.run_update float_of_str run w0) in
  (forall changed amount series,
      truthy donations_data = true ->
      fst updated = Ok changed ->
      truthy total_data = true ->
      total_amount float_of_str total_data = Ok amount ->
      load_or_empty (total_raised_file w0) = Ok (JArr series) ->
      GitHubDonationCollector.run_update float_of_str run w0
      = (Ok true,
         dump_totals
           (JArr (GitHubDonationCollector.last_100
                    (series ++
                     [collector_sample (GitHubDonationCollector.time_ms run)
                        (GitHubDonationCollector.last_updated run) amount])))
           (snd updated))) /\
  (total_saves w2 <> total_saves w0 ->
   truthy donations_data = true /\
   (exists changed, fst updated = Ok changed) /\
   truthy total_data = true /\
   (exists amount, total_amount float_of_str total_data = Ok amount) /\
   (exists series,
       load_or_empty (total_raised_file w0) = Ok (JArr series))).
Proof.
  cbv zeta. unfold GitHubDonationCollector.run_update, try_except.
  destruct (GitHubDonationCollector.update_donations _ _ w0)
    as [r1 w1] eqn:U.
  pose proof U as U'. rewrite update_donations_ingest in U'.
  apply ingest_cases, outcome_same_totals in U'.
  destruct U' as (_ & B1 & C1 & _).
  cbn [fst snd]. split.
  - intros changed amount series Td Er Tt A L. subst r1.
    rewrite Td. unfold bind, ret. rewrite U, Tt.
    rewrite <- B1 in L.
    rewrite (update_total_raised_saves _ _ _ w1 series amount Tt A L).
    reflexivity.
  - destruct (truthy (get_donations _)) eqn:Td;
      [|intros N; exfalso; apply N; reflexivity].
    unfold bind, ret. rewrite U.
    destruct r1 as [changed|e];
      [|intros N; exfalso; apply N; exact C1].
    destruct (truthy (get_total_raised _)) eqn:Tt;
      [|intros N; exfalso; apply N; exact C1].
    destruct (GitHubDonationCollector.update_total_raised _ _ _ _ w1)
      as [r2 w2] eqn:V.
    apply update_total_raised_effect in V.
    destruct V as [[-> _]|(-> & _ & series & amount & L & F & ->)].
    + intros N. exfalso. apply N.
      destruct r2 as [[|]|e]; exact C1.
    + intros _. split; [reflexivity|]. split; [eauto|].
      split; [reflexivity|]. split; [eauto|].
      exists series. rewrite <- B1. exact L.
Qed.

(** C1, amended.  In a turn of the continuous [monitor]: when the
    donations step did not return [True] (it found nothing new, skipped
    the batch, or raised), no sample is saved and neither the
    total-raised file nor [last_total] changes, whatever the fetched
    total; and a sample is saved only if the donations step returned
    [True], the fetched total is truthy, and [last_total] is [None] or
    differs from the fetched amount.  The collector's [run_update] has no
    such gate: when both fetches give truthy payloads, [update_donations]
    returns, with [True] or with [False], the fetched amount converts and
    the series loads as a list, it saves a sample and returns [True]; and
    it saves a sample in no other case. *)
Theorem C1_snapshot_gating (interval : spec_float)
    (env : DonationMonitor.cycle_env) (consecutive_errors : Z) (w : world) :
  let w' :=
    snd (DonationMonitor.monitor_cycle float_of_str interval env
           consecutive_errors w) in
  (fst (DonationMonitor.check_donations env w) <> Ok true ->
   total_saves w' = total_saves w /\
   total_raised_file w' = total_raised_file w /\
   last_total w' = last_total w) /\
  (total_saves w' <> total_saves w ->
   fst (DonationMonitor.check_donations env w) = Ok true /\
   truthy (get_total_raised (DonationMonitor.total_response env)) = true /\
   exists current,
     (let? v := py_get (get_total_raised (DonationMonitor.total_response env))
                  "total_raised" (JInt 0) in
      py_float float_of_str v) = Ok current /\
     match last_total w with
     | None => True
     | Some t => float_ne current t = true
     end) /\
  (forall (run : GitHubDonationCollector.update_env) (w0 : world),
     let donations_data :=
       get_donations (GitHubDonationCollector.donations_response run) in
     let total_data :=
       get_total_raised (GitHubDonationCollector.total_response run) in
     let updated :=
       GitHubDonationCollector.update_donations
         (GitHubDonationCollector.utcnow run) donations_data w0 in
     let w2 :=
       snd (GitHubDonationCollector.run_update float_of_str run w0) in
     (forall changed amount series,
         truthy donations_data = true ->
         fst updated = Ok changed ->
         truthy total_data = true ->
         total_amount float_of_str total_data = Ok amount ->
         load_or_empty (total_raised_file w0) = Ok (JArr series) ->
         GitHubDonationCollector.run_update float_of_str run w0
         = (Ok true,
            dump_totals
              (JArr (GitHubDonationCollector.last_100
                       (series ++
                        [collector_sample
                           (GitHubDonationCollector.time_ms run)
                           (GitHubDonationCollector.last_updated run)
                           amount])))
              (snd updated))) /\
     (total_saves w2 <> total_saves w0 ->
      truthy donations_data = true /\
      (exists changed, fst updated = Ok changed) /\
      truthy total_data = true /\
      (exists amount, total_amount float_of_str total_data = Ok amount) /\
      (exists series,
          load_or_empty (total_raised_file w0) = Ok (JArr series)))).
Proof.
  cbv zeta.
  destruct (monitor_cycle_gate float_of_str interval env consecutive_errors w)
    as [A B].
  split; [exact A|]. split; [exact B|].
  intros run w0. exact (run_update_no_gate run w0).
Qed.

End Series.

Lemma bounded_series_next t future f :
  bounded_series (t :: future) f -> bounded_series future f.
Proof.
  intros (series & ts & L & M & S & B). exists series, ts.
  repeat split; auto.
  apply Forall_impl with (2 := B). intros x F. inversion F; auto.
Qed.

Lemma bounded_series_append t future f series s :
  bounded_series (t :: future) f ->
  Forall (Z.le t) future ->
  load_or_empty f = Ok (JArr series) ->
  timestamp_of s = Some t ->
  bounded_series future (Stored (JArr (series ++ [s]))).
Proof.
  intros (series' & ts & L & M & S & B) Ft L' Ts.
  rewrite L in L'. inversion L'; subst series'.
  exists (series ++ [s]), (ts ++ [t]). split; [reflexivity|].
  split; [rewrite !map_app, M; cbn; rewrite Ts; reflexivity|].
  split.
  - apply Sorted_snoc; [exact S|].
    intros l0 b E. rewrite Forall_forall in B.
    assert (Ib : In b ts) by (rewrite E; apply in_or_app; right; left; auto).
    specialize (B b Ib). inversion B; auto.
  - apply Forall_app. split.
    + apply Forall_impl with (2 := B). intros x F. inversion F; auto.
    + constructor; [exact Ft|constructor].
Qed.

Lemma Sorted_skipn {A} (R : A -> A -> Prop) n :
  forall l, Sorted R l -> Sorted R (skipn n l).
Proof.
  induction n as [|n IH]; intros l S; [exact S|].
  destruct l as [|a l]; [exact S|]. cbn. apply IH.
  inversion S; auto.
Qed.

Lemma Forall_skipn' {A} (P : A -> Prop) n :
  forall l, Forall P l -> Forall P (skipn n l).
Proof.
  induction n as [|n IH]; intros l F; [exact F|].
  destruct l as [|a l]; [exact F|]. cbn. apply IH. inversion F; auto.
Qed.

Lemma bounded_series_capped future l :
  bounded_series future (Stored (JArr l)) ->
  bounded_series future (Stored (JArr (GitHubDonationCollector.last_100 l))).
Proof.
  intros (series & ts & L & M & S & B). cbn in L. inversion L; subst series.
  unfold GitHubDonationCollector.last_100.
  exists (skipn (List.length l - 100) l), (skipn (List.length l - 100) ts).
  split; [reflexivity|].
  split; [rewrite <- !skipn_map, M; reflexivity|].
  split; [apply Sorted_skipn, S|apply Forall_skipn', B].
Qed.

Lemma bounded_series_chronological future f :
  bounded_series future f ->
  exists series, load_or_empty f = Ok (JArr series) /\ chronological series.
Proof.
  intros (series & ts & L & M & S & _). exists series. split; [exact L|].
  exists ts. auto.
Qed.

Lemma bounded_series_empty future f :
  load_or_empty f = Ok (JArr []) -> bounded_series future f.
Proof. intros L. exists [], []. repeat split; auto. Qed.

Section SeriesRuns.

Variable float_of_str : string -> res spec_float.

Lemma monitor_from_changing interval envs :
  forall c w series,
    load_or_empty (total_raised_file w) = Ok (JArr series) ->
    let w' :=
      snd (DonationMonitor.monitor_from float_of_str interval envs c w) in
    exists samples,
      load_or_empty (total_raised_file w') = Ok (JArr (series ++ samples)) /\
      changing (last_total w) samples /\
      last_total w' = last_amount (last_total w) samples /\
      total_saves w' = (total_saves w + List.length samples)%nat.
Proof.
  induction envs as [|env envs' IH]; intros c w series L; cbv zeta.
  - exists []. cbn. rewrite app_nil_r, Nat.add_0_r. auto.
  - cbn [DonationMonitor.monitor_from].
    pose proof (monitor_cycle_series float_of_str interval env c w) as A.
    cbv zeta in A.
    destruct (DonationMonitor.monitor_cycle float_of_str interval env c w)
      as [c1 w1]. cbn [snd] in A.
    destruct A as [(A1 & B1 & C1)|(series' & current & L' & G & A1 & B1 & C1)].
    + rewrite <- B1 in L.
      destruct (IH c1 w1 series L) as (samples & H1 & H2 & H3 & H4).
      exists samples. rewrite A1, C1 in *. auto.
    + rewrite L in L'. inversion L'; subst series'.
      destruct (IH c1 w1 (series ++ [monitor_sample
                                      (DonationMonitor.time_ms env) current]))
        as (samples & H1 & H2 & H3 & H4).
      { rewrite B1. reflexivity. }
      exists (monitor_sample (DonationMonitor.time_ms env) current :: samples).
      rewrite <- app_assoc in H1. split; [exact H1|].
      rewrite A1 in H2, H3.
      split; [exists current; repeat split; auto|].
      split; [exact H3|]. rewrite H4, C1. cbn [List.length]. lia.
Qed.

Lemma monitor_from_bounded interval envs :
  forall c w,
    StronglySorted Z.le (map DonationMonitor.time_ms envs) ->
    bounded_series (map DonationMonitor.time_ms envs) (total_raised_file w) ->
    bounded_series []
      (total_raised_file
         (snd (DonationMonitor.monitor_from float_of_str interval envs c w))).
Proof.
  induction envs as [|env envs' IH]; intros c w S B; [exact B|].
  cbn [DonationMonitor.monitor_from].
  pose proof (monitor_cycle_series float_of_str interval env c w) as A.
  cbv zeta in A.
  destruct (DonationMonitor.monitor_cycle float_of_str interval env c w)
    as [c1 w1]. cbn [snd] in A.
  cbn [map] in S, B. inversion S as [|? ? S' Ft]; subst.
  apply IH; [exact S'|].
  destruct A as [(_ & B1 & _)|(series & current & L & _ & _ & B1 & _)];
    rewrite B1.
  - apply (bounded_series_next _ _ _ B).
  - apply (bounded_series_append _ _ _ _ _ B Ft L). reflexivity.
Qed.

Lemma scheduled_run_bounded env future files :
  Forall (Z.le (GitHubDonationCollector.time_ms env)) future ->
  bounded_series (GitHubDonationCollector.time_ms env :: future) (snd files) ->
  bounded_series future (snd (scheduled_run float_of_str env files)).
Proof.
  intros Ft B. unfold scheduled_run.
  destruct (init_files (fst files) (snd files)) as (_ & T & _).
  destruct (init (fst files) (snd files)) as [[u|e] w0];
    [|apply (bounded_series_next _ _ _ B)].
  cbn [snd] in *.
  pose proof (run_update_series float_of_str env w0) as A. cbv zeta in A.
  destruct A as [(_ & _ & B1 & _)
                |(_ & _ & _ & series & amount & L & _ & B1 & _)];
    rewrite B1.
  - rewrite T. apply (bounded_series_next _ _ _ B).
  - rewrite T in L. apply bounded_series_capped.
    apply (bounded_series_append _ _ _ _ _ B Ft L). reflexivity.
Qed.

Lemma scheduled_runs_bounded envs :
  forall files,
    StronglySorted Z.le (map GitHubDonationCollector.time_ms envs) ->
    bounded_series (map GitHubDonationCollector.time_ms envs) (snd files) ->
    bounded_series [] (snd (scheduled_runs float_of_str envs files)).
Proof.
  induction envs as [|env envs' IH]; intros files S B; [exact B|].
  cbn [scheduled_runs fold_left]. cbn [map] in S, B.
  inversion S as [|? ? S' Ft]; subst.
  apply IH; [exact S'|]. apply scheduled_run_bounded; auto.
Qed.

(** X13. Along a run of the monitor the series only grows at its end, each
    new sample carries an amount that differs from the one saved before
    it in this run, and [last_total] is the amount of the latest. *)
Theorem monitor_samples_change (interval : spec_float)
    (envs : list DonationMonitor.cycle_env) (w : world) (series : list json) :
  load_or_empty (total_raised_file w) = Ok (JArr series) ->
  let w' := snd (DonationMonitor.monitor float_of_str interval envs w) in
  exists samples,
    load_or_empty (total_raised_file w') = Ok (JArr (series ++ samples)) /\
    changing (last_total w) samples /\
    last_total w' = last_amount (last_total w) samples /\
    total_saves w' = (total_saves w + List.length samples)%nat.
Proof.
  intros L. apply (monitor_from_changing interval envs 0 w series L).
Qed.

(** X15. When the clock never goes back from one turn or run to the next, the
    series that grew from an empty one is in the order of its
    timestamps: in the monitor, and in the collector run over and over,
    where the oldest samples are dropped. *)
Theorem series_is_chronological :
  (forall interval envs w,
      Sorted Z.le (map DonationMonitor.time_ms envs) ->
      load_or_empty (total_raised_file w) = Ok (JArr []) ->
      exists series,
        load_or_empty
          (total_raised_file
             (snd (DonationMonitor.monitor float_of_str interval envs w)))
        = Ok (JArr series) /\ chronological series) /\
  (forall envs f t,
      Sorted Z.le (map GitHubDonationCollector.time_ms envs) ->
      load_or_empty t = Ok (JArr []) ->
      exists series,
        load_or_empty (snd (scheduled_runs float_of_str envs (f, t)))
        = Ok (JArr series) /\ chronological series).
Proof.
  assert (Tr : Relations_1.Transitive Z.le) by (intros x y z; apply Z.le_trans).
  split.
  - intros interval envs w S L.
    apply (bounded_series_chronological []).
    apply monitor_from_bounded.
    + apply Sorted_StronglySorted; auto.
    + apply bounded_series_empty, L.
  - intros envs f t S L.
    apply (bounded_series_chronological []).
    apply scheduled_runs_bounded.
    + apply Sorted_StronglySorted; auto.
    + apply bounded_series_empty, L.
Qed.

(** X16. [run_update] raises nothing; it returns [True] exactly when it saved
    a sample, which asks both fetches for data, and [False] leaves the
    series as it was. *)
Theorem run_update_saves_or_fails (env : GitHubDonationCollector.update_env)
    (w : world) :
  let r := fst (GitHubDonationCollector.run_update float_of_str env w) in
  let w' := snd (GitHubDonationCollector.run_update float_of_str env w) in
  (r = Ok true \/ r = Ok false) /\
  (r = Ok true <-> total_saves w' = S (total_saves w)) /\
  (r = Ok true ->
   truthy (get_donations (GitHubDonationCollector.donations_response env))
   = true /\
   truthy (get_total_raised (GitHubDonationCollector.total_response env))
   = true /\
   exists series sample,
     load_or_empty (total_raised_file w) = Ok (JArr series) /\
     timestamp_of sample = Some (GitHubDonationCollector.time_ms env) /\
     total_raised_file w' =
     Stored (JArr (GitHubDonationCollector.last_100 (series ++ [sample])))) /\
  (r = Ok false ->
   total_raised_file w' = total_raised_file w /\
   total_saves w' = total_saves w).
Proof.
  cbv zeta.
  destruct (run_update_series float_of_str env w)
    as [(R & _ & B & C)|(R & Td & Tt & series & amount & L & _ & B & _ & C)];
    rewrite R.
  - split; [right; reflexivity|]. split; [|split].
    + split; [discriminate|]. rewrite C. intros H. lia.
    + discriminate.
    + auto.
  - split; [left; reflexivity|]. split; [|split].
    + split; auto.
    + intros _. repeat split; auto.
      eexists series, _. split; [exact L|]. split; [|exact B]. reflexivity.
    + discriminate.
Qed.

End SeriesRuns.

(** ** The two programs *)

Lemma transient_fetch r : transient r = true -> truthy (fetch r) = false.
Proof. destruct r; [reflexivity..|discriminate]. Qed.

Section Programs.

Variable float_of_str : string -> res spec_float.

(** X17. The collector's script ends with status 0 or 1; with 0 only after
    [__init__] returned, both endpoints answered the test, and
    [run_update] returned [True], so that the series on disk ends with the
    sample of this run. *)
Theorem collector_exit_status (env : GitHubDonationCollector.main_env)
    (f t : file) :
  let e := fst (GitHubDonationCollector.main float_of_str env f t) in
  let w' := snd (GitHubDonationCollector.main float_of_str env f t) in
  (exit_status e = 0 \/ exit_status e = 1) /\
  (exit_status e = 0 ->
   fst (init f t) = Ok tt /\
   truthy (get_total_raised (GitHubDonationCollector.test_total env)) = true /\
   truthy (get_donations (GitHubDonationCollector.test_donations env)) = true /\
   GitHubDonationCollector.run_update float_of_str
     (GitHubDonationCollector.update env) (snd (init f t)) = (Ok true, w') /\
   exists series sample,
     load_or_empty t = Ok (JArr series) /\
     timestamp_of sample
     = Some (GitHubDonationCollector.time_ms
               (GitHubDonationCollector.update env)) /\
     total_raised_file w' =
     Stored (JArr (GitHubDonationCollector.last_100 (series ++ [sample])))).
Proof.
  cbv zeta. unfold GitHubDonationCollector.main.
  destruct (init_files f t) as (_ & Tf & _).
  destruct (init f t) as [[[]|e0] w0]; cbn [fst snd] in *.
  2:{ split; [right; reflexivity|discriminate]. }
  destruct (truthy (get_total_raised _)); cbn [negb].
  2:{ split; [right; reflexivity|discriminate]. }
  destruct (truthy (get_donations _)); cbn [negb].
  2:{ split; [right; reflexivity|discriminate]. }
  destruct (let? v := _ in _) as [u|e1].
  2:{ split; [right; reflexivity|discriminate]. }
  pose proof (run_update_series float_of_str
                (GitHubDonationCollector.update env) w0) as A.
  cbv zeta in A.
  destruct (GitHubDonationCollector.run_update float_of_str _ w0)
    as [[[|]|e2] w1]; cbn [fst snd] in *.
  - split; [left; reflexivity|]. intros _.
    destruct A as [(R & _)|(_ & _ & _ & series & amount & L & _ & B & _)];
      [discriminate|].
    repeat split; auto. rewrite Tf in L.
    eexists series, _. split; [exact L|]. split; [|exact B]. reflexivity.
  - split; [right; reflexivity|discriminate].
  - split; [right; reflexivity|discriminate].
Qed.

(** X18. When an endpoint fails the connection test, neither program writes
    anything: both files stay as they were.  The collector's script ends
    with status 1; the monitor's [main] just returns (status 0) when it is
    the total that failed. *)
Theorem failed_connection_test (test_total test_donations : response)
    (f t : file) :
  transient test_total = true \/ transient test_donations = true ->
  (forall update,
      let env :=
        GitHubDonationCollector.mkMain test_total test_donations update in
      let e := fst (GitHubDonationCollector.main float_of_str env f t) in
      let w' := snd (GitHubDonationCollector.main float_of_str env f t) in
      exit_status e = 1 /\
      donations_file w' = f /\ total_raised_file w' = t /\ trace w' = []) /\
  (forall envs,
      let e :=
        fst (DonationMonitor.main float_of_str test_total test_donations envs
               f t) in
      let w' :=
        snd (DonationMonitor.main float_of_str test_total test_donations envs
               f t) in
      donations_file w' = f /\ total_raised_file w' = t /\ trace w' = [] /\
      (transient test_total = true -> fst (init f t) = Ok tt ->
       e = Completed)).
Proof.
  intros T.
  destruct (init_files f t) as (Df & Tf & Rf).
  split.
  - intros update. cbv zeta. unfold GitHubDonationCollector.main.
    cbn [GitHubDonationCollector.test_total
           GitHubDonationCollector.test_donations].
    destruct (init f t) as [[[]|e0] w0]; cbn [fst snd] in *; [|auto].
    unfold get_total_raised, get_donations.
    destruct T as [T|T].
    + rewrite (transient_fetch _ T). cbn. auto.
    + rewrite (transient_fetch _ T).
      destruct (truthy (fetch test_total)); cbn; auto.
  - intros envs. cbv zeta. unfold DonationMonitor.main.
    destruct (init f t) as [[[]|e0] w0]; cbn [fst snd] in *.
    2:{ repeat split; auto. discriminate. }
    unfold get_total_raised, get_donations.
    destruct (truthy (fetch test_total)) eqn:Tt.
    + destruct T as [T|T]; [rewrite (transient_fetch _ T) in Tt; discriminate|].
      rewrite (transient_fetch _ T).
      destruct (let? v := _ in _); cbn [fst snd]; repeat split; auto;
        intros T'; rewrite (transient_fetch _ T') in Tt; discriminate.
    + cbn [fst snd]. auto.
Qed.

End Programs.

(** ** Payloads that are not lists *)

Lemma ingest_not_a_list stamp refresh_empty payload w old :
  truthy payload = true ->
  (forall l, payload <> JArr l) ->
  load_or_empty (donations_file w) = Ok old ->
  ingest stamp refresh_empty payload w
  = (Raise (match payload with
            | JStr _ | JObj _ => AttributeError
            | _ => TypeError
            end), w).
Proof.
  intros T N L. unfold ingest. rewrite T. cbn [negb].
  unfold bind at 1. unfold gets at 1.
  unfold bind at 1. unfold lift at 1. rewrite L.
  unfold bind at 1. unfold lift at 1.
  destruct payload as [ |b|z|x|s|l|kv]; try reflexivity.
  - destruct s as [|c s]; [discriminate|]. reflexivity.
  - exfalso. apply (N l). reflexivity.
  - destruct kv as [|[k v] kv]; [discriminate|]. reflexivity.
Qed.

(** X11. A payload of [GET /donations] that is truthy and not a list (an
    object, such as an error body, a string, a number) makes both
    ingestion functions raise, [AttributeError] for an object or a
    string and [TypeError] for a number, before anything is changed; and
    [run_update] then returns [False] with nothing changed. *)
Theorem payload_must_be_a_list (payload old : json) (w : world) :
  truthy payload = true ->
  (forall l, payload <> JArr l) ->
  load_or_empty (donations_file w) = Ok old ->
  let e := match payload with
           | JStr _ | JObj _ => AttributeError
           | _ => TypeError
           end in
  DonationMonitor.save_new_donations payload w = (Raise e, w) /\
  (forall utcnow,
      GitHubDonationCollector.update_donations utcnow payload w
      = (Raise e, w)) /\
  (forall float_of_str env,
      GitHubDonationCollector.donations_response env = Body payload ->
      GitHubDonationCollector.run_update float_of_str env w = (Ok false, w)).
Proof.
  intros T N L. cbv zeta. split; [|split].
  - rewrite save_new_donations_ingest.
    apply (ingest_not_a_list _ _ _ _ old); auto.
  - intros utcnow. rewrite update_donations_ingest.
    apply (ingest_not_a_list _ _ _ _ old); auto.
  - intros float_of_str env E.
    unfold GitHubDonationCollector.run_update, try_except.
    rewrite E. cbn [get_donations fetch]. rewrite T.
    unfold bind at 1. rewrite update_donations_ingest.
    rewrite (ingest_not_a_list _ _ _ _ old T N L). reflexivity.
Qed.

(** ** Calls that raise *)




(** ** Samples and ledger saves *)

Lemma outcome_ledger_saves stamp refresh_empty donations_data w r w' :
  outcome stamp refresh_empty donations_data w r w' ->
  total_saves w' = total_saves w /\
  (ledger_saves w <= ledger_saves w')%nat /\
  (r = Ok true -> ledger_saves w' = S (ledger_saves w)).
Proof.
  intros [ | | |]; unfold total_saves, ledger_saves; cbn;
    repeat split; auto; try discriminate; lia.
Qed.

Section Saves.

Variable float_of_str : string -> res spec_float.

Lemma monitor_cycle_saves interval env c w :
  let w' := snd (DonationMonitor.monitor_cycle float_of_str interval env c w) in
  (total_saves w' + ledger_saves w <= total_saves w + ledger_saves w')%nat.
Proof.
  cbv zeta. rewrite monitor_cycle_counter.
  assert (Sl : forall n w0, total_saves (sleep n w0) = total_saves w0 /\
                            ledger_saves (sleep n w0) = ledger_saves w0).
  { intros. split; reflexivity. }
  assert (D : match DonationMonitor.check_donations env w with
              | (r, w1) =>
                  total_saves w1 = total_saves w /\
                  (ledger_saves w <= ledger_saves w1)%nat /\
                  (r = Ok true -> ledger_saves w1 = S (ledger_saves w))
              end).
  { unfold DonationMonitor.check_donations.
    destruct (truthy _).
    - rewrite save_new_donations_ingest.
      destruct (ingest _ _ _ w) as [r w1] eqn:E.
      apply ingest_cases in E. apply (outcome_ledger_saves _ _ _ _ _ _ E).
    - cbn. repeat split; auto. discriminate. }
  destruct (DonationMonitor.check_donations env w) as [[found|e] w1].
  - destruct D as (D1 & D2 & D3).
    destruct (DonationMonitor.check_total float_of_str env found w1)
      as [r w2] eqn:T.
    apply check_total_effect in T.
    assert (K : (total_saves w2 + ledger_saves w
                 <= total_saves w + ledger_saves w2)%nat).
    { destruct T as [->|(_ & -> & series & current & _ & _ & _ & ->)].
      - lia.
      - specialize (D3 eq_refl).
        unfold total_saves, ledger_saves in *. cbn. lia. }
    destruct r as [u|e]; cbn [snd].
    + destruct (num_ltb _ _); [|exact K].
      destruct (Sl (NFloat (SFsub prec emax interval
                              (DonationMonitor.elapsed env))) w2) as [A B].
      rewrite A, B. exact K.
    + destruct (_ <=? _); destruct (num_ltb _ _);
        unfold total_saves, ledger_saves in *; cbn; exact K.
  - destruct D as (D1 & D2 & _). cbn [snd].
    destruct (_ <=? _); destruct (num_ltb _ _);
      unfold total_saves, ledger_saves in *; cbn; lia.
Qed.

(** X14. The monitor never takes more samples than it saves ledgers: over any
    run, the saves of the series are at most as many as those of the
    ledger. *)
Theorem samples_follow_ledger_saves (interval : spec_float)
    (envs : list DonationMonitor.cycle_env) (c : Z) (w : world) :
  let w' :=
    snd (DonationMonitor.monitor_from float_of_str interval envs c w) in
  (total_saves w' - total_saves w <= ledger_saves w' - ledger_saves w)%nat /\
  (total_saves w <= total_saves w')%nat /\
  (ledger_saves w <= ledger_saves w')%nat.
Proof.
  cbv zeta.
  assert (G : forall envs c w,
            let w' :=
              snd (DonationMonitor.monitor_from float_of_str interval envs c w)
            in
            (total_saves w' + ledger_saves w
             <= total_saves w + ledger_saves w')%nat /\
            (total_saves w <= total_saves w')%nat).
  { clear. induction envs as [|env envs' IH]; intros c w; cbv zeta.
    - cbn. lia.
    - cbn [DonationMonitor.monitor_from].
      pose proof (monitor_cycle_saves interval env c w) as A. cbv zeta in A.
      pose proof (monitor_cycle_series float_of_str interval env c w) as B.
      cbv zeta in B.
      destruct (DonationMonitor.monitor_cycle float_of_str interval env c w)
        as [c1 w1]. cbn [snd] in A, B.
      pose proof (IH c1 w1) as H. cbv zeta in H. destruct H as [H1 H2].
      assert (total_saves w <= total_saves w1)%nat.
      { destruct B as [(_ & _ & B)|(? & ? & _ & _ & _ & _ & B)]; lia. }
      lia. }
  destruct (G envs c w) as [A B]. cbv zeta in A, B. lia.
Qed.

End Saves.

(** ** The update pipeline *)

Lemma run_command_succeeded command cwd c :
  AutoGitUpdater.run_command command cwd c
  = (succeeded c, [AutoGitUpdater.Run command cwd]).
Proof. destruct c as [[| |]| |]; reflexivity. Qed.

Lemma runs_cleanup b : runs (AutoGitUpdater.cleanup_existing_repo b) = [].
Proof. destruct b; reflexivity. Qed.

Lemma rmtrees_cleanup b :
  rmtrees (AutoGitUpdater.cleanup_existing_repo b) = count b.
Proof. destruct b; reflexivity. Qed.

Lemma runs_app a b : runs (a ++ b) = runs a ++ runs b.
Proof. apply filter_app. Qed.

Lemma rmtrees_app a b : (rmtrees (a ++ b) = rmtrees a + rmtrees b)%nat.
Proof. unfold rmtrees. rewrite filter_app, length_app. reflexivity. Qed.

(** [update_data], step by step. *)
Lemma update_data_steps env :
  AutoGitUpdater.update_data env =
  let c0 := AutoGitUpdater.cleanup_existing_repo (AutoGitUpdater.stale env) in
  let c1 := AutoGitUpdater.cleanup_existing_repo
              (AutoGitUpdater.left_over env) in
  let p := pipeline (AutoGitUpdater.now env) in
  if negb (succeeded (AutoGitUpdater.clone env))
  then (false, c0 ++ firstn 1 p)
  else if negb (succeeded (AutoGitUpdater.collector env))
  then (false, c0 ++ firstn 2 p)
  else if negb (succeeded (AutoGitUpdater.add env))
  then (false, c0 ++ firstn 3 p)
  else
    match AutoGitUpdater.diff env with
    | Raise _ => (false, c0 ++ firstn 4 p ++ c1)
    | Ok 0 => (true, c0 ++ firstn 4 p ++ c1)
    | Ok _ =>
        if negb (succeeded (AutoGitUpdater.commit env))
        then (false, c0 ++ firstn 5 p)
        else if negb (succeeded (AutoGitUpdater.push env))
        then (false, c0 ++ p)
        else (true, c0 ++ p ++ c1)
    end.
Proof.
  unfold AutoGitUpdater.update_data. rewrite !run_command_succeeded.
  cbv zeta.
  destruct (succeeded (AutoGitUpdater.clone env)); [|reflexivity].
  destruct (succeeded (AutoGitUpdater.collector env)); cbn [negb];
    [|rewrite <- !app_assoc; reflexivity].
  destruct (succeeded (AutoGitUpdater.add env)); cbn [negb];
    [|rewrite <- !app_assoc; reflexivity].
  destruct (AutoGitUpdater.diff env) as [[|q|q]|e];
    try (rewrite <- !app_assoc; reflexivity);
    (destruct (succeeded (AutoGitUpdater.commit env)); cbn [negb];
     [|rewrite <- !app_assoc; reflexivity]);
    (destruct (succeeded (AutoGitUpdater.push env)); cbn [negb];
     rewrite <- !app_assoc; reflexivity).
Qed.

(** X19. The calls of [subprocess.run] that [update_data] makes are the first
    steps of the pipeline, in order, up to the first that fails; it
    commits only what the diff reports as staged and pushes only after
    the commit returned 0. *)
Theorem update_pipeline_order (env : AutoGitUpdater.update_env) :
  let log := snd (AutoGitUpdater.update_data env) in
  (exists k, (1 <= k <= 6)%nat /\
             runs log = firstn k (pipeline (AutoGitUpdater.now env))) /\
  (In (AutoGitUpdater.Run (AutoGitUpdater.commit_command
                             (AutoGitUpdater.now env))
         (Some AutoGitUpdater.repo_name)) log ->
   succeeded (AutoGitUpdater.clone env) = true /\
   succeeded (AutoGitUpdater.collector env) = true /\
   succeeded (AutoGitUpdater.add env) = true /\
   staged env) /\
  (In (AutoGitUpdater.Run "git push" (Some AutoGitUpdater.repo_name)) log ->
   succeeded (AutoGitUpdater.clone env) = true /\
   succeeded (AutoGitUpdater.collector env) = true /\
   succeeded (AutoGitUpdater.add env) = true /\
   staged env /\
   succeeded (AutoGitUpdater.commit env) = true).
Proof.
  cbv zeta. rewrite update_data_steps. cbv zeta.
  set (c0 := AutoGitUpdater.cleanup_existing_repo (AutoGitUpdater.stale env)).
  set (c1 := AutoGitUpdater.cleanup_existing_repo
               (AutoGitUpdater.left_over env)).
  assert (N0 : forall a, In a c0 -> a = AutoGitUpdater.Rmtree
                                         AutoGitUpdater.repo_name).
  { unfold c0. destruct (AutoGitUpdater.stale env); intros a I;
      [destruct I as [E|[]]; auto|destruct I]. }
  assert (N1 : forall a, In a c1 -> a = AutoGitUpdater.Rmtree
                                         AutoGitUpdater.repo_name).
  { unfold c1. destruct (AutoGitUpdater.left_over env); intros a I;
      [destruct I as [E|[]]; auto|destruct I]. }
  assert (R0 : runs c0 = []) by apply runs_cleanup.
  assert (R1 : runs c1 = []) by apply runs_cleanup.
  destruct (succeeded (AutoGitUpdater.clone env)); cbn [negb snd].
  2:{ split; [exists 1%nat; rewrite runs_app, R0; split; [lia|reflexivity]|].
      split; intros I; apply in_app_or in I; destruct I as [I|I];
        try (apply N0 in I; discriminate);
        cbn in I; destruct I as [I|[]]; inversion I. }
  destruct (succeeded (AutoGitUpdater.collector env)); cbn [negb snd].
  2:{ split; [exists 2%nat; rewrite runs_app, R0; split; [lia|reflexivity]|].
      split; intros I; apply in_app_or in I; destruct I as [I|I];
        try (apply N0 in I; discriminate);
        cbn in I; destruct I as [I|[I|[]]]; inversion I. }
  destruct (succeeded (AutoGitUpdater.add env)); cbn [negb snd].
  2:{ split; [exists 3%nat; rewrite runs_app, R0; split; [lia|reflexivity]|].
      split; intros I; apply in_app_or in I; destruct I as [I|I];
        try (apply N0 in I; discriminate);
        cbn in I; destruct I as [I|[I|[I|[]]]]; inversion I. }
  assert (Four : forall a,
             In a (c0 ++ firstn 4 (pipeline (AutoGitUpdater.now env)) ++ c1) ->
             a <> AutoGitUpdater.Run
                    (AutoGitUpdater.commit_command (AutoGitUpdater.now env))
                    (Some AutoGitUpdater.repo_name) /\
             a <> AutoGitUpdater.Run "git push"
                    (Some AutoGitUpdater.repo_name)).
  { intros a I. apply in_app_or in I. destruct I as [I|I].
    - apply N0 in I. subst a. split; discriminate.
    - apply in_app_or in I. destruct I as [I|I].
      + cbn in I. destruct I as [I|[I|[I|[I|[]]]]]; subst a;
          split; intros E; inversion E.
      + apply N1 in I. subst a. split; discriminate. }
  destruct (AutoGitUpdater.diff env) as [z|e] eqn:D.
  2:{ cbn [snd].
      split; [exists 4%nat; rewrite !runs_app, R0, R1; split;
              [lia|reflexivity]|].
      split; intros I; apply Four in I; destruct I as [A B]; congruence. }
  destruct z as [|q|q].
  { cbn [snd].
    split; [exists 4%nat; rewrite !runs_app, R0, R1; split;
            [lia|reflexivity]|].
    split; intros I; apply Four in I; destruct I as [A B]; congruence. }
  all: assert (St : staged env) by (eexists; split; [exact D|discriminate]).
  all: destruct (succeeded (AutoGitUpdater.commit env)); cbn [negb snd];
    [destruct (succeeded (AutoGitUpdater.push env)); cbn [negb snd]|].
  all: split;
    [first [ exists 6%nat; rewrite !runs_app, ?R0, ?R1; split;
             [lia|rewrite ?app_nil_r; reflexivity]
           | exists 5%nat; rewrite !runs_app, ?R0, ?R1; split;
             [lia|reflexivity] ]|].
  all: split; intros I; try (repeat split; auto; fail).
  all: exfalso; apply in_app_or in I; destruct I as [I|I];
    try (apply N0 in I; discriminate);
    cbn in I; destruct I as [I|[I|[I|[I|[I|[]]]]]]; inversion I.
Qed.

(** X20. [update_data] returns [True] exactly when the clone, the collector
    and [git add] returned 0 and either nothing was staged or the commit
    and the push returned 0.  The folder is removed at the end only then,
    or when the diff raised: a command that fails is the last thing
    done, and the clone stays until the next run. *)
Theorem update_result_and_cleanup (env : AutoGitUpdater.update_env) :
  let ok := fst (AutoGitUpdater.update_data env) in
  let log := snd (AutoGitUpdater.update_data env) in
  (ok = true <->
   succeeded (AutoGitUpdater.clone env) = true /\
   succeeded (AutoGitUpdater.collector env) = true /\
   succeeded (AutoGitUpdater.add env) = true /\
   (AutoGitUpdater.diff env = Ok 0 \/
    (staged env /\
     succeeded (AutoGitUpdater.commit env) = true /\
     succeeded (AutoGitUpdater.push env) = true))) /\
  (ok = true \/ (exists e, AutoGitUpdater.diff env = Raise e /\
                           succeeded (AutoGitUpdater.clone env) = true /\
                           succeeded (AutoGitUpdater.collector env) = true /\
                           succeeded (AutoGitUpdater.add env) = true) ->
   rmtrees log = (count (AutoGitUpdater.stale env)
                  + count (AutoGitUpdater.left_over env))%nat) /\
  (ok = false ->
   (forall e, AutoGitUpdater.diff env <> Raise e) ->
   rmtrees log = count (AutoGitUpdater.stale env) /\
   exists before command cwd,
     log = before ++ [AutoGitUpdater.Run command cwd]).
Proof.
  cbv zeta. rewrite update_data_steps. cbv zeta.
  set (c0 := AutoGitUpdater.cleanup_existing_repo (AutoGitUpdater.stale env)).
  set (c1 := AutoGitUpdater.cleanup_existing_repo
               (AutoGitUpdater.left_over env)).
  assert (M0 : rmtrees c0 = count (AutoGitUpdater.stale env))
    by apply rmtrees_cleanup.
  assert (M1 : rmtrees c1 = count (AutoGitUpdater.left_over env))
    by apply rmtrees_cleanup.
  destruct (succeeded (AutoGitUpdater.clone env)); cbn [negb fst snd].
  2:{ split; [split; [discriminate|intros (A & _); discriminate]|].
      split; [intros [A|(e & _ & A & _)]; discriminate|].
      intros _ _. split; [rewrite rmtrees_app, M0; cbn; lia|].
      eexists c0, _, _. reflexivity. }
  destruct (succeeded (AutoGitUpdater.collector env)); cbn [negb fst snd].
  2:{ split; [split; [discriminate|intros (_ & A & _); discriminate]|].
      split; [intros [A|(e & _ & _ & A & _)]; discriminate|].
      intros _ _. split; [rewrite rmtrees_app, M0; cbn; lia|].
      eexists (c0 ++ [_]), _, _. rewrite <- app_assoc. reflexivity. }
  destruct (succeeded (AutoGitUpdater.add env)); cbn [negb fst snd].
  2:{ split; [split; [discriminate|intros (_ & _ & A & _); discriminate]|].
      split; [intros [A|(e & _ & _ & _ & A)]; discriminate|].
      intros _ _. split; [rewrite rmtrees_app, M0; cbn; lia|].
      eexists (c0 ++ [_; _]), _, _. rewrite <- app_assoc. reflexivity. }
  destruct (AutoGitUpdater.diff env) as [z|e] eqn:D.
  2:{ cbn [fst snd].
      split; [split; [discriminate|]|].
      { intros (_ & _ & _ & [A|((z & A & _) & _)]); congruence. }
      split.
      - intros _. rewrite !rmtrees_app, M0, M1. cbn. lia.
      - intros _ N. exfalso. apply (N e). reflexivity. }
  destruct z as [|q|q].
  { cbn [fst snd]. split; [split; auto|].
    split.
    - intros _. rewrite !rmtrees_app, M0, M1. cbn. lia.
    - discriminate. }
  all: assert (St : staged env) by (eexists; split; [exact D|discriminate]).
  all: destruct (succeeded (AutoGitUpdater.commit env)); cbn [negb fst snd];
    [destruct (succeeded (AutoGitUpdater.push env)); cbn [negb fst snd]|].
  all: split;
    [split;
     [first [ discriminate | intros _; repeat split; auto ]
     |first [ reflexivity
            | intros (_ & _ & _ & [A|(_ & A & B)]); discriminate ]]|].
  all: split;
    [first [ intros _; rewrite !rmtrees_app, M0, M1; cbn; lia
           | intros [A|(e & A & _)]; discriminate ]|].
  all: first [ discriminate | intros _ _ ].
  all: split; [rewrite ?rmtrees_app, M0; cbn; lia|].
  all: first
    [ eexists (c0 ++ [_; _; _; _; _]), _, _; rewrite <- app_assoc; reflexivity
    | eexists (c0 ++ [_; _; _; _]), _, _; rewrite <- app_assoc; reflexivity ].
Qed.

(** ** The index, the cap and partial updates *)

Lemma ingest_indexed stamp refresh_empty donations_data w changed w' :
  indexed w ->
  ingest stamp refresh_empty donations_data w = (Ok changed, w') ->
  indexed w'.
Proof.
  intros Ix H. apply ingest_cases in H.
  inversion H as [Tf Er Ew|old entries _ L It P F Rf Er Ew
                 |l entries sorted _ L It P N S Er Ew|e added _ Ha Er Ew];
    try (subst; exact Ix).
  intros x I. cbn [known_donation_ids dump_donations set_known] in I.
  exists sorted. cbn [donations_file dump_donations load_or_empty path_exists
                       read_json].
  assert (Sub : forall r,
             In r (l ++ records_of stamp 0
                          (fresh_entries (known_donation_ids w) entries)) ->
             In r sorted).
  { intros r Ir.
    apply (Permutation_in _ (Permutation_sym (sort_items_perm _ _ _ _ S))).
    exact Ir. }
  apply in_app_or in I. destruct I as [I|I].
  - apply in_rev, in_map_iff in I. destruct I as (d & Ed & Id).
    destruct (records_of_in stamp _ 0%nat d Id) as (m & Hm).
    exists (record_of stamp m d). split; [reflexivity|].
    split; [apply Sub, in_or_app; right; exact Hm|].
    rewrite record_id_record_of; [exact Ed|].
    pose proof (fresh_entries_facts entries (known_donation_ids w) P) as Ff.
    rewrite Forall_forall in Ff. apply (Ff d Id).
  - destruct (Ix x I) as (l0 & r & L0 & Ir & Er').
    rewrite L in L0. inversion L0; subst l0.
    exists r. split; [reflexivity|].
    split; [apply Sub, in_or_app; left; exact Ir|exact Er'].
Qed.

(** X21. As long as no call raises, every id of the known-id set has its
    record in the ledger on disk: [__init__] makes it so, and a call of
    either ingestion function that returns keeps it so. *)
Theorem known_ids_have_records :
  (forall f t w l,
      init f t = (Ok tt, w) -> load_or_empty f = Ok (JArr l) -> indexed w) /\
  (forall donations_data w changed w',
      indexed w ->
      DonationMonitor.save_new_donations donations_data w = (Ok changed, w') ->
      indexed w') /\
  (forall utcnow donations_data w changed w',
      indexed w ->
      GitHubDonationCollector.update_donations utcnow donations_data w
      = (Ok changed, w') ->
      indexed w').
Proof.
  split; [|split].
  - intros f t w l I L x Ix.
    destruct (init_known_from_ledger f t w l I L x Ix) as (r & Ir & _ & Er).
    destruct (init_files f t) as (Df & _). rewrite I in Df. cbn [snd] in Df.
    exists l, r. rewrite Df. auto.
  - intros d w changed w' Ix H. rewrite save_new_donations_ingest in H.
    apply (ingest_indexed _ _ _ _ _ _ Ix H).
  - intros u d w changed w' Ix H. rewrite update_donations_ingest in H.
    apply (ingest_indexed _ _ _ _ _ _ Ix H).
Qed.

Section Capped.

Variable float_of_str : string -> res spec_float.

Lemma scheduled_run_capped env files :
  capped (snd files) -> capped (snd (scheduled_run float_of_str env files)).
Proof.
  intros Cp. unfold scheduled_run.
  destruct (init_files (fst files) (snd files)) as (_ & T & _).
  destruct (init (fst files) (snd files)) as [[u|e] w0]; [|exact Cp].
  cbn [snd] in *.
  pose proof (run_update_series float_of_str env w0) as A. cbv zeta in A.
  destruct A as [(_ & _ & B1 & _)
                |(_ & _ & _ & series & amount & L & _ & B1 & _)];
    rewrite B1.
  - rewrite T. exact Cp.
  - eexists. split; [reflexivity|]. apply last_100_length.
Qed.

(** X22. A series of at most 100 samples stays so over any runs of the
    collector, each in a new process, whatever the fetches return. *)
Theorem series_stays_capped
    (envs : list GitHubDonationCollector.update_env) (f t : file)
    (series : list json) :
  load_or_empty t = Ok (JArr series) ->
  (List.length series <= 100)%nat ->
  exists series',
    load_or_empty (snd (scheduled_runs float_of_str envs (f, t)))
    = Ok (JArr series') /\
    (List.length series' <= 100)%nat.
Proof.
  intros L Le.
  assert (G : forall files,
            capped (snd files) ->
            capped (snd (scheduled_runs float_of_str envs files))).
  { induction envs as [|env envs' IH]; intros files Cp; [exact Cp|].
    apply IH, scheduled_run_capped, Cp. }
  apply (G (f, t)). exists series. auto.
Qed.

(** X23. When the donations were fetched and the fetch of the total fails
    upstream, [run_update] returns [False] and leaves what
    [update_donations] did: a ledger it saved stays saved. *)
Theorem failed_total_keeps_ledger_update
    (env : GitHubDonationCollector.update_env) (w : world) :
  truthy (get_donations (GitHubDonationCollector.donations_response env))
  = true ->
  transient (GitHubDonationCollector.total_response env) = true ->
  GitHubDonationCollector.run_update float_of_str env w
  = (Ok false,
     snd (GitHubDonationCollector.update_donations
            (GitHubDonationCollector.utcnow env)
            (get_donations (GitHubDonationCollector.donations_response env))
            w)).
Proof.
  intros Td Tt.
  unfold GitHubDonationCollector.run_update, try_except. rewrite Td.
  unfold bind, ret, get_total_raised. rewrite (transient_fetch _ Tt).
  destruct (GitHubDonationCollector.update_donations _ _ w) as [[c|e] w1];
    reflexivity.
Qed.

End Capped.

(** ** Donations without a timestamp *)

Lemma insert_raises x l e :
  text_or_none_key x -> Forall text_or_none_key l ->
  insert x l = Raise e -> e = TypeError.
Proof.
  intros Tx. induction l as [|y l IH]; intros Tl H; cbn [insert] in H;
    [discriminate|].
  inversion Tl as [|? ? Ty Tl']; subst.
  destruct (py_lt (fst y) (fst x)) as [b|e'] eqn:L; cbn [res_bind] in H.
  - destruct b; [|discriminate].
    destruct (insert x l) as [r|e'] eqn:I; cbn [res_bind] in H;
      [discriminate|].
    inversion H; subst e'. apply (IH Tl' eq_refl).
  - inversion H; subst e'.
    destruct Ty as [Ey|[sy Ey]]; destruct Tx as [Ex|[sx Ex]];
      rewrite Ex, Ey in L; cbn in L; congruence.
Qed.

Lemma sort_asc_raises l e :
  Forall text_or_none_key l -> sort_asc l = Raise e -> e = TypeError.
Proof.
  induction l as [|x l IH]; intros T H; cbn [sort_asc] in H; [discriminate|].
  inversion T as [|? ? Tx Tl]; subst.
  destruct (sort_asc l) as [s|e'] eqn:S; cbn [res_bind] in H.
  - apply (insert_raises x s e Tx); [|exact H].
    apply sort_asc_perm in S.
    apply (Permutation_Forall (Permutation_sym S)), Tl.
  - inversion H; subst e'. apply (IH Tl eq_refl).
Qed.

Lemma mapM_keys l :
  Forall text_or_none l ->
  exists ks, mapM completed_at_key l = Ok ks.
Proof.
  induction 1 as [|r l (k & E & _) _ (ks & M)]; [exists []; reflexivity|].
  exists (k :: ks). cbn [mapM]. rewrite E, M. reflexivity.
Qed.

Lemma in_combine_snd {A B} (ks : list A) (l : list B) r :
  List.length ks = List.length l -> In r l ->
  exists k, In (k, r) (combine ks l).
Proof.
  revert ks. induction l as [|x l IH]; intros ks E I; [destruct I|].
  destruct ks as [|k ks]; [discriminate|]. cbn in E.
  destruct I as [<-|I].
  - exists k. left. reflexivity.
  - destruct (IH ks) as (k' & Hk); [lia|exact I|].
    exists k'. right. exact Hk.
Qed.

(** Sorting a ledger of two records or more, one of which has [None] for
    [completed_at], raises [TypeError]. *)
Lemma sort_items_undated l r :
  Forall text_or_none l -> (2 <= List.length l)%nat ->
  In r l -> completed_at_key r = Ok JNull ->
  sort_items completed_at_key true l = Raise TypeError.
Proof.
  intros T Len Ir Kr. unfold sort_items.
  destruct (mapM_keys l T) as (ks & M). rewrite M. cbn [res_bind].
  pose proof (combine_keys _ _ _ M) as Ck.
  apply mapM_length in M.
  assert (Tk : Forall text_or_none_key (rev (combine ks l))).
  { apply Forall_rev. rewrite Forall_forall in *. intros p I.
    assert (Il : In (snd p) l).
    { destruct p as [k0 r0]. apply in_combine_r in I. exact I. }
    destruct (T _ Il) as (k0 & E & Hk). specialize (Ck p I). cbn in Ck.
    rewrite E in Ck. inversion Ck as [Ek]. rewrite Ek in Hk. exact Hk. }
  destruct (sort_asc (rev (combine ks l))) as [s|e] eqn:S; cbn [res_bind].
  - exfalso. destruct (sort_asc_ok_text _ _ Tk S) as [Le|Tx].
    + rewrite length_rev, length_combine, M, Nat.min_id in Le. lia.
    + destruct (in_combine_snd ks l r M Ir) as (k & Ik).
      rewrite Forall_forall in Ck, Tx.
      specialize (Ck _ Ik). cbn in Ck. rewrite Kr in Ck.
      inversion Ck; subst k.
      destruct (Tx (JNull, r)) as [s' Es]; [|discriminate].
      apply in_rev. rewrite rev_involutive. exact Ik.
  - rewrite (sort_asc_raises _ e Tk S). reflexivity.
Qed.

Lemma records_of_length stamp ds :
  forall n, List.length (records_of stamp n ds) = List.length ds.
Proof.
  induction ds as [|d ds IH]; intros n; cbn; [reflexivity|].
  rewrite IH. reflexivity.
Qed.

Lemma records_of_timed stamp ds :
  forall n,
    Forall (fun d => is_dict d = true /\ timed_or_undated d) ds ->
    Forall text_or_none (records_of stamp n ds).
Proof.
  induction ds as [|d ds IH]; intros n F; cbn [records_of]; [constructor|].
  inversion F as [|? ? [Dd (k & E & Hk)] F']; subst.
  constructor; [|apply IH, F'].
  exists k. rewrite record_of_key by exact Dd. auto.
Qed.

Lemma dated_text_or_none r : dated r -> text_or_none r.
Proof. intros [s E]. exists (JStr s). split; [exact E|right; eauto]. Qed.

(** A new donation without [completed_at], over a ledger that holds a
    record already: the sort raises after the ids went into the set. *)
Lemma ingest_undated stamp refresh_empty entries l w d :
  load_or_empty (donations_file w) = Ok (JArr l) ->
  l <> [] ->
  Forall dated l ->
  Forall (fun d => passes d = true /\ timed_or_undated d) entries ->
  In d (fresh_entries (known_donation_ids w) entries) ->
  undated_payload d ->
  ingest stamp refresh_empty (JArr entries) w
  = (Raise TypeError,
     set_known
       (rev (map record_id (fresh_entries (known_donation_ids w) entries))
        ++ known_donation_ids w) w).
Proof.
  intros L Nl Dl F Id Ud. unfold ingest.
  assert (Te : truthy (JArr entries) = true).
  { destruct entries; [destruct Id|reflexivity]. }
  rewrite Te. cbn [negb].
  unfold bind, gets, lift, modify, ret. rewrite L. cbn [py_iter].
  assert (P : Forall (fun d => passes d = true) entries).
  { apply Forall_impl with (2 := F). tauto. }
  rewrite (merge_loop_total stamp entries [] l w P).
  cbn [List.length app].
  set (fr := fresh_entries (known_donation_ids w) entries) in *.
  assert (Ffr : Forall (fun d => is_dict d = true /\ timed_or_undated d) fr).
  { pose proof (fresh_entries_incl (known_donation_ids w) entries) as I.
    pose proof (fresh_entries_facts entries (known_donation_ids w) P) as Ff.
    fold fr in I, Ff.
    rewrite Forall_forall in *. intros x Ix. split.
    - apply (Ff x Ix).
    - apply (F x (I x Ix)). }
  assert (Nn : nonempty (records_of stamp 0 fr) = true).
  { destruct fr; [destruct Id|reflexivity]. }
  rewrite Nn, orb_true_r.
  unfold sort_ledger. cbn [py_sort].
  destruct (records_of_in stamp fr 0%nat d Id) as (m & Hm).
  rewrite (sort_items_undated (l ++ records_of stamp 0 fr)
             (record_of stamp m d)).
  - reflexivity.
  - apply Forall_app. split.
    + apply Forall_impl with (2 := Dl). apply dated_text_or_none.
    + apply records_of_timed, Ffr.
  - rewrite length_app, records_of_length.
    destruct l; [congruence|]. destruct fr; [destruct Id|]. cbn. lia.
  - apply in_or_app. right. exact Hm.
  - rewrite record_of_key; [exact Ud|].
    rewrite Forall_forall in Ffr. apply (Ffr d Id).
Qed.

(** X24. Let the ledger hold at least one record, all with a string for
    [completed_at], and let a batch of well-formed payloads bring a new
    donation whose [completed_at] is missing or [None].  Either ingestion
    function raises [TypeError] at the sort: nothing is written, yet the
    new ids of the batch are in the known-id set, so that the same batch,
    fetched again by this process, brings nothing new: the donation is
    not recorded until the process is restarted. *)
Theorem undated_donation_is_lost (entries l : list json) (w : world)
    (d : json) :
  load_or_empty (donations_file w) = Ok (JArr l) ->
  l <> [] ->
  Forall dated l ->
  Forall (fun d => passes d = true /\ timed_or_undated d) entries ->
  In d (fresh_entries (known_donation_ids w) entries) ->
  undated_payload d ->
  let w' :=
    set_known
      (rev (map record_id (fresh_entries (known_donation_ids w) entries))
       ++ known_donation_ids w) w in
  DonationMonitor.save_new_donations (JArr entries) w
  = (Raise TypeError, w') /\
  DonationMonitor.save_new_donations (JArr entries) w' = (Ok false, w') /\
  (forall utcnow,
      GitHubDonationCollector.update_donations utcnow (JArr entries) w
      = (Raise TypeError, w') /\
      GitHubDonationCollector.update_donations utcnow (JArr entries) w'
      = (Ok false, w')) /\
  donations_file w' = donations_file w /\ trace w' = trace w.
Proof.
  intros L Nl Dl F Id Ud. cbv zeta.
  set (w' := set_known _ w).
  assert (Ne : entries <> []) by (intros ->; destruct Id).
  assert (P : Forall (fun d => passes d = true) entries).
  { apply Forall_impl with (2 := F). tauto. }
  assert (Known : Forall (fun d => is_dict d = true /\
                            (truthy (record_id d) = false \/
                             py_in (record_id d) (known_donation_ids w')
                             = Ok true)) entries).
  { pose proof (fresh_covers entries (known_donation_ids w) P) as Cov.
    rewrite Forall_forall in *. intros x Ix.
    specialize (P x Ix). specialize (Cov x Ix).
    destruct (truthy (record_id x)) eqn:T.
    - destruct (passes_truthy x P T) as [Dd Hd]. split; auto. right.
      unfold py_in. rewrite Hd. f_equal. apply Cov. reflexivity.
    - unfold passes in P. apply andb_true_iff in P. tauto. }
  assert (Again : forall stamp refresh_empty,
             ingest stamp refresh_empty (JArr entries) w' = (Ok false, w')).
  { intros stamp refresh_empty.
    rewrite (ingest_known stamp refresh_empty entries w' (JArr l) Ne Known L).
    destruct l; [congruence|]. cbn [truthy negb].
    rewrite andb_false_r. reflexivity. }
  split; [|split; [|split]].
  - rewrite save_new_donations_ingest.
    apply (ingest_undated _ _ _ l _ d); auto.
  - rewrite save_new_donations_ingest. apply Again.
  - intros utcnow. rewrite !update_donations_ingest. split.
    + apply (ingest_undated _ _ _ l _ d); auto.
    + apply Again.
  - split; reflexivity.
Qed.

(** ** The theorems at work *)

Lemma C3_witness :
  load_or_empty Absent = Ok (JArr []) /\
  (exists l,
      load_or_empty
        (donations_file
           (feed_monitor [JArr batch_aba; JInt 5; JArr batch_aba]
              (snd (init Absent Absent))))
      = Ok (JArr l) /\ no_duplicate_ids l) /\
  (exists l,
      load_or_empty
        (donations_file
           (feed_collector [(noon, JArr batch_aba); (past_noon, JArr batch_aba)]
              (snd (init Absent Absent))))
      = Ok (JArr l) /\ no_duplicate_ids l).
Proof.
  split; [reflexivity|].
  apply (C3_no_duplicate_ids Absent Absent). reflexivity.
Defined.

(** Feeding the same batch twice, with a broken payload in between,
    leaves two records. *)
Example feed_aba_twice :
  match donations_file
          (feed_monitor [JArr batch_aba; JInt 5; JArr batch_aba]
             (blank Absent Absent)) with
  | Stored (JArr l) => map record_id l = [JStr "b"; JStr "a"]
  | _ => False
  end.
Proof. reflexivity. Qed.

Lemma C4_witness :
  let w := snd (init ledger_a Absent) in
  let entries := [donation "a" "2024-01-01T00:00:00Z" 5] in
  entries <> [] /\ all_known entries w /\
  DonationMonitor.save_new_donations (JArr entries) w = (Ok false, w) /\
  GitHubDonationCollector.update_donations noon (JArr entries) w
  = (Ok false, w).
Proof.
  cbv zeta.
  assert (N : [donation "a" "2024-01-01T00:00:00Z" 5] <> []) by discriminate.
  assert (K : all_known [donation "a" "2024-01-01T00:00:00Z" 5]
                (snd (init ledger_a Absent))).
  { repeat constructor. }
  split; [exact N|]. split; [exact K|].
  destruct (proj1 C4_known_batch_is_noop _ _ _ N K eq_refl) as (A & B & _).
  split; [exact A|]. apply B. reflexivity.
Defined.

(** C4 fails in the collector over an empty ledger: a first call raises
    at its second entry, after the id ["a"] went into the known-id set and
    before anything was saved; the next batch carries that id only, and
    [update_donations] saves the empty ledger and returns [True]. *)
Lemma C4_counterexample_collector :
  let w := snd (GitHubDonationCollector.update_donations noon
                  (JArr [undated "a" 5; JInt 5]) (blank Absent Absent)) in
  w = mkWorld [JStr "a"] None Absent Absent [] /\
  all_known [undated "a" 5] w /\
  load_or_empty (donations_file w) = Ok (JArr []) /\
  GitHubDonationCollector.update_donations noon (JArr [undated "a" 5]) w
  = (Ok true, dump_donations (JArr []) w).
Proof. cbv zeta. repeat split. repeat constructor. Qed.

Lemma C5_witness :
  known_donation_ids busy_world
  = known_donation_ids (snd (init ledger_a Absent)) /\
  donations_file busy_world = donations_file (snd (init ledger_a Absent)) /\
  fst (DonationMonitor.save_new_donations (JArr batch_aba) busy_world)
  = fst (DonationMonitor.save_new_donations (JArr batch_aba)
           (snd (init ledger_a Absent))) /\
  fst (GitHubDonationCollector.update_donations noon (JArr batch_aba)
         busy_world)
  = fst (GitHubDonationCollector.update_donations past_noon (JArr batch_aba)
           (snd (init ledger_a Absent))).
Proof.
  split; [reflexivity|]. split; [reflexivity|].
  destruct (C5_merge_determinism (JArr batch_aba) busy_world
              (snd (init ledger_a Absent)) eq_refl eq_refl)
    as ((A & _) & B & _).
  split; [exact A|]. apply (B noon past_noon).
Defined.

Lemma C9_witness :
  is_dict nameless = true /\ truthy (record_id nameless) = false /\
  (forall w,
      DonationMonitor.save_new_donations
        (JArr ([donation "a" "2024-01-01T00:00:00Z" 5] ++
               nameless :: [numbered_zero])) w
      = DonationMonitor.save_new_donations
          (JArr ([donation "a" "2024-01-01T00:00:00Z" 5] ++
                 [numbered_zero])) w).
Proof.
  split; [reflexivity|]. split; [reflexivity|].
  destruct (C9_falsy_ids_are_skipped nameless
              [donation "a" "2024-01-01T00:00:00Z" 5] [numbered_zero]
              eq_refl eq_refl) as (_ & A & _).
  apply A. discriminate.
Defined.

(** A batch with one usable id among falsy ones leaves one record and
    one known id, in either class. *)
Example falsy_ids_leave_no_mark :
  let batch :=
    JArr [donation "a" "2024-01-01T00:00:00Z" 5; nameless; numbered_zero;
          undated "" 1; JObj [("amount", JInt 2)]] in
  let w := snd (DonationMonitor.save_new_donations batch (blank Absent Absent)) in
  let w' :=
    snd (GitHubDonationCollector.update_donations noon batch
           (blank Absent Absent)) in
  known_donation_ids w = [JStr "a"] /\ known_donation_ids w' = [JStr "a"] /\
  donations_file w = ledger_a /\
  truthy (JStr "") = false /\ truthy (JInt 0) = false /\
  truthy JNull = false /\ truthy (JBool false) = false /\
  truthy (JFloat (S754_zero true)) = false /\
  truthy (JArr []) = false /\ truthy (JObj []) = false.
Proof. cbv zeta. repeat split. Qed.


(** Of two payloads with the id ["a"] in one batch, the first, whose
    amount is 5, is the one recorded. *)
Example first_occurrence_wins :
  DonationMonitor.save_new_donations (JArr batch_aba) (blank Absent Absent)
  = (Ok true,
     dump_donations
       (JArr [record_of DonationMonitor.stamp 1
                (donation "b" "2024-01-02T00:00:00Z" 7);
              record_of DonationMonitor.stamp 0
                (donation "a" "2024-01-01T00:00:00Z" 5)])
       (set_known [JStr "b"; JStr "a"] (blank Absent Absent))).
Proof. reflexivity. Qed.

Lemma saved_ledger_newest_first_witness :
  exists w' ledger,
    DonationMonitor.save_new_donations (JArr batch_aba) (blank Absent Absent)
    = (Ok true, w') /\
    donations_file w' = Stored (JArr ledger) /\
    (Forall text_or_none ledger -> newest_first ledger).
Proof.
  eexists.
  destruct (saved_ledger_newest_first (JArr batch_aba) (blank Absent Absent) _
              (or_introl eq_refl)) as (ledger & E & S).
  exists ledger. split; [reflexivity|]. split; [exact E|exact S].
Defined.

Lemma C8_witness :
  let w := snd (init (Stored (JArr [undated "z" 1])) Absent) in
  exists w' ledger,
    DonationMonitor.save_new_donations (JArr batch_aba) w = (Ok true, w') /\
    donations_file w' = Stored (JArr ledger) /\
    Forall text_or_none ledger /\
    newest_first ledger /\ undated_last ledger /\
    ledger = [record_of DonationMonitor.stamp 1
                (donation "b" "2024-01-02T00:00:00Z" 7);
              record_of DonationMonitor.stamp 0
                (donation "a" "2024-01-01T00:00:00Z" 5);
              undated "z" 1].
Proof.
  cbv zeta. eexists.
  destruct (C8_ledger_sorted_after_change (JArr batch_aba)
              (snd (init (Stored (JArr [undated "z" 1])) Absent)) _
              (or_introl eq_refl)) as (ledger & E & S).
  exists ledger. split; [reflexivity|]. split; [exact E|].
  assert (L : ledger
              = [record_of DonationMonitor.stamp 1
                   (donation "b" "2024-01-02T00:00:00Z" 7);
                 record_of DonationMonitor.stamp 0
                   (donation "a" "2024-01-01T00:00:00Z" 5);
                 undated "z" 1]).
  { cbv in E. inversion E. reflexivity. }
  assert (T : Forall text_or_none ledger).
  { rewrite L. repeat constructor; eexists; (split; [reflexivity|]);
      right; eexists; reflexivity. }
  split; [exact T|]. destruct (S T) as [A B].
  split; [exact A|]. split; [exact B|exact L].
Defined.


Lemma scheduled_runs_no_duplicate_ids_witness :
  let env :=
    GitHubDonationCollector.mkEnv (Body (JArr batch_aba))
      (Body (total_of 10)) noon 1700000000000 "2024-01-01T12:00:00" in
  load_or_empty Absent = Ok (JArr []) /\
  forall float_of_str,
  exists l,
    load_or_empty
      (fst (scheduled_runs float_of_str [env; env] (Absent, Absent)))
    = Ok (JArr l) /\ no_duplicate_ids l.
Proof.
  cbv zeta. split; [reflexivity|]. intros float_of_str.
  apply (scheduled_runs_no_duplicate_ids float_of_str _ Absent Absent).
  reflexivity.
Defined.

(** Two runs of the script on the same fetches leave two records and two
    samples. *)
Example two_scheduled_runs (float_of_str : string -> res spec_float) :
  let env :=
    GitHubDonationCollector.mkEnv (Body (JArr batch_aba))
      (Body (total_of 10)) noon 1700000000000 "2024-01-01T12:00:00" in
  match scheduled_runs float_of_str [env; env] (Absent, Absent) with
  | (Stored (JArr ledger), Stored (JArr series)) =>
      map record_id ledger = [JStr "b"; JStr "a"] /\
      List.length series = 2%nat
  | _ => False
  end.
Proof. cbv zeta. split; reflexivity. Qed.

Lemma ties_keep_their_order_witness :
  exists w',
    DonationMonitor.save_new_donations (JArr tied_batch) (blank Absent Absent)
    = (Ok true, w') /\
    ties_in_order DonationMonitor.stamp (JArr tied_batch)
      (blank Absent Absent) w'.
Proof.
  exists (snd (DonationMonitor.save_new_donations (JArr tied_batch)
                 (blank Absent Absent))).
  split; [reflexivity|].
  destruct (ties_keep_their_order (JArr tied_batch) (blank Absent Absent)
              (snd (DonationMonitor.save_new_donations (JArr tied_batch)
                      (blank Absent Absent))))
    as [A _].
  exact (A eq_refl).
Defined.

(** Of two donations completed at the same time, the first of the batch
    stays first. *)
Example ties_stay_in_batch_order :
  match donations_file
          (snd (DonationMonitor.save_new_donations (JArr tied_batch)
                  (blank Absent Absent))) with
  | Stored (JArr l) => map record_id l = [JStr "x"; JStr "y"]
  | _ => False
  end.
Proof. reflexivity. Qed.

Lemma ledger_only_grows_witness :
  load_or_empty (donations_file (snd (init ledger_a Absent)))
  = Ok (JArr [record_of DonationMonitor.stamp 0
                (donation "a" "2024-01-01T00:00:00Z" 5)]) /\
  exists l' recs,
    load_or_empty
      (donations_file
         (feed_monitor [JArr batch_aba] (snd (init ledger_a Absent))))
    = Ok (JArr l') /\
    Permutation l'
      ([record_of DonationMonitor.stamp 0
          (donation "a" "2024-01-01T00:00:00Z" 5)] ++ recs).
Proof.
  split; [reflexivity|].
  destruct (ledger_only_grows (snd (init ledger_a Absent)) _ eq_refl)
    as [A _].
  exact (A [JArr batch_aba]).
Defined.

Lemma same_batch_after_restart_witness :
  let w1 :=
    snd (DonationMonitor.save_new_donations (JArr batch_aba)
           (snd (init Absent Absent))) in
  stored_ok Absent /\
  donations_file w1 <> Absent /\
  DonationMonitor.save_new_donations (JArr batch_aba)
    (snd (init (donations_file w1) Absent))
  = (Ok false, snd (init (donations_file w1) Absent)).
Proof.
  cbv zeta.
  assert (S : stored_ok Absent).
  { exists []. cbn. repeat split; constructor. }
  split; [exact S|]. split; [discriminate|].
  destruct (same_batch_after_restart Absent Absent Absent batch_aba S)
    as [A _].
  destruct (A true
              (snd (DonationMonitor.save_new_donations (JArr batch_aba)
                      (snd (init Absent Absent)))) eq_refl) as [_ B].
  exact B.
Defined.

Lemma known_ids_after_init_witness :
  let l := [donation "a" "2024-01-01T00:00:00Z" 5;
            donation "b" "2024-01-02T00:00:00Z" 7;
            JObj [("amount", JInt 1)]] in
  Forall (fun r => is_dict r = true /\ hashable (record_id r) = true) l /\
  exists w,
    init (Stored (JArr l)) Absent = (Ok tt, w) /\
    known_donation_ids w = [JStr "b"; JStr "a"] /\
    forall x, In x (known_donation_ids w) ->
              exists r, In r l /\ py_contains "id" r = Ok true /\
                        record_id r = x.
Proof.
  cbv zeta.
  assert (F : Forall (fun r => is_dict r = true /\
                               hashable (record_id r) = true)
                [donation "a" "2024-01-01T00:00:00Z" 5;
                 donation "b" "2024-01-02T00:00:00Z" 7;
                 JObj [("amount", JInt 1)]]).
  { repeat constructor. }
  split; [exact F|].
  destruct (known_ids_after_init _ Absent F) as (w & I & A & _).
  exists w. split; [exact I|]. split; [|exact A].
  cbv in I. inversion I. reflexivity.
Defined.


Lemma payload_must_be_a_list_witness :
  truthy error_body = true /\
  (forall l, error_body <> JArr l) /\
  DonationMonitor.save_new_donations error_body (snd (init ledger_a Absent))
  = (Raise AttributeError, snd (init ledger_a Absent)) /\
  forall float_of_str total,
    GitHubDonationCollector.run_update float_of_str
      (GitHubDonationCollector.mkEnv (Body error_body) total noon 0
         "2024-01-01T12:00:00")
      (snd (init ledger_a Absent))
    = (Ok false, snd (init ledger_a Absent)).
Proof.
  assert (N : forall l, error_body <> JArr l) by (intros l; discriminate).
  split; [reflexivity|]. split; [exact N|].
  destruct (payload_must_be_a_list error_body _ (snd (init ledger_a Absent))
              eq_refl N eq_refl) as (A & _ & C).
  split; [exact A|]. intros float_of_str total.
  exact (C float_of_str
           (GitHubDonationCollector.mkEnv (Body error_body) total noon 0
         "2024-01-01T12:00:00")
           eq_refl).
Defined.

Lemma monitor_samples_change_witness :
  load_or_empty (total_raised_file (blank Absent Absent)) = Ok (JArr []) /\
  forall float_of_str,
  exists samples,
    load_or_empty
      (total_raised_file
         (snd (DonationMonitor.monitor float_of_str (float_of_Z 1)
                 rising_turns (blank Absent Absent))))
    = Ok (JArr ([] ++ samples)) /\
    changing (last_total (blank Absent Absent)) samples.
Proof.
  split; [reflexivity|]. intros float_of_str.
  destruct (monitor_samples_change float_of_str (float_of_Z 1) rising_turns
              (blank Absent Absent) [] eq_refl) as (samples & A & B & _).
  exists samples. split; [exact A|exact B].
Defined.

(** Two new donations under a total that moved leave two samples. *)
Example two_rising_samples (float_of_str : string -> res spec_float) :
  let w := snd (DonationMonitor.monitor float_of_str (float_of_Z 1)
                  rising_turns (blank Absent Absent)) in
  total_raised_file w
  = Stored (JArr [monitor_sample 1700000000000 (float_of_Z 10);
                  monitor_sample 1700000001000 (float_of_Z 12)]) /\
  last_total w = Some (float_of_Z 12) /\
  ledger_saves w = 2%nat /\ total_saves w = 2%nat.
Proof. cbv zeta. repeat split. Qed.

Lemma series_is_chronological_witness :
  Sorted Z.le (map GitHubDonationCollector.time_ms hourly_runs) /\
  load_or_empty Absent = Ok (JArr []) /\
  forall float_of_str,
  exists series,
    load_or_empty (snd (scheduled_runs float_of_str hourly_runs
                          (Absent, Absent)))
    = Ok (JArr series) /\ chronological series.
Proof.
  assert (S : Sorted Z.le (map GitHubDonationCollector.time_ms hourly_runs)).
  { repeat constructor. cbn. lia. }
  split; [exact S|]. split; [reflexivity|]. intros float_of_str.
  destruct (series_is_chronological float_of_str) as [_ A].
  exact (A hourly_runs Absent Absent S eq_refl).
Defined.

Lemma failed_connection_test_witness :
  (transient Timeout = true \/ transient (Body (JArr batch_aba)) = true) /\
  forall float_of_str update,
    exit_status
      (fst (GitHubDonationCollector.main float_of_str
              (GitHubDonationCollector.mkMain Timeout (Body (JArr batch_aba))
                 update) ledger_a Absent)) = 1.
Proof.
  split; [left; reflexivity|]. intros float_of_str update.
  destruct (failed_connection_test float_of_str Timeout
              (Body (JArr batch_aba)) ledger_a Absent (or_introl eq_refl))
    as [A _].
  destruct (A update) as [B _]. exact B.
Defined.

(** A run of the collector's script whose fetches all answer ends with
    status 0 and leaves one sample. *)
Example collector_script_succeeds (float_of_str : string -> res spec_float) :
  let env :=
    GitHubDonationCollector.mkMain (Body (total_of 10))
      (Body (JArr batch_aba))
      (GitHubDonationCollector.mkEnv (Body (JArr batch_aba))
         (Body (total_of 10)) noon 1700000000000 "2024-01-01T12:00:00") in
  exit_status
    (fst (GitHubDonationCollector.main float_of_str env Absent Absent)) = 0 /\
  series_length
    (total_raised_file
       (snd (GitHubDonationCollector.main float_of_str env Absent Absent)))
  = 1%nat.
Proof. cbv zeta. split; reflexivity. Qed.

(** A smooth run of [update_data] makes the six calls and removes the
    folder; a run whose collector fails stops after two calls and leaves
    the folder. *)
Example update_data_runs :
  AutoGitUpdater.update_data smooth_update
  = (true, pipeline "2024-01-01 12:00:00"
           ++ [AutoGitUpdater.Rmtree "teamwater-data"]) /\
  AutoGitUpdater.update_data failing_update
  = (false, AutoGitUpdater.Rmtree "teamwater-data"
            :: firstn 2 (pipeline "2024-01-01 12:00:00")).
Proof. split; reflexivity. Qed.

Lemma known_ids_have_records_witness :
  let w := snd (init ledger_a Absent) in
  let w' :=
    snd (DonationMonitor.save_new_donations (JArr batch_aba) w) in
  init ledger_a Absent = (Ok tt, w) /\
  DonationMonitor.save_new_donations (JArr batch_aba) w = (Ok true, w') /\
  indexed w /\ indexed w'.
Proof.
  cbv zeta. split; [reflexivity|]. split; [reflexivity|].
  destruct known_ids_have_records as (A & B & _).
  assert (I : indexed (snd (init ledger_a Absent))).
  { exact (A ledger_a Absent (snd (init ledger_a Absent)) _ eq_refl eq_refl). }
  split; [exact I|].
  exact (B (JArr batch_aba) (snd (init ledger_a Absent)) true
           (snd (DonationMonitor.save_new_donations (JArr batch_aba)
                   (snd (init ledger_a Absent)))) I eq_refl).
Defined.

(** After the call that brought the undated donation ["b"] raised, the
    id ["b"] is known and has no record. *)
Example raised_call_breaks_the_index :
  let w' :=
    snd (DonationMonitor.save_new_donations (JArr [undated "b" 7])
           (snd (init ledger_a Absent))) in
  indexed (snd (init ledger_a Absent)) /\ ~ indexed w'.
Proof.
  cbv zeta. split.
  - intros x [<-|[]]. eexists _, _. split; [reflexivity|].
    split; [left; reflexivity|reflexivity].
  - intros I. destruct (I (JStr "b")) as (l & r & L & Ir & Er).
    + left. reflexivity.
    + cbv in L. inversion L; subst l. destruct Ir as [<-|[]]. discriminate.
Qed.

Lemma series_stays_capped_witness :
  load_or_empty Absent = Ok (JArr []) /\
  (List.length (@nil json) <= 100)%nat /\
  forall float_of_str,
  exists series',
    load_or_empty (snd (scheduled_runs float_of_str hourly_runs
                          (Absent, Absent)))
    = Ok (JArr series') /\
    (List.length series' <= 100)%nat.
Proof.
  split; [reflexivity|]. split; [cbn; lia|]. intros float_of_str.
  exact (series_stays_capped float_of_str hourly_runs Absent Absent []
           eq_refl (Nat.le_0_l 100)).
Defined.

Lemma failed_total_keeps_ledger_update_witness :
  let env :=
    GitHubDonationCollector.mkEnv (Body (JArr batch_aba)) (HTTPError 503)
      noon 1700000000000 "2024-01-01T12:00:00" in
  transient (HTTPError 503) = true /\
  forall float_of_str,
    fst (GitHubDonationCollector.run_update float_of_str env
           (blank Absent Absent)) = Ok false /\
    series_length
      (donations_file
         (snd (GitHubDonationCollector.run_update float_of_str env
                 (blank Absent Absent)))) = 2%nat.
Proof.
  cbv zeta. split; [reflexivity|]. intros float_of_str.
  rewrite (failed_total_keeps_ledger_update float_of_str
             (GitHubDonationCollector.mkEnv (Body (JArr batch_aba))
                (HTTPError 503) noon 1700000000000 "2024-01-01T12:00:00")
             (blank Absent Absent) eq_refl eq_refl).
  split; reflexivity.
Defined.

Lemma undated_donation_is_lost_witness :
  let w := snd (init ledger_a Absent) in
  let entries := [donation "c" "2024-01-05T00:00:00Z" 3; undated "b" 7] in
  load_or_empty (donations_file w)
  = Ok (JArr [record_of DonationMonitor.stamp 0
                (donation "a" "2024-01-01T00:00:00Z" 5)]) /\
  In (undated "b" 7) (fresh_entries (known_donation_ids w) entries) /\
  undated_payload (undated "b" 7) /\
  DonationMonitor.save_new_donations (JArr entries) w
  = (Raise TypeError, set_known [JStr "b"; JStr "c"; JStr "a"] w) /\
  DonationMonitor.save_new_donations (JArr entries)
    (set_known [JStr "b"; JStr "c"; JStr "a"] w)
  = (Ok false, set_known [JStr "b"; JStr "c"; JStr "a"] w).
Proof.
  cbv zeta.
  assert (I : In (undated "b" 7)
                (fresh_entries (known_donation_ids (snd (init ledger_a Absent)))
                   [donation "c" "2024-01-05T00:00:00Z" 3; undated "b" 7])).
  { right. left. reflexivity. }
  split; [reflexivity|]. split; [exact I|]. split; [reflexivity|].
  destruct (undated_donation_is_lost
              [donation "c" "2024-01-05T00:00:00Z" 3; undated "b" 7]
              [record_of DonationMonitor.stamp 0
                 (donation "a" "2024-01-01T00:00:00Z" 5)]
              (snd (init ledger_a Absent)) (undated "b" 7))
    as (A & B & _).
  - reflexivity.
  - discriminate.
  - repeat constructor. eexists. reflexivity.
  - repeat constructor.
    + eexists. split; [reflexivity|]. right. eexists. reflexivity.
    + eexists. split; [reflexivity|]. left. reflexivity.
  - exact I.
  - reflexivity.
  - split; [exact A|exact B].
Defined.
